(** * Request contexts of the service module: identifiers and validation

    A shallow embedding of [types/invocation.go] and of the validators of
    the message file of the [service] module, with the properties their
    specification states about them.

    Conventions.  A Go fixed-width integer is a [Z] whose conversions
    ([uint64], [int64], ...) write the wrap-around out.  A Go [[]byte] is a
    [list byte], a Go [string] is a [string] (both are byte sequences).  A
    run-time panic is [None] in the option monad.  A Go [error] is an
    [option error], [None] being [nil]. *)

From Stdlib Require Import ZArith Lia List Bool Ascii String.
From Stdlib Require Import Init.Byte.
From Stdlib Require Strings.Byte.
From coqutil Require Import Byte.
From stdpp Require Import base option list strings gmap.

Local Open Scope Z_scope.

(** ** Fixed-width integers *)

Module GoInt.

Definition uint64 (x : Z) : Z := x mod 2 ^ 64.
Definition int64 (x : Z) : Z := (x + 2 ^ 63) mod 2 ^ 64 - 2 ^ 63.
Definition uint16 (x : Z) : Z := x mod 2 ^ 16.
Definition int16 (x : Z) : Z := (x + 2 ^ 15) mod 2 ^ 16 - 2 ^ 15.

Definition is_uint64 (x : Z) : Prop := 0 <= x < 2 ^ 64.
Definition is_int64 (x : Z) : Prop := - 2 ^ 63 <= x < 2 ^ 63.
Definition is_uint16 (x : Z) : Prop := 0 <= x < 2 ^ 16.
Definition is_int16 (x : Z) : Prop := - 2 ^ 15 <= x < 2 ^ 15.

End GoInt.

(** ** [encoding/binary]: the big-endian byte order *)

Module BigEndian.

(** Go's conversion [byte(v)] keeps the low eight bits. *)
Definition byte_of (v : Z) : byte := byte.of_Z v.
Definition u (b : byte) : Z := byte.unsigned b.

(** [PutUint64(b, v)]: [_ = b[7]] panics on a short buffer, then the
    eight index assignments. *)
Definition PutUint64 (b : list byte) (v : Z) : option (list byte) :=
  _ ← b !! 7%nat;
  let b := <[0%nat := byte_of (v ≫ 56)]> b in
  let b := <[1%nat := byte_of (v ≫ 48)]> b in
  let b := <[2%nat := byte_of (v ≫ 40)]> b in
  let b := <[3%nat := byte_of (v ≫ 32)]> b in
  let b := <[4%nat := byte_of (v ≫ 24)]> b in
  let b := <[5%nat := byte_of (v ≫ 16)]> b in
  let b := <[6%nat := byte_of (v ≫ 8)]> b in
  let b := <[7%nat := byte_of v]> b in
  Some b.

Definition Uint64 (b : list byte) : option Z :=
  _ ← b !! 7%nat;
  b0 ← b !! 0%nat; b1 ← b !! 1%nat; b2 ← b !! 2%nat; b3 ← b !! 3%nat;
  b4 ← b !! 4%nat; b5 ← b !! 5%nat; b6 ← b !! 6%nat; b7 ← b !! 7%nat;
  Some (Z.lor (u b7) (Z.lor (u b6 ≪ 8) (Z.lor (u b5 ≪ 16)
       (Z.lor (u b4 ≪ 24) (Z.lor (u b3 ≪ 32) (Z.lor (u b2 ≪ 40)
       (Z.lor (u b1 ≪ 48) (u b0 ≪ 56)))))))).

Definition PutUint16 (b : list byte) (v : Z) : option (list byte) :=
  _ ← b !! 1%nat;
  let b := <[0%nat := byte_of (v ≫ 8)]> b in
  let b := <[1%nat := byte_of v]> b in
  Some b.

Definition Uint16 (b : list byte) : option Z :=
  _ ← b !! 1%nat;
  b0 ← b !! 0%nat; b1 ← b !! 1%nat;
  Some (Z.lor (u b1) (u b0 ≪ 8)).

(** The eight bytes [PutUint64] writes, and the two of [PutUint16]. *)
Definition bytes64 (v : Z) : list byte :=
  [byte_of (v ≫ 56); byte_of (v ≫ 48); byte_of (v ≫ 40); byte_of (v ≫ 32);
   byte_of (v ≫ 24); byte_of (v ≫ 16); byte_of (v ≫ 8); byte_of v].

Definition bytes16 (v : Z) : list byte := [byte_of (v ≫ 8); byte_of v].

End BigEndian.

(** ** Errors *)

(** Modelled from the spec: the registered errors of the module, whose
    declarations ([errors.go]) are not among the sources.  They are the
    error kinds the specification lists, under the names the validators
    use for them, with the three errors of the SDK the validators wrap. *)
Inductive RegisteredError : Type :=
  | ErrInvalidServiceName
  | ErrInvalidDescription
  | ErrInvalidTags
  | ErrInvalidMinRespTime
  | ErrInvalidProviders
  | ErrInvalidTimeout
  | ErrInvalidRepeatedFreq
  | ErrInvalidRepeatedTotal
  | ErrInvalidRequestInput
  | ErrInvalidResponse
  | ErrInvalidResponseResult
  | ErrInvalidRequestID
  | ErrInvalidRequestContextID
  | sdkerrors_ErrInvalidAddress
  | sdkerrors_ErrInvalidCoins
  | sdkerrors_ErrInvalidRequest.

(** A Go error.  The description that [sdkerrors.Wrap] attaches to a
    registered error is a formatted message for the reader and is not
    modelled: a wrapped error is its registered root, which is the kind
    of the error.  [errors.New] and [fmt.Errorf] make errors of no
    registered kind, known by their text. *)
Inductive error : Type :=
  | errors_New (text : string)
  | fmt_Errorf (text : string)
  | sdkerrors_Wrap (err : RegisteredError).

(** ** Slices *)

Module Slice.

(** [make([]byte, n)] *)
Definition make (n : nat) : list byte := replicate n Byte.x00.

(** [s[lo:hi]], which panics out of range. *)
Definition slice (s : list byte) (lo hi : nat) : option (list byte) :=
  if decide (lo ≤ hi ≤ length s)%nat then Some (take (hi - lo) (drop lo s))
  else None.

(** [s[lo:]] *)
Definition slice_from (s : list byte) (lo : nat) : option (list byte) :=
  slice s lo (length s).

(** [copy(dst, src)]: the first [min(len(dst), len(src))] bytes of
    [dst] are overwritten. *)
Definition copy (dst src : list byte) : list byte :=
  take (length dst) src ++ drop (length src) dst.

(** A call [f(s[lo:], ...)] that writes through the sub-slice: the
    bytes of [s] from [lo] on are the ones [f] leaves. *)
Definition through_from (s : list byte) (lo : nat)
    (f : list byte → option (list byte)) : option (list byte) :=
  t ← slice_from s lo;
  t' ← f t;
  Some (take lo s ++ t').

End Slice.

(** ** Identifiers ([types/invocation.go]) *)

Import GoInt.

Definition RequestIDLen : nat := 58.
Definition ContextIDLen : nat := 40.

(** [GenerateRequestContextID] generates a unique ID for the request
    context from the specified params. *)
Definition GenerateRequestContextID (txHash : list byte) (msgIndex : Z)
    : option (list byte) :=
  let bz := Slice.make 8 in
  bz ← BigEndian.PutUint64 bz (uint64 msgIndex);
  Some (txHash ++ bz).

(** [SplitRequestContextID] splits the given contextID to txHash and
    msgIndex. *)
Definition SplitRequestContextID (contextID : list byte)
    : option (list byte * Z * option error) :=
  if decide (length contextID ≠ ContextIDLen) then
    Some ([], 0, Some (errors_New "invalid request context ID"))
  else
    txHash ← Slice.slice contextID 0 32;
    b ← Slice.slice contextID 32 40;
    m ← BigEndian.Uint64 b;
    Some (txHash, int64 m, None).

(** [GenerateRequestID] generates a unique request ID from the given
    params. *)
Definition GenerateRequestID (requestContextID : list byte)
    (requestContextBatchCounter requestHeight batchRequestIndex : Z)
    : option (list byte) :=
  let contextID := Slice.make (length requestContextID) in
  let contextID := Slice.copy contextID requestContextID in
  let bz := Slice.make 18 in
  bz ← BigEndian.PutUint64 bz requestContextBatchCounter;
  bz ← Slice.through_from bz 8
         (λ b, BigEndian.PutUint64 b (uint64 requestHeight));
  bz ← Slice.through_from bz 16
         (λ b, BigEndian.PutUint16 b (uint16 batchRequestIndex));
  Some (contextID ++ bz).

(** [SplitRequestID] splits the given requestID to contextID,
    batchCounter, requestHeight, batchRequestIndex. *)
Definition SplitRequestID (requestID : list byte)
    : option (list byte * Z * Z * Z * option error) :=
  if decide (length requestID ≠ RequestIDLen) then
    Some ([], 0, 0, 0, Some (errors_New "invalid request ID"))
  else
    contextID ← Slice.slice requestID 0 40;
    b ← Slice.slice requestID 40 48;
    batchCounter ← BigEndian.Uint64 b;
    b ← Slice.slice requestID 48 56;
    h ← BigEndian.Uint64 b;
    b ← Slice.slice_from requestID 56;
    i ← BigEndian.Uint16 b;
    Some (contextID, batchCounter, int64 h, int16 i, None).

(** ** [regexp]

    A model of Go's [regexp] for the constructs the module's pattern
    uses: the anchors, character classes given by ranges, concatenation
    and the star.  The matcher walks the subject byte by byte; the
    classes of the pattern hold ASCII characters only, so a byte of a
    multi-byte character is in none of them, as the character itself is
    in none of them in Go. *)

Module Regexp.

Inductive Syntax : Type :=
  | BeginText
  | EndText
  | CharClass (ranges : list (ascii * ascii))
  | Concat (r1 r2 : Syntax)
  | Star (r : Syntax).

Definition in_range (c : ascii) (r : ascii * ascii) : bool :=
  (N_of_ascii (fst r) <=? N_of_ascii c)%N
  && (N_of_ascii c <=? N_of_ascii (snd r))%N.

Definition in_class (ranges : list (ascii * ascii)) (c : ascii) : bool :=
  existsb (in_range c) ranges.

(** [run r at_start s k]: some match of [r] at the front of [s] leaves a
    rest the continuation [k] accepts.  [at_start] tells whether the
    front of [s] is the beginning of the text.  An iteration of a star
    has to consume input, which bounds the iterations by the length of
    the subject. *)
Fixpoint run (r : Syntax) (at_start : bool) (s : string)
    (k : bool → string → bool) : bool :=
  match r with
  | BeginText => at_start && k at_start s
  | EndText => match s with EmptyString => k at_start s | _ => false end
  | CharClass ranges =>
      match s with
      | String c s' => in_class ranges c && k false s'
      | EmptyString => false
      end
  | Concat r1 r2 => run r1 at_start s (λ b s', run r2 b s' k)
  | Star r1 =>
      (fix iterate (fuel : nat) (b : bool) (s : string) : bool :=
         k b s ||
         match fuel with
         | O => false
         | S fuel' =>
             run r1 b s (λ b' s',
               (String.length s' <? String.length s)%nat
               && iterate fuel' b' s')
         end) (String.length s) at_start s
  end.

(** A match may begin at any offset of the subject. *)
Fixpoint search (r : Syntax) (at_start : bool) (s : string) : bool :=
  run r at_start s (λ _ _, true) ||
  match s with
  | String _ s' => search r false s'
  | EmptyString => false
  end.

(** [re.MatchString(s)] reports whether [s] contains any match of [re]. *)
Definition MatchString (re : Syntax) (s : string) : bool := search re true s.

End Regexp.

(** ** [encoding/json]

    A model of the two entry points the module calls: [json.Valid] and
    [json.Unmarshal] into a [*string].  Both run the scanner of
    [scanner.go], a state machine stepped once per input byte. *)

Module Json.

Definition byte_in (lo c hi : byte) : bool :=
  (Byte.to_N lo <=? Byte.to_N c)%N && (Byte.to_N c <=? Byte.to_N hi)%N.

(** *** The scanner *)

Inductive Op : Type :=
  | scanContinue | scanBeginLiteral | scanBeginObject | scanObjectKey
  | scanObjectValue | scanEndObject | scanBeginArray | scanArrayValue
  | scanEndArray | scanSkipSpace | scanEnd | scanError.

#[global] Instance Op_eq_dec : EqDecision Op.
Proof. solve_decision. Defined.

Inductive ParseState : Type :=
  | parseObjectKey | parseObjectValue | parseArrayValue.

(** The step function the scanner currently holds. *)
Inductive Step : Type :=
  | StBeginValueOrEmpty | StBeginValue | StBeginStringOrEmpty | StBeginString
  | StEndValue | StEndTop
  | StInString | StInStringEsc | StInStringEscU | StInStringEscU1
  | StInStringEscU12 | StInStringEscU123
  | StNeg | St1 | St0 | StDot | StDot0 | StE | StESign | StE0
  | StT | StTr | StTru | StF | StFa | StFal | StFals | StN | StNu | StNul
  | StError.

(** [parseState] is a stack; its top, the last element of the Go slice,
    is the head of the list.  [err] holds the context of the syntax
    error. *)
Record scanner : Type := mkScanner {
  step : Step;
  endTop : bool;
  parseState : list ParseState;
  err : option string
}.

Definition set_step (s : scanner) (st : Step) : scanner :=
  mkScanner st (endTop s) (parseState s) (err s).

Definition set_parseState (s : scanner) (ps : list ParseState) : scanner :=
  mkScanner (step s) (endTop s) ps (err s).

Definition maxNestingDepth : N := 10000.

Definition reset (s : scanner) : scanner :=
  mkScanner StBeginValue false [] None.

Definition newScanner : scanner := mkScanner StBeginValue false [] None.

(** The scanner at the beginning of a text. *)
Definition start : scanner := reset newScanner.

Definition error (s : scanner) (context : string) : scanner * Op :=
  (mkScanner StError (endTop s) (parseState s) (Some context), scanError).

Definition pushParseState (s : scanner) (newParseState : ParseState)
    (successState : Op) : scanner * Op :=
  let s := set_parseState s (newParseState :: parseState s) in
  if (N.of_nat (length (parseState s)) <=? maxNestingDepth)%N then
    (s, successState)
  else error s "exceeded max depth".

Definition popParseState (s : scanner) : scanner :=
  let ps := tail (parseState s) in
  match ps with
  | [] => mkScanner StEndTop true ps (err s)
  | _ => mkScanner StEndValue (endTop s) ps (err s)
  end.

Definition isSpace (c : byte) : bool :=
  match c with
  | " "%byte | "009"%byte | "013"%byte | "010"%byte => true
  | _ => false
  end.

Definition isDigit (c : byte) : bool := byte_in "0" c "9".

Definition isHex (c : byte) : bool :=
  byte_in "0" c "9" || byte_in "a" c "f" || byte_in "A" c "F".

Definition stateEndTop (s : scanner) (c : byte) : scanner * Op :=
  if negb (isSpace c) then (fst (error s "after top-level value"), scanEnd)
  else (s, scanEnd).

Definition stateEndValue (s : scanner) (c : byte) : scanner * Op :=
  match parseState s with
  | [] => stateEndTop (mkScanner StEndTop true [] (err s)) c
  | ps :: below =>
      if isSpace c then (set_step s StEndValue, scanSkipSpace)
      else
        match ps with
        | parseObjectKey =>
            if Byte.eqb c ":" then
              (set_step (set_parseState s (parseObjectValue :: below))
                 StBeginValue, scanObjectKey)
            else error s "after object key"
        | parseObjectValue =>
            if Byte.eqb c "," then
              (set_step (set_parseState s (parseObjectKey :: below))
                 StBeginString, scanObjectValue)
            else if Byte.eqb c "}" then (popParseState s, scanEndObject)
            else error s "after object key:value pair"
        | parseArrayValue =>
            if Byte.eqb c "," then (set_step s StBeginValue, scanArrayValue)
            else if Byte.eqb c "]" then (popParseState s, scanEndArray)
            else error s "after array element"
        end
  end.

Definition stateBeginValue (s : scanner) (c : byte) : scanner * Op :=
  if isSpace c then (s, scanSkipSpace)
  else
    match c with
    | "{"%byte =>
        pushParseState (set_step s StBeginStringOrEmpty) parseObjectKey
          scanBeginObject
    | "["%byte =>
        pushParseState (set_step s StBeginValueOrEmpty) parseArrayValue
          scanBeginArray
    | "034"%byte => (set_step s StInString, scanBeginLiteral)
    | "-"%byte => (set_step s StNeg, scanBeginLiteral)
    | "0"%byte => (set_step s St0, scanBeginLiteral)
    | "t"%byte => (set_step s StT, scanBeginLiteral)
    | "f"%byte => (set_step s StF, scanBeginLiteral)
    | "n"%byte => (set_step s StN, scanBeginLiteral)
    | _ =>
        if byte_in "1" c "9" then (set_step s St1, scanBeginLiteral)
        else error s "looking for beginning of value"
    end.

Definition stateBeginValueOrEmpty (s : scanner) (c : byte) : scanner * Op :=
  if isSpace c then (s, scanSkipSpace)
  else if Byte.eqb c "]" then stateEndValue s c
  else stateBeginValue s c.

Definition stateBeginString (s : scanner) (c : byte) : scanner * Op :=
  if isSpace c then (s, scanSkipSpace)
  else if Byte.eqb c "034" then (set_step s StInString, scanBeginLiteral)
  else error s "looking for beginning of object key string".

Definition stateBeginStringOrEmpty (s : scanner) (c : byte) : scanner * Op :=
  if isSpace c then (s, scanSkipSpace)
  else if Byte.eqb c "}" then
    stateEndValue
      (set_parseState s (parseObjectValue :: tail (parseState s))) c
  else stateBeginString s c.

Definition stateInString (s : scanner) (c : byte) : scanner * Op :=
  if Byte.eqb c "034" then (set_step s StEndValue, scanContinue)
  else if Byte.eqb c "\" then (set_step s StInStringEsc, scanContinue)
  else if (Byte.to_N c <? 32)%N then error s "in string literal"
  else (s, scanContinue).

Definition stateInStringEsc (s : scanner) (c : byte) : scanner * Op :=
  match c with
  | "b"%byte | "f"%byte | "n"%byte | "r"%byte | "t"%byte
  | "\"%byte | "/"%byte | "034"%byte => (set_step s StInString, scanContinue)
  | "u"%byte => (set_step s StInStringEscU, scanContinue)
  | _ => error s "in string escape code"
  end.

(** The four states of a [\u] escape differ by their successor only. *)
Definition stateInStringEscHex (next : Step) (s : scanner) (c : byte)
    : scanner * Op :=
  if isHex c then (set_step s next, scanContinue)
  else error s "in \u hexadecimal character escape".

Definition state0 (s : scanner) (c : byte) : scanner * Op :=
  if Byte.eqb c "." then (set_step s StDot, scanContinue)
  else if Byte.eqb c "e" || Byte.eqb c "E" then (set_step s StE, scanContinue)
  else stateEndValue s c.

Definition state1 (s : scanner) (c : byte) : scanner * Op :=
  if isDigit c then (set_step s St1, scanContinue) else state0 s c.

Definition stateNeg (s : scanner) (c : byte) : scanner * Op :=
  if Byte.eqb c "0" then (set_step s St0, scanContinue)
  else if byte_in "1" c "9" then (set_step s St1, scanContinue)
  else error s "in numeric literal".

Definition stateDot (s : scanner) (c : byte) : scanner * Op :=
  if isDigit c then (set_step s StDot0, scanContinue)
  else error s "after decimal point in numeric literal".

Definition stateDot0 (s : scanner) (c : byte) : scanner * Op :=
  if isDigit c then (s, scanContinue)
  else if Byte.eqb c "e" || Byte.eqb c "E" then (set_step s StE, scanContinue)
  else stateEndValue s c.

Definition stateESign (s : scanner) (c : byte) : scanner * Op :=
  if isDigit c then (set_step s StE0, scanContinue)
  else error s "in exponent of numeric literal".

Definition stateE (s : scanner) (c : byte) : scanner * Op :=
  if Byte.eqb c "+" || Byte.eqb c "-" then (set_step s StESign, scanContinue)
  else stateESign s c.

Definition stateE0 (s : scanner) (c : byte) : scanner * Op :=
  if isDigit c then (s, scanContinue) else stateEndValue s c.

(** The states spelling [true], [false] and [null]: the expected byte
    leads to the next state. *)
Definition stateLetter (expected : byte) (next : Step) (context : string)
    (s : scanner) (c : byte) : scanner * Op :=
  if Byte.eqb c expected then (set_step s next, scanContinue)
  else error s context.

Definition stateError (s : scanner) (c : byte) : scanner * Op :=
  (s, scanError).

(** [s.step(s, c)] *)
Definition do_step (s : scanner) (c : byte) : scanner * Op :=
  match step s with
  | StBeginValueOrEmpty => stateBeginValueOrEmpty s c
  | StBeginValue => stateBeginValue s c
  | StBeginStringOrEmpty => stateBeginStringOrEmpty s c
  | StBeginString => stateBeginString s c
  | StEndValue => stateEndValue s c
  | StEndTop => stateEndTop s c
  | StInString => stateInString s c
  | StInStringEsc => stateInStringEsc s c
  | StInStringEscU => stateInStringEscHex StInStringEscU1 s c
  | StInStringEscU1 => stateInStringEscHex StInStringEscU12 s c
  | StInStringEscU12 => stateInStringEscHex StInStringEscU123 s c
  | StInStringEscU123 => stateInStringEscHex StInString s c
  | StNeg => stateNeg s c
  | St1 => state1 s c
  | St0 => state0 s c
  | StDot => stateDot s c
  | StDot0 => stateDot0 s c
  | StE => stateE s c
  | StESign => stateESign s c
  | StE0 => stateE0 s c
  | StT => stateLetter "r" StTr "in literal true (expecting 'r')" s c
  | StTr => stateLetter "u" StTru "in literal true (expecting 'u')" s c
  | StTru => stateLetter "e" StEndValue "in literal true (expecting 'e')" s c
  | StF => stateLetter "a" StFa "in literal false (expecting 'a')" s c
  | StFa => stateLetter "l" StFal "in literal false (expecting 'l')" s c
  | StFal => stateLetter "s" StFals "in literal false (expecting 's')" s c
  | StFals => stateLetter "e" StEndValue "in literal false (expecting 'e')" s c
  | StN => stateLetter "u" StNu "in literal null (expecting 'u')" s c
  | StNu => stateLetter "l" StNul "in literal null (expecting 'l')" s c
  | StNul => stateLetter "l" StEndValue "in literal null (expecting 'l')" s c
  | StError => stateError s c
  end.

(** [s.eof()] tells the scanner that the end of input has been reached. *)
Definition eof (s : scanner) : scanner * Op :=
  match err s with
  | Some _ => (s, scanError)
  | None =>
      if endTop s then (s, scanEnd)
      else
        let s := fst (do_step s " ") in
        if endTop s then (s, scanEnd)
        else
          match err s with
          | Some _ => (s, scanError)
          | None =>
              (mkScanner (step s) (endTop s) (parseState s)
                 (Some "unexpected end of JSON input"), scanError)
          end
  end.

Definition is_scanError (op : Op) : bool :=
  match op with scanError => true | _ => false end.

(** The loop of [checkValid] over the bytes of [data]. *)
Fixpoint checkValid_loop (data : list byte) (s : scanner)
    : scanner * option string :=
  match data with
  | [] =>
      let (s, op) := eof s in
      if is_scanError op then (s, err s) else (s, None)
  | c :: data' =>
      let (s, op) := do_step s c in
      if is_scanError op then (s, err s) else checkValid_loop data' s
  end.

(** [checkValid(data, scan)]: [nil], or the syntax error. *)
Definition checkValid (data : list byte) (scan : scanner)
    : scanner * option string :=
  checkValid_loop data (reset scan).

(** [json.Valid(data)] reports whether [data] is a valid JSON encoding. *)
Definition Valid (data : list byte) : bool :=
  match snd (checkValid data newScanner) with
  | None => true
  | Some _ => false
  end.

(** *** [unicode/utf8] and [unicode/utf16], as far as unquoting needs them *)

Definition RuneError : Z := 65533.
Definition MaxRune : Z := 1114111.

Definition b2z (c : byte) : Z := byte.unsigned c.
Definition z2b (z : Z) : byte := byte.of_Z z.

(** [utf8.EncodeRune]: the bytes written for the rune [r]. *)
Definition EncodeRune (r : Z) : list byte :=
  let i := r mod 2 ^ 32 in
  let three (r : Z) :=
    [z2b (Z.lor 224 (r ≫ 12)); z2b (Z.lor 128 (Z.land (r ≫ 6) 63));
     z2b (Z.lor 128 (Z.land r 63))] in
  if i <=? 127 then [z2b r]
  else if i <=? 2047 then
    [z2b (Z.lor 192 (r ≫ 6)); z2b (Z.lor 128 (Z.land r 63))]
  else if (MaxRune <? i) || ((55296 <=? i) && (i <=? 57343)) then
    three RuneError
  else if i <=? 65535 then three r
  else
    [z2b (Z.lor 240 (r ≫ 18)); z2b (Z.lor 128 (Z.land (r ≫ 12) 63));
     z2b (Z.lor 128 (Z.land (r ≫ 6) 63)); z2b (Z.lor 128 (Z.land r 63))].

(** An entry of the table [first]: an ASCII byte, an invalid leading
    byte, or a leading byte with the size of its sequence and the range
    accepted for the second byte. *)
Inductive First : Type :=
  | first_as
  | first_xx
  | first_lead (sz : nat) (lo hi : Z).

Definition first (p0 : byte) : First :=
  let x := b2z p0 in
  if x <? 128 then first_as
  else if x <? 194 then first_xx
  else if x <? 224 then first_lead 2 128 191
  else if x =? 224 then first_lead 3 160 191
  else if x <? 237 then first_lead 3 128 191
  else if x =? 237 then first_lead 3 128 159
  else if x <? 240 then first_lead 3 128 191
  else if x =? 240 then first_lead 4 144 191
  else if x <? 244 then first_lead 4 128 191
  else if x =? 244 then first_lead 4 128 143
  else first_xx.

Definition continuation (b : Z) : bool := (128 <=? b) && (b <=? 191).

(** [utf8.DecodeRune]: the first rune of [p] and its width in bytes. *)
Definition DecodeRune (p : list byte) : Z * nat :=
  match p with
  | [] => (RuneError, 0%nat)
  | p0 :: _ =>
      match first p0 with
      | first_as => (b2z p0, 1%nat)
      | first_xx => (RuneError, 1%nat)
      | first_lead sz lo hi =>
          if (length p <? sz)%nat then (RuneError, 1%nat)
          else
            let b1 := b2z (nth 1 p x00) in
            let b2 := b2z (nth 2 p x00) in
            let b3 := b2z (nth 3 p x00) in
            if (b1 <? lo) || (hi <? b1) then (RuneError, 1%nat)
            else if (sz <=? 2)%nat then
              (Z.lor (Z.land (b2z p0) 31 ≪ 6) (Z.land b1 63), 2%nat)
            else if negb (continuation b2) then (RuneError, 1%nat)
            else if (sz <=? 3)%nat then
              (Z.lor (Z.land (b2z p0) 15 ≪ 12)
                 (Z.lor (Z.land b1 63 ≪ 6) (Z.land b2 63)), 3%nat)
            else if negb (continuation b3) then (RuneError, 1%nat)
            else
              (Z.lor (Z.land (b2z p0) 7 ≪ 18)
                 (Z.lor (Z.land b1 63 ≪ 12)
                    (Z.lor (Z.land b2 63 ≪ 6) (Z.land b3 63))), 4%nat)
      end
  end.

(** [utf16.IsSurrogate] and [utf16.DecodeRune] *)
Definition IsSurrogate (r : Z) : bool := (55296 <=? r) && (r <? 57344).

Definition utf16_DecodeRune (r1 r2 : Z) : Z :=
  if (55296 <=? r1) && (r1 <? 56320) && (56320 <=? r2) && (r2 <? 57344)
  then Z.lor ((r1 - 55296) ≪ 10) (r2 - 56320) + 65536
  else RuneError.

(** *** Unquoting a string literal ([decode.go]) *)

Definition hexval (c : byte) : option Z :=
  if byte_in "0" c "9" then Some (b2z c - 48)
  else if byte_in "a" c "f" then Some (b2z c - 97 + 10)
  else if byte_in "A" c "F" then Some (b2z c - 65 + 10)
  else None.

(** [getu4] decodes [\uXXXX] from the beginning of [s], returning the
    hex value, or [-1]. *)
Definition getu4 (s : list byte) : Z :=
  match s with
  | "\"%byte :: "u"%byte :: h1 :: h2 :: h3 :: h4 :: _ =>
      match hexval h1, hexval h2, hexval h3, hexval h4 with
      | Some a, Some b, Some c, Some d => ((a * 16 + b) * 16 + c) * 16 + d
      | _, _, _, _ => -1
      end
  | _ => -1
  end.

(** The loop of [unquoteBytes] over the bytes between the quotes.  The
    Go loop advances its read index by the width of what it has
    decoded; here [skip] counts the bytes still to pass over. *)
Fixpoint unquote_loop (s : list byte) (skip : nat) : option (list byte) :=
  match s with
  | [] => Some []
  | c :: rest =>
      match skip with
      | S skip' => unquote_loop rest skip'
      | O =>
          if Byte.eqb c "\" then
            match rest with
            | [] => None
            | e :: _ =>
                match e with
                | "034"%byte | "\"%byte | "/"%byte | "'"%byte =>
                    cons e <$> unquote_loop rest 1
                | "b"%byte => cons "008"%byte <$> unquote_loop rest 1
                | "f"%byte => cons "012"%byte <$> unquote_loop rest 1
                | "n"%byte => cons "010"%byte <$> unquote_loop rest 1
                | "r"%byte => cons "013"%byte <$> unquote_loop rest 1
                | "t"%byte => cons "009"%byte <$> unquote_loop rest 1
                | "u"%byte =>
                    let rr := getu4 s in
                    if rr <? 0 then None
                    else if IsSurrogate rr then
                      let rr1 := getu4 (drop 6 s) in
                      let dec := utf16_DecodeRune rr rr1 in
                      if negb (dec =? RuneError) then
                        app (EncodeRune dec) <$> unquote_loop rest 11
                      else app (EncodeRune RuneError) <$> unquote_loop rest 5
                    else app (EncodeRune rr) <$> unquote_loop rest 5
                | _ => None
                end
            end
          else if Byte.eqb c "034" || (b2z c <? 32) then None
          else if b2z c <? 128 then cons c <$> unquote_loop rest 0
          else
            let '(rr, size) := DecodeRune s in
            app (EncodeRune rr) <$> unquote_loop rest (size - 1)
      end
  end.

(** [unquoteBytes]: the contents of the quoted literal [s]. *)
Definition unquoteBytes (s : list byte) : option (list byte) :=
  match s with
  | "034"%byte :: _ :: _ =>
      if Byte.eqb (List.last s x00) "034" then
        unquote_loop (take (length s - 2) (drop 1 s)) 0
      else None
  | _ => None
  end.

(** *** Decoding into a string ([decode.go]) *)

Inductive UnmarshalError : Type :=
  | SyntaxError (msg : string)
  | UnmarshalTypeError (value : string).

(** [d.scanWhile(op)] processes bytes until it receives a scan code not
    equal to [op]; it returns the code, and the data from the byte that
    produced it on. *)
Fixpoint scanWhile (s : scanner) (data : list byte) (op : Op)
    : Op * list byte :=
  match data with
  | [] => (snd (eof s), [])
  | c :: data' =>
      let (s', newOp) := do_step s c in
      if decide (newOp = op) then scanWhile s' data' op else (newOp, data)
  end.

(** The bytes of a string literal after its opening quote, up to and
    with the closing quote. *)
Fixpoint rescanString (data : list byte) (escaped : bool) : list byte :=
  match data with
  | [] => []
  | c :: data' =>
      if escaped then c :: rescanString data' false
      else if Byte.eqb c "\" then c :: rescanString data' true
      else if Byte.eqb c "034" then [c]
      else c :: rescanString data' false
  end.

Definition isNumberByte (c : byte) : bool :=
  isDigit c || Byte.eqb c "." || Byte.eqb c "e" || Byte.eqb c "E"
  || Byte.eqb c "+" || Byte.eqb c "-".

Fixpoint rescanNumber (data : list byte) : list byte :=
  match data with
  | [] => []
  | c :: data' => if isNumberByte c then c :: rescanNumber data' else []
  end.

(** [d.rescanLiteral()], from the first byte of the literal: the bytes
    of the literal. *)
Definition rescanLiteral (data : list byte) : list byte :=
  match data with
  | [] => []
  | c :: data' =>
      match c with
      | "034"%byte => c :: rescanString data' false
      | "t"%byte => c :: take 3 data'
      | "f"%byte => c :: take 4 data'
      | "n"%byte => c :: take 3 data'
      | _ => c :: rescanNumber data'
      end
  end.

(** [d.literalStore(item, v, false)] for [v] a string holding [s]: the
    string afterwards and the saved error, or [None] for a panic. *)
Definition literalStore (item : list byte) (s : string)
    : option (string * option UnmarshalError) :=
  match item with
  | [] => None
  | c :: _ =>
      match c with
      | "n"%byte => Some (s, None)
      | "t"%byte | "f"%byte => Some (s, Some (UnmarshalTypeError "bool"))
      | "034"%byte =>
          t ← unquoteBytes item;
          Some (string_of_list_byte t, None)
      | _ =>
          if negb (Byte.eqb c "-") && negb (isDigit c) then None
          else Some (s, Some (UnmarshalTypeError "number"))
      end
  end.

(** [json.Unmarshal(data, &s)] for a string variable holding [s]: the
    string afterwards and the error, or [None] for a panic. *)
Definition Unmarshal_string (data : list byte) (s : string)
    : option (string * option UnmarshalError) :=
  match snd (checkValid data newScanner) with
  | Some msg => Some (s, Some (SyntaxError msg))
  | None =>
      let '(opcode, data) := scanWhile (reset newScanner) data scanSkipSpace in
      match opcode with
      | scanBeginArray => Some (s, Some (UnmarshalTypeError "array"))
      | scanBeginObject => Some (s, Some (UnmarshalTypeError "object"))
      | scanBeginLiteral => literalStore (rescanLiteral data) s
      | _ => None
      end
  end.

End Json.

(** ** [strings] *)

Module Strings.

Definition isASCII (c : ascii) : bool := (N_of_ascii c <? 128)%N.

Definition isUpper (c : ascii) : bool :=
  (N_of_ascii "A" <=? N_of_ascii c)%N && (N_of_ascii c <=? N_of_ascii "Z")%N.

Definition lower (c : ascii) : ascii :=
  if isUpper c then ascii_of_N (N_of_ascii c + 32) else c.

Fixpoint all (p : ascii → bool) (s : string) : bool :=
  match s with
  | EmptyString => true
  | String c s' => p c && all p s'
  end.

Fixpoint map (f : ascii → ascii) (s : string) : string :=
  match s with
  | EmptyString => EmptyString
  | String c s' => String (f c) (map f s')
  end.

(** [strings.ToLower]: an ASCII-only string is lowered byte by byte, and
    is returned as it is when it has no upper-case letter; any other
    string goes through [Map(unicode.ToLower, s)], which rests on the
    Unicode tables and is the parameter [unicode_lower]. *)
Definition ToLower (unicode_lower : string → string) (s : string) : string :=
  if all isASCII s then
    if all (λ c, negb (isUpper c)) s then s else map lower s
  else unicode_lower s.

End Strings.

(** ** Request contexts ([types/invocation.go]) *)

Definition AccAddress : Type := list byte.

Record Coin : Type := mkCoin { Denom : string; Amount : Z }.

Definition Coins : Type := list Coin.

(** [type RequestContextState byte], and the state of the current batch. *)
Definition RequestContextState : Type := byte.
Definition RequestContextBatchState : Type := byte.

Definition RUNNING : RequestContextState := x00.
Definition PAUSED : RequestContextState := x01.
Definition COMPLETED : RequestContextState := x02.

Definition BATCHRUNNING : RequestContextBatchState := x00.
Definition BATCHCOMPLETED : RequestContextBatchState := x01.

(** [RequestContext] defines a context which holds request-related data. *)
Record RequestContext : Type := mkRequestContext {
  ServiceName : string;
  Providers : list AccAddress;
  Consumer : AccAddress;
  ServiceFeeCap : Coins;
  Input : string;
  ModuleName : string;
  Timeout : Z;
  RepeatedFrequency : Z;
  RepeatedTotal : Z;
  BatchCounter : Z;
  BatchRequestCount : Z;
  BatchResponseCount : Z;
  BatchResponseThreshold : Z;
  ResponseThreshold : Z;
  SuperMode : bool;
  Repeated : bool;
  BatchState : RequestContextBatchState;
  State : RequestContextState
}.

(** [NewRequestContext] creates a new RequestContext instance. *)
Definition NewRequestContext (serviceName : string)
    (providers : list AccAddress) (consumer : AccAddress) (input : string)
    (serviceFeeCap : Coins) (timeout : Z) (superMode repeated : bool)
    (repeatedFrequency repeatedTotal batchCounter : Z)
    (batchRequestCount batchResponseCount batchResponseThreshold : Z)
    (batchState : RequestContextBatchState) (state : RequestContextState)
    (responseThreshold : Z) (moduleName : string) : RequestContext :=
  {| ServiceName := serviceName;
     Providers := providers;
     Consumer := consumer;
     Input := input;
     ServiceFeeCap := serviceFeeCap;
     Timeout := timeout;
     SuperMode := superMode;
     Repeated := repeated;
     RepeatedFrequency := repeatedFrequency;
     RepeatedTotal := repeatedTotal;
     BatchCounter := batchCounter;
     BatchRequestCount := batchRequestCount;
     BatchResponseCount := batchResponseCount;
     BatchResponseThreshold := batchResponseThreshold;
     BatchState := batchState;
     State := state;
     ResponseThreshold := responseThreshold;
     ModuleName := moduleName |}.

(** [Empty] returns true if empty. *)
Definition RequestContext_Empty (rc : RequestContext) : bool :=
  (length (Consumer rc) =? 0)%nat.

Definition StringToRequestContextStateMap : gmap string byte :=
  {[ "running" := RUNNING; "paused" := PAUSED; "completed" := COMPLETED ]}.

Definition StringToRequestContextBatchStateMap : gmap string byte :=
  {[ "running" := BATCHRUNNING; "completed" := BATCHCOMPLETED ]}.

Section States.

(** The path of [strings.ToLower] through the Unicode tables. *)
Variable unicode_lower : string → string.

Definition RequestContextStateFromString (str : string)
    : RequestContextState * option error :=
  match StringToRequestContextStateMap !! Strings.ToLower unicode_lower str with
  | Some state => (state, None)
  | None =>
      (xff, Some (fmt_Errorf
                    ("'" ++ str ++ "' is not a valid request context state")))
  end.

(** [UnmarshalJSON] of [*RequestContextState]: the receiver afterwards
    and the error returned, or [None] for a panic. *)
Definition RequestContextState_UnmarshalJSON (state : RequestContextState)
    (data : list byte) : option (RequestContextState * option error) :=
  let s := EmptyString in
  '(s, err) ← Json.Unmarshal_string data s;
  match err with
  | Some _ => Some (state, None)
  | None =>
      let '(bz, err) := RequestContextStateFromString s in
      match err with
      | Some e => Some (state, Some e)
      | None => Some (bz, None)
      end
  end.

Definition RequestContextBatchStateFromString (str : string)
    : RequestContextBatchState * option error :=
  match
    StringToRequestContextBatchStateMap !! Strings.ToLower unicode_lower str
  with
  | Some state => (state, None)
  | None =>
      (xff,
       Some (fmt_Errorf
               ("'" ++ str
                ++ "' is not a valid request context batch state")))
  end.

Definition RequestContextBatchState_UnmarshalJSON
    (state : RequestContextBatchState) (data : list byte)
    : option (RequestContextBatchState * option error) :=
  let s := EmptyString in
  '(s, err) ← Json.Unmarshal_string data s;
  match err with
  | Some _ => Some (state, None)
  | None =>
      let '(bz, err) := RequestContextBatchStateFromString s in
      match err with
      | Some e => Some (state, Some e)
      | None => Some (bz, None)
      end
  end.

End States.

(** ** Validation of the messages *)

Definition MaxNameLength : nat := 70.
Definition MaxProvidersNum : nat := 10.

(** The service name only accepts alphanumeric characters, _ and -,
    beginning with alpha character: [^[a-zA-Z][a-zA-Z0-9_-]*$]. *)
Definition reServiceName : Regexp.Syntax :=
  Regexp.Concat Regexp.BeginText
    (Regexp.Concat
       (Regexp.CharClass [("a", "z"); ("A", "Z")]%char)
       (Regexp.Concat
          (Regexp.Star
             (Regexp.CharClass
                [("a", "z"); ("A", "Z"); ("0", "9"); ("_", "_");
                 ("-", "-")]%char))
          Regexp.EndText)).

(** The two classes of the pattern. *)
Definition letters : list (ascii * ascii) := [("a", "z"); ("A", "Z")]%char.

Definition name_chars : list (ascii * ascii) :=
  [("a", "z"); ("A", "Z"); ("0", "9"); ("_", "_"); ("-", "-")]%char.

(** [if err := e; err != nil { return err }], then [k]. *)
Definition or_else (e k : option error) : option error :=
  match e with
  | Some err => Some err
  | None => k
  end.

Notation "'check' e 'in' k" := (or_else e k)
  (at level 10, e at level 100, k at level 200, only parsing).

(** Modelled from the spec: [HasDuplicate], whose file is not among the
    sources.  The specification asks for lists with "no duplicates"
    ("no duplicate addresses (address string equality)"): the function
    tells whether some string occurs at two positions of [arr]. *)
Fixpoint HasDuplicate (arr : list string) : bool :=
  match arr with
  | [] => false
  | elem :: arr' => existsb (String.eqb elem) arr' || HasDuplicate arr'
  end.

(** [ValidateServiceName] validates the service name. *)
Definition ValidateServiceName (name : string) : option error :=
  if negb (Regexp.MatchString reServiceName name)
     || (MaxNameLength <? String.length name)%nat
  then Some (sdkerrors_Wrap ErrInvalidServiceName)
  else None.

Definition ValidateInput (input : string) : option error :=
  if (String.length input =? 0)%nat then
    Some (sdkerrors_Wrap ErrInvalidRequestInput)
  else if negb (Json.Valid (list_byte_of_string input)) then
    Some (sdkerrors_Wrap ErrInvalidRequestInput)
  else None.

Definition ValidateOutput (code : Z) (output : string) : option error :=
  if (code =? 200) && (String.length output =? 0)%nat then
    Some (sdkerrors_Wrap ErrInvalidResponse)
  else if negb (code =? 200) && negb (String.length output =? 0)%nat then
    Some (sdkerrors_Wrap ErrInvalidResponse)
  else if (0 <? String.length output)%nat
          && negb (Json.Valid (list_byte_of_string output)) then
    Some (sdkerrors_Wrap ErrInvalidResponse)
  else None.

Section Validation.

(** Of the Cosmos SDK: [Coins.IsValid] and the Bech32 text of an
    address, [AccAddress.String]. *)
Variable Coins_IsValid : Coins → bool.
Variable AccAddress_String : AccAddress → string.

(** [coins.Empty()] *)
Definition Coins_Empty (coins : Coins) : bool := (length coins =? 0)%nat.

Definition checkDuplicateProviders (providers : list AccAddress)
    : option error :=
  let providerArr := List.map AccAddress_String providers in
  if HasDuplicate providerArr then Some (sdkerrors_Wrap ErrInvalidProviders)
  else None.

Definition ValidateProvidersNoEmpty (providers : list AccAddress)
    : option error :=
  if (length providers =? 0)%nat then
    Some (sdkerrors_Wrap sdkerrors_ErrInvalidRequest)
  else if (MaxProvidersNum <? length providers)%nat then
    Some (sdkerrors_Wrap sdkerrors_ErrInvalidRequest)
  else
    check checkDuplicateProviders providers in
    None.

Definition ValidateProvidersCanEmpty (providers : list AccAddress)
    : option error :=
  if (MaxProvidersNum <? length providers)%nat then
    Some (sdkerrors_Wrap ErrInvalidProviders)
  else
    check (if (0 <? length providers)%nat then
             checkDuplicateProviders providers
           else None) in
    None.

Definition ValidateServiceFeeCap (serviceFeeCap : Coins) : option error :=
  if negb (Coins_IsValid serviceFeeCap) then
    Some (sdkerrors_Wrap sdkerrors_ErrInvalidRequest)
  else None.

(** [ValidateRequest] validates the request params. *)
Definition ValidateRequest (serviceName : string) (serviceFeeCap : Coins)
    (providers : list AccAddress) (input : string) (timeout : Z)
    (repeated : bool) (repeatedFrequency repeatedTotal : Z)
    : option error :=
  check ValidateServiceName serviceName in
  check ValidateServiceFeeCap serviceFeeCap in
  check ValidateProvidersNoEmpty providers in
  check ValidateInput input in
  if timeout <=? 0 then Some (sdkerrors_Wrap ErrInvalidTimeout)
  else if repeated then
    if (0 <? repeatedFrequency) && (repeatedFrequency <? uint64 timeout) then
      Some (sdkerrors_Wrap ErrInvalidRepeatedFreq)
    else if (repeatedTotal <? -1) || (repeatedTotal =? 0) then
      Some (sdkerrors_Wrap ErrInvalidRepeatedTotal)
    else None
  else None.

(** [ValidateRequestContextUpdating] validates the request context
    updating operation. *)
Definition ValidateRequestContextUpdating (providers : list AccAddress)
    (serviceFeeCap : Coins) (timeout repeatedFrequency repeatedTotal : Z)
    : option error :=
  check ValidateProvidersCanEmpty providers in
  check (if negb (Coins_Empty serviceFeeCap) then
           ValidateServiceFeeCap serviceFeeCap
         else None) in
  if timeout <? 0 then Some (sdkerrors_Wrap ErrInvalidTimeout)
  else if negb (timeout =? 0) && negb (repeatedFrequency =? 0)
          && (repeatedFrequency <? uint64 timeout) then
    Some (sdkerrors_Wrap ErrInvalidRepeatedFreq)
  else if repeatedTotal <? -1 then
    Some (sdkerrors_Wrap ErrInvalidRepeatedFreq)
  else None.

End Validation.

(** ** The specification's vocabulary

    Definitions that follow the words of the specification, to state
    what the code above is compared with. *)

Module Spec.

(** The character [c] lies between [lo] and [hi]. *)
Definition between (lo c hi : ascii) : Prop :=
  (N_of_ascii lo <= N_of_ascii c <= N_of_ascii hi)%N.

(** [[A-Za-z]] *)
Definition letter (c : ascii) : Prop :=
  between "A" c "Z" \/ between "a" c "z".

(** [[A-Za-z0-9_-]] *)
Definition name_char (c : ascii) : Prop :=
  letter c \/ between "0" c "9" \/ c = "_"%char \/ c = "-"%char.

Inductive all_name_chars : string → Prop :=
  | all_name_chars_nil : all_name_chars EmptyString
  | all_name_chars_cons c s :
      name_char c → all_name_chars s → all_name_chars (String c s).

(** The whole of [name] matches [^[A-Za-z][A-Za-z0-9_-]*$]. *)
Definition matches_service_name_pattern (name : string) : Prop :=
  exists c rest, name = String c rest /\ letter c /\ all_name_chars rest.

(** The output [{"x":1}] of the specification's example. *)
Definition quote : string := String "034"%char EmptyString.

Definition output_x1 : string :=
  ("{" ++ quote ++ "x" ++ quote ++ ":1}")%string.

(** The first byte of [data] that is not JSON white space. *)
Fixpoint first_significant (data : list byte) : option byte :=
  match data with
  | [] => None
  | c :: data' => if Json.isSpace c then first_significant data' else Some c
  end.

(** The escapes of one character after the backslash: one of
    [b f n r t \ /] and the quote. *)
Definition simple_escape (e : byte) : bool :=
  match e with
  | "b"%byte | "f"%byte | "n"%byte | "r"%byte | "t"%byte
  | "\"%byte | "/"%byte | "034"%byte => true
  | _ => false
  end.

(** The bytes between the quotes of a JSON string: unescaped bytes from
    0x20 on other than the quote and the backslash, the escapes of one
    character, and [\u] followed by four hexadecimal digits. *)
Inductive string_body : list byte → Prop :=
  | string_body_nil : string_body []
  | string_body_plain c l :
      Byte.eqb c "034" = false → Byte.eqb c "\" = false →
      (Byte.to_N c <? 32)%N = false →
      string_body l → string_body (c :: l)
  | string_body_escape e l :
      simple_escape e = true →
      string_body l → string_body ("\"%byte :: e :: l)
  | string_body_unicode h1 h2 h3 h4 l :
      Json.isHex h1 = true → Json.isHex h2 = true →
      Json.isHex h3 = true → Json.isHex h4 = true →
      string_body l →
      string_body ("\"%byte :: "u"%byte :: h1 :: h2 :: h3 :: h4 :: l).

(** [data] is a JSON text whose value is a string. *)
Definition is_JSON_string (data : list byte) : Prop :=
  Json.Valid data = true /\ first_significant data = Some "034"%byte.

(** [data] is a JSON text whose value is [null]. *)
Definition is_JSON_null (data : list byte) : Prop :=
  Json.Valid data = true /\ first_significant data = Some "n"%byte.

End Spec.

(** ** Big-endian values *)

(** The value [Uint64] reads from eight bytes, and [Uint16] from two. *)
Definition value64 (b0 b1 b2 b3 b4 b5 b6 b7 : byte) : Z :=
  Z.lor (BigEndian.u b7) (Z.lor (BigEndian.u b6 ≪ 8)
    (Z.lor (BigEndian.u b5 ≪ 16) (Z.lor (BigEndian.u b4 ≪ 24)
    (Z.lor (BigEndian.u b3 ≪ 32) (Z.lor (BigEndian.u b2 ≪ 40)
    (Z.lor (BigEndian.u b1 ≪ 48) (BigEndian.u b0 ≪ 56))))))).

Definition value16 (b0 b1 : byte) : Z :=
  Z.lor (BigEndian.u b1) (BigEndian.u b0 ≪ 8).

(** ** [encoding/hex] *)

Module Hex.

Inductive DecodeError : Type :=
  | InvalidByteError (b : byte)
  | ErrLength.

(** The value of a hexadecimal digit, in either case. *)
Definition fromHexChar (c : byte) : option Z :=
  if Json.byte_in "0" c "9" then Some (byte.unsigned c - 48)
  else if Json.byte_in "a" c "f" then Some (byte.unsigned c - 97 + 10)
  else if Json.byte_in "A" c "F" then Some (byte.unsigned c - 65 + 10)
  else None.

(** [hex.Decode]: the bytes decoded before the first error, and the
    error.  An odd length is reported after an invalid last byte. *)
Fixpoint Decode (src : list byte) : list byte * option DecodeError :=
  match src with
  | [] => ([], None)
  | [p] =>
      match fromHexChar p with
      | None => ([], Some (InvalidByteError p))
      | Some _ => ([], Some ErrLength)
      end
  | p :: q :: src' =>
      match fromHexChar p, fromHexChar q with
      | None, _ => ([], Some (InvalidByteError p))
      | Some _, None => ([], Some (InvalidByteError q))
      | Some a, Some b =>
          let (dst, err) := Decode src' in
          (byte.of_Z (Z.lor (a ≪ 4) b) :: dst, err)
      end
  end.

(** [hex.DecodeString] *)
Definition DecodeString (s : string) : list byte * option DecodeError :=
  Decode (list_byte_of_string s).

(** The digit of [hextable] for a value below 16. *)
Definition hexdigit (v : Z) : byte :=
  if v <? 10 then byte.of_Z (48 + v) else byte.of_Z (97 + v - 10).

(** [hex.EncodeToString]: two lower-case digits per byte. *)
Fixpoint Encode (src : list byte) : list byte :=
  match src with
  | [] => []
  | v :: src' =>
      hexdigit (byte.unsigned v ≫ 4)
      :: hexdigit (Z.land (byte.unsigned v) 15) :: Encode src'
  end.

Definition EncodeToString (src : list byte) : string :=
  string_of_list_byte (Encode src).

End Hex.

(** [ConvertRequestID] converts the given string to request ID. *)
Definition ConvertRequestID (requestIDStr : string)
    : list byte * option error :=
  if decide (String.length requestIDStr ≠ 2 * RequestIDLen)%nat then
    ([], Some (errors_New "invalid request id"))
  else
    let (requestID, err) := Hex.DecodeString requestIDStr in
    match err with
    | Some _ => ([], Some (errors_New "invalid request id"))
    | None => (requestID, None)
    end.

(** The upper-case form of an ASCII letter, for the upper-case text of
    identifiers. *)
Definition upper (c : ascii) : ascii :=
  if (N_of_ascii "a" <=? N_of_ascii c)%N && (N_of_ascii c <=? N_of_ascii "z")%N
  then ascii_of_N (N_of_ascii c - 32) else c.

Definition upper_byte (b : byte) : byte :=
  byte_of_ascii (upper (ascii_of_byte b)).

Definition ValidateRequestID (reqID : list byte) : option error :=
  if decide (length reqID ≠ RequestIDLen) then
    Some (sdkerrors_Wrap ErrInvalidRequestID)
  else None.

Definition ValidateContextID (contextID : list byte) : option error :=
  if decide (length contextID ≠ ContextIDLen) then
    Some (sdkerrors_Wrap ErrInvalidRequestContextID)
  else None.

(** The order of [bytes.Compare]: [a] sorts strictly before [b]. *)
Fixpoint bytes_lt (a b : list byte) : Prop :=
  match a, b with
  | _, [] => False
  | [], _ :: _ => True
  | x :: a', y :: b' =>
      byte.unsigned x < byte.unsigned y
      \/ (byte.unsigned x = byte.unsigned y /\ bytes_lt a' b')
  end.

(** ** The states as text and as bytes ([types/invocation.go]) *)

#[global] Instance byte_eq_dec : EqDecision byte := Byte.byte_eq_dec.

#[global] Instance byte_countable : Countable byte :=
  inj_countable Byte.to_N Byte.of_N Byte.of_to_N.

Definition RequestContextStateToStringMap : gmap byte string :=
  {[ RUNNING := "running"; PAUSED := "paused"; COMPLETED := "completed" ]}.

Definition RequestContextBatchStateToStringMap : gmap byte string :=
  {[ BATCHRUNNING := "running"; BATCHCOMPLETED := "completed" ]}.

(** Indexing a Go map with a missing key gives the zero value. *)
Definition RequestContextState_String (state : RequestContextState)
    : string :=
  default EmptyString (RequestContextStateToStringMap !! state).

Definition RequestContextBatchState_String
    (state : RequestContextBatchState) : string :=
  default EmptyString (RequestContextBatchStateToStringMap !! state).

(** [Marshal], needed for protobuf compatibility. *)
Definition RequestContextState_Marshal (state : RequestContextState)
    : list byte * option error :=
  ([state], None).

(** [Unmarshal], needed for protobuf compatibility: the receiver
    afterwards and the error; [data[0]] panics on empty data. *)
Definition RequestContextState_Unmarshal (state : RequestContextState)
    (data : list byte) : option (RequestContextState * option error) :=
  first ← data !! 0%nat;
  Some (first, None).

Definition RequestContextBatchState_Marshal
    (state : RequestContextBatchState) : list byte * option error :=
  ([state], None).

Definition RequestContextBatchState_Unmarshal
    (state : RequestContextBatchState) (data : list byte)
    : option (RequestContextBatchState * option error) :=
  first ← data !! 0%nat;
  Some (first, None).

(** ** [encoding/json]: encoding a string *)

Module JsonEncode.

(** [htmlSafeSet]: the ASCII bytes written as they are.  The control
    characters, the quote, the backslash and the characters [& < >] are
    escaped. *)
Definition htmlSafe (b : byte) : bool :=
  (32 <=? Json.b2z b) && (Json.b2z b <? 128)
  && negb (Byte.eqb b "034") && negb (Byte.eqb b "\")
  && negb (Byte.eqb b "&") && negb (Byte.eqb b "<") && negb (Byte.eqb b ">").

Definition hex (v : Z) : byte := Hex.hexdigit v.

(** The escape of an ASCII byte outside [htmlSafeSet]. *)
Definition escape (b : byte) : list byte :=
  match b with
  | "\"%byte | "034"%byte => ["\"%byte; b]
  | "008"%byte => ["\"%byte; "b"%byte]
  | "012"%byte => ["\"%byte; "f"%byte]
  | "010"%byte => ["\"%byte; "n"%byte]
  | "013"%byte => ["\"%byte; "r"%byte]
  | "009"%byte => ["\"%byte; "t"%byte]
  | _ =>
      ["\"%byte; "u"%byte; "0"%byte; "0"%byte; hex (Json.b2z b ≫ 4);
       hex (Z.land (Json.b2z b) 15)]
  end.

(** The loop of [appendString] with [escapeHTML] set.  The Go loop
    advances by the width of the rune it has decoded; here [skip] counts
    the bytes of that rune still to pass over, which are copied when
    [copy] is set. *)
Fixpoint appendString_loop (src : list byte) (skip : nat) (copy : bool)
    : list byte :=
  match src with
  | [] => []
  | b :: src' =>
      match skip with
      | S skip' =>
          (if copy then [b] else []) ++ appendString_loop src' skip' copy
      | O =>
          if Json.b2z b <? 128 then
            if htmlSafe b then b :: appendString_loop src' 0 true
            else escape b ++ appendString_loop src' 0 true
          else
            let '(c, size) := Json.DecodeRune (take 4 src) in
            if (c =? Json.RuneError) && (size =? 1)%nat then
              list_byte_of_string "\ufffd" ++ appendString_loop src' 0 true
            else if (c =? 8232) || (c =? 8233) then
              list_byte_of_string "\u202" ++ [hex (Z.land c 15)]
              ++ appendString_loop src' (size - 1) false
            else b :: appendString_loop src' (size - 1) true
      end
  end.

Definition appendString (dst : list byte) (src : string) : list byte :=
  dst ++ ["034"%byte] ++ appendString_loop (list_byte_of_string src) 0 true
  ++ ["034"%byte].

(** [json.Marshal(s)] for a string [s]; it has no error. *)
Definition Marshal_string (s : string) : list byte * option error :=
  (appendString [] s, None).

End JsonEncode.

(** [MarshalJSON] marshals to JSON using string. *)
Definition RequestContextState_MarshalJSON (state : RequestContextState)
    : list byte * option error :=
  JsonEncode.Marshal_string (RequestContextState_String state).

Definition RequestContextBatchState_MarshalJSON
    (state : RequestContextBatchState) : list byte * option error :=
  JsonEncode.Marshal_string (RequestContextBatchState_String state).

(** ** More of the validators (the message file) *)

Definition MaxDescriptionLength : nat := 280.
Definition MaxTagsNum : nat := 10.
Definition MaxTagLength : nat := 70.

Definition ValidateAuthor (author : AccAddress) : option error :=
  if (length author =? 0)%nat then
    Some (sdkerrors_Wrap sdkerrors_ErrInvalidAddress)
  else None.

Definition ValidateProvider (provider : AccAddress) : option error :=
  if (length provider =? 0)%nat then
    Some (sdkerrors_Wrap sdkerrors_ErrInvalidAddress)
  else None.

Definition ValidateConsumer (consumer : AccAddress) : option error :=
  if (length consumer =? 0)%nat then
    Some (sdkerrors_Wrap sdkerrors_ErrInvalidAddress)
  else None.

Definition ValidateWithdrawAddress (withdrawAddress : AccAddress)
    : option error :=
  if (length withdrawAddress =? 0)%nat then
    Some (sdkerrors_Wrap sdkerrors_ErrInvalidAddress)
  else None.

(** The loop of [ValidateTags] over the tags. *)
Fixpoint ValidateTags_each (tags : list string) : option error :=
  match tags with
  | [] => None
  | tag :: tags' =>
      if (String.length tag =? 0)%nat then
        Some (sdkerrors_Wrap ErrInvalidTags)
      else if (MaxTagLength <? String.length tag)%nat then
        Some (sdkerrors_Wrap ErrInvalidTags)
      else ValidateTags_each tags'
  end.

Definition ValidateTags (tags : list string) : option error :=
  if (MaxTagsNum <? length tags)%nat then Some (sdkerrors_Wrap ErrInvalidTags)
  else if HasDuplicate tags then Some (sdkerrors_Wrap ErrInvalidTags)
  else ValidateTags_each tags.

Definition ValidateServiceDescription (svcDescription : string)
    : option error :=
  if (MaxDescriptionLength <? String.length svcDescription)%nat then
    Some (sdkerrors_Wrap ErrInvalidDescription)
  else None.

Definition ValidateAuthorDescription (authorDescription : string)
    : option error :=
  if (MaxDescriptionLength <? String.length authorDescription)%nat then
    Some (sdkerrors_Wrap ErrInvalidDescription)
  else None.

Definition ValidateMinRespTime (minRespTime : Z) : option error :=
  if minRespTime =? 0 then Some (sdkerrors_Wrap ErrInvalidMinRespTime)
  else None.

Section MoreValidation.

(** Of the Cosmos SDK: [Coins.IsValid], [Coins.IsAllPositive] and the
    Bech32 text of an address. *)
Variable Coins_IsValid : Coins → bool.
Variable Coins_IsAllPositive : Coins → bool.
Variable AccAddress_String : AccAddress → string.

Definition ValidateServiceDeposit (deposit : Coins) : option error :=
  if negb (Coins_IsAllPositive deposit) then
    Some (sdkerrors_Wrap sdkerrors_ErrInvalidCoins)
  else None.

Definition ValidateWithdrawAmount (amount : Coins) : option error :=
  if negb (Coins_IsValid amount) then
    Some (sdkerrors_Wrap sdkerrors_ErrInvalidRequest)
  else None.

(** [rc.Validate()] *)
Definition RequestContext_Validate (rc : RequestContext) : option error :=
  check ValidateServiceName (ServiceName rc) in
  check ValidateProvidersNoEmpty AccAddress_String (Providers rc) in
  check ValidateConsumer (Consumer rc) in
  check ValidateInput (Input rc) in
  check ValidateServiceFeeCap Coins_IsValid (ServiceFeeCap rc) in
  None.

End MoreValidation.

(** [Result] defines a struct for the response result. *)
Record Result : Type := mkResult { Code : Z; Message : string }.

Section ParseResult.

(** [json.Unmarshal(data, &r)] for a [Result] holding [r]: the struct
    afterwards and the error. *)
Variable json_Unmarshal_Result :
  list byte → Result → Result * option Json.UnmarshalError.

(** [ParseResult] parses the given string to Result. *)
Definition ParseResult (result : string) : Result * option error :=
  let r := mkResult 0 EmptyString in
  let (r, err) := json_Unmarshal_Result (list_byte_of_string result) r in
  match err with
  | Some _ => (r, Some (sdkerrors_Wrap ErrInvalidResponseResult))
  | None => (r, None)
  end.

End ParseResult.

(** ** The messages

    Each message is a module with its struct, [ValidateBasic] and
    [GetSigners].  The validators of the binding pricing, of the service
    schemas and of the response result are in files that are not among
    the sources; the messages that call them take them as parameters. *)

Module MsgDefineService.

Record t : Type := mk {
  Name : string;
  Description : string;
  Tags : list string;
  Author : AccAddress;
  AuthorDescription : string;
  Schemas : string
}.

Definition ValidateBasic (ValidateServiceSchemas : string → option error)
    (msg : t) : option error :=
  check ValidateAuthor (Author msg) in
  check ValidateServiceName (Name msg) in
  check ValidateServiceDescription (Description msg) in
  check ValidateAuthorDescription (AuthorDescription msg) in
  check ValidateTags (Tags msg) in
  check ValidateServiceSchemas (Schemas msg) in
  None.

Definition GetSigners (msg : t) : list AccAddress := [Author msg].

End MsgDefineService.

Module MsgBindService.

Record t : Type := mk {
  ServiceName : string;
  Provider : AccAddress;
  Deposit : Coins;
  Pricing : string;
  MinRespTime : Z
}.

Definition ValidateBasic (Coins_IsAllPositive : Coins → bool)
    (ValidateBindingPricing : string → option error) (msg : t)
    : option error :=
  check ValidateProvider (Provider msg) in
  check ValidateServiceName (ServiceName msg) in
  check ValidateServiceDeposit Coins_IsAllPositive (Deposit msg) in
  check ValidateMinRespTime (MinRespTime msg) in
  ValidateBindingPricing (Pricing msg).

Definition GetSigners (msg : t) : list AccAddress := [Provider msg].

End MsgBindService.

Module MsgUpdateServiceBinding.

Record t : Type := mk {
  ServiceName : string;
  Provider : AccAddress;
  Deposit : Coins;
  Pricing : string;
  MinRespTime : Z
}.

Definition ValidateBasic (Coins_IsAllPositive : Coins → bool)
    (ValidateBindingPricing : string → option error) (msg : t)
    : option error :=
  check ValidateProvider (Provider msg) in
  check ValidateServiceName (ServiceName msg) in
  check (if negb (Coins_Empty (Deposit msg)) then
           ValidateServiceDeposit Coins_IsAllPositive (Deposit msg)
         else None) in
  if negb (String.length (Pricing msg) =? 0)%nat then
    ValidateBindingPricing (Pricing msg)
  else None.

Definition GetSigners (msg : t) : list AccAddress := [Provider msg].

End MsgUpdateServiceBinding.

Module MsgSetWithdrawAddress.

Record t : Type := mk {
  Provider : AccAddress;
  WithdrawAddress : AccAddress
}.

Definition ValidateBasic (msg : t) : option error :=
  check ValidateProvider (Provider msg) in
  ValidateWithdrawAddress (WithdrawAddress msg).

Definition GetSigners (msg : t) : list AccAddress := [Provider msg].

End MsgSetWithdrawAddress.

Module MsgDisableServiceBinding.

Record t : Type := mk { ServiceName : string; Provider : AccAddress }.

Definition ValidateBasic (msg : t) : option error :=
  check ValidateProvider (Provider msg) in
  ValidateServiceName (ServiceName msg).

Definition GetSigners (msg : t) : list AccAddress := [Provider msg].

End MsgDisableServiceBinding.

Module MsgEnableServiceBinding.

Record t : Type := mk {
  ServiceName : string;
  Provider : AccAddress;
  Deposit : Coins
}.

Definition ValidateBasic (Coins_IsAllPositive : Coins → bool) (msg : t)
    : option error :=
  check ValidateProvider (Provider msg) in
  check ValidateServiceName (ServiceName msg) in
  check (if negb (Coins_Empty (Deposit msg)) then
           ValidateServiceDeposit Coins_IsAllPositive (Deposit msg)
         else None) in
  None.

Definition GetSigners (msg : t) : list AccAddress := [Provider msg].

End MsgEnableServiceBinding.

Module MsgRefundServiceDeposit.

Record t : Type := mk { ServiceName : string; Provider : AccAddress }.

Definition ValidateBasic (msg : t) : option error :=
  check ValidateProvider (Provider msg) in
  ValidateServiceName (ServiceName msg).

Definition GetSigners (msg : t) : list AccAddress := [Provider msg].

End MsgRefundServiceDeposit.

Module MsgCallService.

Record t : Type := mk {
  ServiceName : string;
  Providers : list AccAddress;
  Consumer : AccAddress;
  Input : string;
  ServiceFeeCap : Coins;
  Timeout : Z;
  SuperMode : bool;
  Repeated : bool;
  RepeatedFrequency : Z;
  RepeatedTotal : Z
}.

Definition ValidateBasic (Coins_IsValid : Coins → bool)
    (AccAddress_String : AccAddress → string) (msg : t) : option error :=
  check ValidateConsumer (Consumer msg) in
  ValidateRequest Coins_IsValid AccAddress_String (ServiceName msg)
    (ServiceFeeCap msg) (Providers msg) (Input msg) (Timeout msg)
    (Repeated msg) (RepeatedFrequency msg) (RepeatedTotal msg).

Definition GetSigners (msg : t) : list AccAddress := [Consumer msg].

End MsgCallService.

Module MsgRespondService.

Section WithDecoders.

Variable ValidateResponseResult : string → option error.

Variable json_Unmarshal_Result :
  list byte → Result → Result * option Json.UnmarshalError.

Record t : Type := mk {
  RequestID : list byte;
  Provider : AccAddress;
  Result : string;
  Output : string
}.

Definition ValidateBasic (msg : t) : option error :=
  check ValidateProvider (Provider msg) in
  check ValidateRequestID (RequestID msg) in
  check ValidateResponseResult (Result msg) in
  let (result, err) := ParseResult json_Unmarshal_Result (Result msg) in
  check err in
  ValidateOutput (Code result) (Output msg).

Definition GetSigners (msg : t) : list AccAddress := [Provider msg].

End WithDecoders.

End MsgRespondService.

Module MsgPauseRequestContext.

Record t : Type := mk {
  RequestContextID : list byte;
  Consumer : AccAddress
}.

Definition ValidateBasic (msg : t) : option error :=
  check ValidateConsumer (Consumer msg) in
  ValidateContextID (RequestContextID msg).

Definition GetSigners (msg : t) : list AccAddress := [Consumer msg].

End MsgPauseRequestContext.

Module MsgStartRequestContext.

Record t : Type := mk {
  RequestContextID : list byte;
  Consumer : AccAddress
}.

Definition ValidateBasic (msg : t) : option error :=
  check ValidateConsumer (Consumer msg) in
  ValidateContextID (RequestContextID msg).

Definition GetSigners (msg : t) : list AccAddress := [Consumer msg].

End MsgStartRequestContext.

Module MsgKillRequestContext.

Record t : Type := mk {
  RequestContextID : list byte;
  Consumer : AccAddress
}.

Definition ValidateBasic (msg : t) : option error :=
  check ValidateConsumer (Consumer msg) in
  ValidateContextID (RequestContextID msg).

Definition GetSigners (msg : t) : list AccAddress := [Consumer msg].

End MsgKillRequestContext.

Module MsgUpdateRequestContext.

Record t : Type := mk {
  RequestContextID : list byte;
  Providers : list AccAddress;
  ServiceFeeCap : Coins;
  Timeout : Z;
  RepeatedFrequency : Z;
  RepeatedTotal : Z;
  Consumer : AccAddress
}.

Definition ValidateBasic (Coins_IsValid : Coins → bool)
    (AccAddress_String : AccAddress → string) (msg : t) : option error :=
  check ValidateConsumer (Consumer msg) in
  check ValidateContextID (RequestContextID msg) in
  ValidateRequestContextUpdating Coins_IsValid AccAddress_String
    (Providers msg) (ServiceFeeCap msg) (Timeout msg)
    (RepeatedFrequency msg) (RepeatedTotal msg).

Definition GetSigners (msg : t) : list AccAddress := [Consumer msg].

End MsgUpdateRequestContext.

Module MsgWithdrawEarnedFees.

Record t : Type := mk { Provider : AccAddress }.

Definition ValidateBasic (msg : t) : option error :=
  ValidateProvider (Provider msg).

Definition GetSigners (msg : t) : list AccAddress := [Provider msg].

End MsgWithdrawEarnedFees.

(** * Properties *)

(** ** Integer conversions *)

Section GoIntFacts.

Lemma uint64_range x : is_uint64 (uint64 x).
Proof. unfold is_uint64, uint64. apply Z.mod_pos_bound. lia. Qed.

Lemma uint16_range x : is_uint16 (uint16 x).
Proof. unfold is_uint16, uint16. apply Z.mod_pos_bound. lia. Qed.

Lemma uint64_small x : is_uint64 x -> uint64 x = x.
Proof. unfold is_uint64, uint64. intros. apply Z.mod_small. lia. Qed.

Lemma int64_uint64 x : is_int64 x -> int64 (uint64 x) = x.
Proof.
  unfold is_int64, int64, uint64. intros Hx.
  rewrite Zplus_mod_idemp_l.
  rewrite Z.mod_small; lia.
Qed.

Lemma int16_uint16 x : is_int16 x -> int16 (uint16 x) = x.
Proof.
  unfold is_int16, int16, uint16. intros Hx.
  rewrite Zplus_mod_idemp_l.
  rewrite Z.mod_small; lia.
Qed.

End GoIntFacts.

(** ** Big-endian encoding and decoding *)

Section BigEndianFacts.

Import BigEndian.

Lemma u_byte_of v : u (byte_of v) = v mod 2 ^ 8.
Proof. apply byte.unsigned_of_Z. Qed.

(** The bits of the byte cut out of [v] at offset [k], put back at [k]. *)
Lemma testbit_byte_at v k n :
  0 <= k -> 0 <= n ->
  Z.testbit (((v ≫ k) mod 2 ^ 8) ≪ k) n
  = (k <=? n) && (n <? k + 8) && Z.testbit v n.
Proof.
  intros Hk Hn.
  rewrite Z.shiftl_spec by lia.
  destruct (Z.leb_spec k n).
  - rewrite Z.testbit_mod_pow2 by lia.
    rewrite Z.shiftr_spec by lia.
    replace (n - k + k) with n by lia.
    destruct (Z.ltb_spec (n - k) 8), (Z.ltb_spec n (k + 8)); try lia; reflexivity.
  - rewrite Z.testbit_neg_r by lia. reflexivity.
Qed.

Lemma testbit_high v w n : 0 <= v < 2 ^ w -> 0 <= w <= n -> Z.testbit v n = false.
Proof.
  intros Hv Hn.
  rewrite <- (Z.mod_small v (2 ^ w)) by lia.
  apply Z.mod_pow2_bits_high. lia.
Qed.

Ltac split_bit_index :=
  repeat match goal with
    | |- context [?a <=? ?b] => destruct (Z.leb_spec a b); try lia
    | |- context [?a <? ?b] => destruct (Z.ltb_spec a b); try lia
    end;
  simpl; rewrite ?orb_false_r; try reflexivity.

Lemma recombine64 v :
  is_uint64 v ->
  Z.lor (v mod 2 ^ 8) (Z.lor (((v ≫ 8) mod 2 ^ 8) ≪ 8)
    (Z.lor (((v ≫ 16) mod 2 ^ 8) ≪ 16) (Z.lor (((v ≫ 24) mod 2 ^ 8) ≪ 24)
    (Z.lor (((v ≫ 32) mod 2 ^ 8) ≪ 32) (Z.lor (((v ≫ 40) mod 2 ^ 8) ≪ 40)
    (Z.lor (((v ≫ 48) mod 2 ^ 8) ≪ 48) (((v ≫ 56) mod 2 ^ 8) ≪ 56)))))))
  = v.
Proof.
  unfold is_uint64. intros Hv.
  apply Z.bits_inj'. intros n Hn.
  change (v mod 2 ^ 8) with (((v ≫ 0) mod 2 ^ 8) ≪ 0) at 1.
  rewrite !Z.lor_spec, !testbit_byte_at by lia.
  destruct (Z.ltb_spec n 64) as [Hlt|Hge].
  - split_bit_index.
  - rewrite (testbit_high v 64 n) by lia.
    rewrite !andb_false_r. reflexivity.
Qed.

Lemma recombine16 v :
  is_uint16 v ->
  Z.lor (v mod 2 ^ 8) (((v ≫ 8) mod 2 ^ 8) ≪ 8) = v.
Proof.
  unfold is_uint16. intros Hv.
  apply Z.bits_inj'. intros n Hn.
  change (v mod 2 ^ 8) with (((v ≫ 0) mod 2 ^ 8) ≪ 0) at 1.
  rewrite !Z.lor_spec, !testbit_byte_at by lia.
  destruct (Z.ltb_spec n 16) as [Hlt|Hge].
  - split_bit_index.
  - rewrite (testbit_high v 16 n) by lia.
    rewrite !andb_false_r. reflexivity.
Qed.

Lemma PutUint64_long b v :
  (8 ≤ length b)%nat -> PutUint64 b v = Some (bytes64 v ++ drop 8 b).
Proof.
  intros Hb.
  do 8 (destruct b as [|? b]; [simpl in Hb; lia|]).
  reflexivity.
Qed.

Lemma PutUint16_long b v :
  (2 ≤ length b)%nat -> PutUint16 b v = Some (bytes16 v ++ drop 2 b).
Proof.
  intros Hb.
  do 2 (destruct b as [|? b]; [simpl in Hb; lia|]).
  reflexivity.
Qed.

Lemma Uint64_bytes64 v :
  is_uint64 v -> Uint64 (bytes64 v) = Some v.
Proof.
  intros Hv. unfold Uint64, bytes64. simpl.
  rewrite !u_byte_of. f_equal. apply recombine64, Hv.
Qed.

Lemma Uint16_bytes16 v :
  is_uint16 v -> Uint16 (bytes16 v) = Some v.
Proof.
  intros Hv. unfold Uint16, bytes16. simpl.
  rewrite !u_byte_of. f_equal. apply recombine16, Hv.
Qed.

End BigEndianFacts.

(** ** The identifier codec *)

Section Identifiers.

Import BigEndian.

Ltac bind_some := cbn [mbind option_bind].

Lemma slice_app_l (a b : list byte) n :
  length a = n -> Slice.slice (a ++ b) 0 n = Some a.
Proof.
  intros <-. unfold Slice.slice.
  rewrite decide_True by (rewrite length_app; lia).
  rewrite Nat.sub_0_r, drop_0, take_app_length. reflexivity.
Qed.

Lemma slice_app_r (a b c : list byte) lo hi :
  length a = lo -> (lo + length b)%nat = hi ->
  Slice.slice (a ++ b ++ c) lo hi = Some b.
Proof.
  intros <- <-. unfold Slice.slice.
  rewrite decide_True by (rewrite !length_app; lia).
  rewrite drop_app_length.
  replace (length a + length b - length a)%nat with (length b) by lia.
  rewrite take_app_length. reflexivity.
Qed.

Lemma slice_app_end (a b : list byte) lo hi :
  length a = lo -> (lo + length b)%nat = hi ->
  Slice.slice (a ++ b) lo hi = Some b.
Proof.
  intros Ha Hb. rewrite <- (slice_app_r a b [] lo hi Ha Hb).
  rewrite app_nil_r. reflexivity.
Qed.

Lemma slice_from_app (a b : list byte) lo :
  length a = lo -> Slice.slice_from (a ++ b) lo = Some b.
Proof.
  intros <-. unfold Slice.slice_from, Slice.slice.
  rewrite decide_True by (rewrite !length_app; lia).
  rewrite drop_app_length, length_app.
  replace (length a + length b - length a)%nat with (length b) by lia.
  apply f_equal, take_ge. lia.
Qed.

Lemma copy_make (src : list byte) :
  Slice.copy (Slice.make (length src)) src = src.
Proof.
  unfold Slice.copy, Slice.make.
  rewrite length_replicate, take_ge, drop_ge, app_nil_r
    by (rewrite ?length_replicate; lia).
  reflexivity.
Qed.

(** The identifiers as concatenations of their fields. *)
Lemma GenerateRequestContextID_bytes txHash msgIndex :
  GenerateRequestContextID txHash msgIndex
  = Some (txHash ++ bytes64 (uint64 msgIndex)).
Proof. reflexivity. Qed.

Lemma GenerateRequestID_bytes c b ht idx :
  GenerateRequestID c b ht idx
  = Some (c ++ bytes64 b ++ bytes64 (uint64 ht) ++ bytes16 (uint16 idx)).
Proof.
  unfold GenerateRequestID. rewrite copy_make. reflexivity.
Qed.

Lemma SplitRequestContextID_bytes h v :
  length h = 32%nat -> is_uint64 v ->
  SplitRequestContextID (h ++ bytes64 v) = Some (h, int64 v, None).
Proof.
  intros Hh Hv. unfold SplitRequestContextID, ContextIDLen.
  rewrite decide_False by (rewrite length_app, Hh; simpl; lia).
  rewrite slice_app_l by done. bind_some.
  rewrite slice_app_end by (simpl; lia). bind_some.
  rewrite Uint64_bytes64 by done.
  reflexivity.
Qed.

Lemma SplitRequestID_bytes c b h i :
  length c = 40%nat -> is_uint64 b -> is_uint64 h -> is_uint16 i ->
  SplitRequestID (c ++ bytes64 b ++ bytes64 h ++ bytes16 i)
  = Some (c, b, int64 h, int16 i, None).
Proof.
  intros Hc Hb Hh Hi. unfold SplitRequestID, RequestIDLen.
  rewrite decide_False by (rewrite length_app, Hc; simpl; lia).
  rewrite (slice_app_l c _ 40) by done. bind_some.
  rewrite (slice_app_r c (bytes64 b) _ 40 48) by (simpl; lia). bind_some.
  rewrite Uint64_bytes64 by done. bind_some.
  rewrite (app_assoc c (bytes64 b)).
  rewrite (slice_app_r (c ++ bytes64 b) (bytes64 h) _ 48 56)
    by (rewrite ?length_app; simpl; lia).
  bind_some.
  rewrite Uint64_bytes64 by done. bind_some.
  rewrite (app_assoc (c ++ bytes64 b)).
  rewrite (slice_from_app _ (bytes16 i) 56)
    by (rewrite ?length_app; simpl; lia).
  bind_some.
  rewrite Uint16_bytes16 by done.
  reflexivity.
Qed.

End Identifiers.

(** ** The pattern of service names *)

Section ServiceNamePattern.

Import Regexp.

Lemma in_range_between c lo hi :
  in_range c (lo, hi) = true <-> Spec.between lo c hi.
Proof.
  unfold in_range, Spec.between. simpl.
  rewrite andb_true_iff, !N.leb_le. reflexivity.
Qed.

Lemma between_same c x : Spec.between x c x <-> c = x.
Proof.
  unfold Spec.between. split.
  - intros H. rewrite <- (ascii_N_embedding c), <- (ascii_N_embedding x).
    f_equal. lia.
  - intros ->. lia.
Qed.

Lemma in_class_letters c : in_class letters c = true <-> Spec.letter c.
Proof.
  unfold in_class, letters, Spec.letter. simpl.
  rewrite !orb_true_iff, !in_range_between. intuition discriminate.
Qed.

Lemma in_class_name_chars c :
  in_class name_chars c = true <-> Spec.name_char c.
Proof.
  unfold in_class, name_chars, Spec.name_char, Spec.letter. simpl.
  rewrite !orb_true_iff, !in_range_between, !between_same.
  intuition discriminate.
Qed.

Lemma all_name_chars_spec s :
  Strings.all (in_class name_chars) s = true <-> Spec.all_name_chars s.
Proof.
  induction s as [|c s IH]; cbn [Strings.all].
  - split; [constructor|reflexivity].
  - rewrite andb_true_iff, IH, in_class_name_chars. split.
    + intros [? ?]. constructor; assumption.
    + inversion 1; subst. split; assumption.
Qed.

(** The star of a class, followed by the end of the text, accepts the
    subjects made of characters of the class. *)
Lemma run_star_class_end ranges b s :
  run (Star (CharClass ranges)) b s (λ b' s', run EndText b' s' (λ _ _, true))
  = Strings.all (in_class ranges) s.
Proof.
  revert b. induction s as [|c s IH]; intros b.
  - reflexivity.
  - specialize (IH false). simpl in IH. simpl.
    destruct (in_class ranges c); [|reflexivity]. simpl.
    rewrite <- IH.
    replace (String.length s <? S (String.length s))%nat with true
      by (symmetry; apply Nat.ltb_lt; lia).
    reflexivity.
Qed.

Lemma run_reServiceName b s :
  run reServiceName b s (λ _ _, true)
  = b && match s with
         | String c s' =>
             in_class letters c && Strings.all (in_class name_chars) s'
         | EmptyString => false
         end.
Proof.
  unfold reServiceName.
  cbn [run]. destruct b; [|reflexivity]. cbn [andb].
  destruct s as [|c s]; [reflexivity|].
  fold letters name_chars.
  destruct (in_class letters c); [|reflexivity]. cbn [andb].
  apply (run_star_class_end name_chars false s).
Qed.

Lemma search_reServiceName_inside s : search reServiceName false s = false.
Proof.
  induction s as [|c s IH]; cbn [search]; rewrite run_reServiceName;
    [reflexivity|]. exact IH.
Qed.

Lemma MatchString_reServiceName name :
  MatchString reServiceName name = true
  <-> Spec.matches_service_name_pattern name.
Proof.
  unfold MatchString, Spec.matches_service_name_pattern.
  destruct name as [|c rest]; cbn [search];
    rewrite run_reServiceName; cbn [andb orb].
  - split; [discriminate|]. intros (? & ? & [=] & _).
  - rewrite search_reServiceName_inside, orb_false_r, andb_true_iff.
    rewrite in_class_letters, all_name_chars_spec. split.
    + intros [? ?]. eauto.
    + intros (? & ? & [= -> ->] & ? & ?). auto.
Qed.

End ServiceNamePattern.

(** ** Validation *)

Section ValidationFacts.

Lemma existsb_eqb_In (x : string) (l : list string) :
  existsb (String.eqb x) l = true <-> In x l.
Proof.
  rewrite existsb_exists. split.
  - intros (y & Hy & Heq). apply String.eqb_eq in Heq. subst. exact Hy.
  - intros Hx. exists x. split; [exact Hx|apply String.eqb_refl].
Qed.

Lemma HasDuplicate_false (arr : list string) :
  HasDuplicate arr = false <-> List.NoDup arr.
Proof.
  induction arr as [|x arr IH]; simpl.
  - split; [constructor|reflexivity].
  - rewrite orb_false_iff, IH. split.
    + intros [Hx Hnd]. constructor; [|exact Hnd].
      intros Hin. apply existsb_eqb_In in Hin. congruence.
    + inversion 1 as [|? ? Hx Hnd]; subst. split; [|exact Hnd].
      destruct (existsb (String.eqb x) arr) eqn:E; [|reflexivity].
      apply existsb_eqb_In in E. contradiction.
Qed.

Lemma NoDup_map_inj {A B} (f : A → B) (l : list A) :
  (forall a b, f a = f b -> a = b) ->
  List.NoDup (List.map f l) <-> List.NoDup l.
Proof.
  intros Hinj. split.
  - apply List.NoDup_map_inv.
  - induction 1 as [|x l Hx Hnd IH]; simpl; constructor; [|exact IH].
    rewrite in_map_iff. intros (y & Hy & Hin).
    apply Hinj in Hy. subst. contradiction.
Qed.

Variable Coins_IsValid : Coins → bool.
Variable AccAddress_String : AccAddress → string.

Lemma checkDuplicateProviders_nil providers :
  checkDuplicateProviders AccAddress_String providers = None
  <-> List.NoDup (List.map AccAddress_String providers).
Proof.
  unfold checkDuplicateProviders. rewrite <- HasDuplicate_false.
  destruct (HasDuplicate _); split; congruence.
Qed.

Lemma ValidateProvidersCanEmpty_nil providers :
  ValidateProvidersCanEmpty AccAddress_String providers = None
  <-> (length providers <= 10)%nat
      /\ List.NoDup (List.map AccAddress_String providers).
Proof.
  unfold ValidateProvidersCanEmpty, MaxProvidersNum, or_else.
  destruct (Nat.ltb_spec 10 (length providers)) as [Hlen|Hlen].
  - split; [discriminate|]. intros [? _]. lia.
  - destruct (Nat.ltb_spec 0 (length providers)) as [Hpos|Hzero].
    + pose proof (checkDuplicateProviders_nil providers) as Hdup.
      destruct (checkDuplicateProviders _ _).
      * split; [discriminate|]. intros [_ Hnd]. apply Hdup in Hnd.
        discriminate.
      * split; [|reflexivity]. intros _. split; [lia|]. apply Hdup.
        reflexivity.
    + destruct providers; [|simpl in Hzero; lia].
      split; [|reflexivity]. intros _. split; [simpl; lia|constructor].
Qed.

Lemma fee_cap_check_nil serviceFeeCap :
  (if negb (Coins_Empty serviceFeeCap) then
     ValidateServiceFeeCap Coins_IsValid serviceFeeCap
   else None) = None
  <-> serviceFeeCap = [] \/ Coins_IsValid serviceFeeCap = true.
Proof.
  unfold Coins_Empty, ValidateServiceFeeCap.
  destruct serviceFeeCap as [|c cs]; simpl.
  - split; auto.
  - destruct (Coins_IsValid (c :: cs)); simpl.
    + split; auto.
    + split; [discriminate|]. intros [?|?]; discriminate.
Qed.

End ValidationFacts.

(** ** Decoding JSON into a string *)

Section JsonFacts.

Import Json.

(** What the first significant byte of a valid text may be, with the
    scan code it produces. *)
Lemma stateBeginValue_first c :
  isSpace c = false ->
  snd (stateBeginValue start c) <> scanError ->
  (c = "{"%byte /\ snd (stateBeginValue start c) = scanBeginObject)
  \/ (c = "["%byte /\ snd (stateBeginValue start c) = scanBeginArray)
  \/ (snd (stateBeginValue start c) = scanBeginLiteral
      /\ (c = "034"%byte \/ c = "n"%byte \/ c = "t"%byte \/ c = "f"%byte
          \/ c = "-"%byte \/ isDigit c = true)).
Proof.
  destruct c; vm_compute; intros Hsp Herr;
    first [discriminate Hsp | exfalso; apply Herr; reflexivity | tauto].
Qed.

Lemma stateBeginValue_space c :
  isSpace c = true -> stateBeginValue start c = (start, scanSkipSpace).
Proof. unfold stateBeginValue. intros ->. reflexivity. Qed.

Lemma stateBeginValue_not_skip c :
  isSpace c = false -> snd (stateBeginValue start c) <> scanSkipSpace.
Proof. destruct c; vm_compute; congruence. Qed.

(** A valid text has a first significant byte; the decoder's
    [scanWhile] stops at it with the code of [stateBeginValue]. *)
Lemma valid_first_significant data :
  snd (checkValid_loop data start) = None ->
  exists c rest,
    Spec.first_significant data = Some c
    /\ isSpace c = false
    /\ snd (stateBeginValue start c) <> scanError
    /\ scanWhile start data scanSkipSpace
       = (snd (stateBeginValue start c), c :: rest)
    /\ snd (checkValid_loop rest (fst (stateBeginValue start c))) = None.
Proof.
  induction data as [|c data IH]; intros Hvalid.
  - vm_compute in Hvalid. discriminate.
  - cbn [checkValid_loop scanWhile Spec.first_significant] in *.
    change (do_step start c) with (stateBeginValue start c) in *.
    destruct (isSpace c) eqn:Hsp.
    + rewrite (stateBeginValue_space c Hsp) in *. cbn [is_scanError] in Hvalid.
      rewrite decide_True by reflexivity. apply IH, Hvalid.
    + pose proof (stateBeginValue_not_skip c Hsp) as Hskip.
      destruct (stateBeginValue start c) as [s' op] eqn:Hstep.
      cbn [snd] in *. rewrite decide_False by exact Hskip.
      exists c, data. rewrite Hstep. cbn [snd].
      split; [reflexivity|]. split; [exact Hsp|].
      assert (Hop : op <> scanError).
      { intros ->. cbn [is_scanError snd] in Hvalid.
        destruct c; vm_compute in Hstep;
          first [discriminate Hsp | discriminate Hstep
                | injection Hstep as <-; discriminate Hvalid]. }
      split; [exact Hop|]. split; [reflexivity|].
      cbn [fst]. destruct op; try exact Hvalid. contradiction.
Qed.

Lemma Valid_checkValid_loop data :
  Valid data = true <-> snd (checkValid_loop data start) = None.
Proof.
  unfold Valid, checkValid. fold start.
  destruct (snd (checkValid_loop data start)); split; congruence.
Qed.

Lemma Unmarshal_string_invalid data s :
  Valid data = false ->
  exists msg, Unmarshal_string data s = Some (s, Some (SyntaxError msg)).
Proof.
  unfold Valid, Unmarshal_string.
  destruct (snd (checkValid data newScanner)) as [msg|]; [|discriminate].
  intros _. exists msg. reflexivity.
Qed.

(** The three ways of a valid text: a string is unquoted, [null] leaves
    the variable as it is, any other value is a type error. *)
Lemma Unmarshal_string_valid data s :
  Valid data = true ->
  exists c rest,
    Spec.first_significant data = Some c
    /\ ((c = "034"%byte
         /\ snd (checkValid_loop rest (set_step start StInString)) = None
         /\ Unmarshal_string data s
            = (t ← unquoteBytes (c :: rescanString rest false);
               Some (string_of_list_byte t, None)))
        \/ (c = "n"%byte /\ Unmarshal_string data s = Some (s, None))
        \/ (c <> "034"%byte /\ c <> "n"%byte
            /\ exists v,
                 Unmarshal_string data s
                 = Some (s, Some (UnmarshalTypeError v)))).
Proof.
  intros Hvalid. pose proof Hvalid as Hloop.
  apply Valid_checkValid_loop in Hloop.
  destruct (valid_first_significant data Hloop)
    as (c & rest & Hfirst & Hsp & Hop & Hscan & Hrest).
  exists c, rest. split; [exact Hfirst|].
  unfold Unmarshal_string.
  unfold Valid in Hvalid.
  destruct (snd (checkValid data newScanner)); [discriminate|].
  fold start. rewrite Hscan.
  destruct (stateBeginValue_first c Hsp Hop)
    as [[-> ->]|[[-> ->]|[-> Hc]]].
  - right; right. repeat split; try discriminate. eexists; reflexivity.
  - right; right. repeat split; try discriminate. eexists; reflexivity.
  - destruct Hc as [->|[->|[->|[->|[->|Hdigit]]]]].
    + left. split; [reflexivity|]. split; [exact Hrest|]. reflexivity.
    + right; left. split; reflexivity.
    + right; right. repeat split; try discriminate. eexists; reflexivity.
    + right; right. repeat split; try discriminate. eexists; reflexivity.
    + right; right. repeat split; try discriminate. eexists; reflexivity.
    + right; right.
      destruct c; try discriminate Hdigit;
        (repeat split; try discriminate; eexists; reflexivity).
Qed.

(** *** String literals: what the scanner accepts can be unquoted *)

(** The scanner inside a top-level string literal. *)
Local Abbreviation inside st := (mkScanner st false [] None).

Lemma stateInStringEsc_cases s e :
  stateInStringEsc s e
  = if Spec.simple_escape e then (set_step s StInString, scanContinue)
    else if Byte.eqb e "u" then (set_step s StInStringEscU, scanContinue)
    else error s "in string escape code".
Proof. destruct e; reflexivity. Qed.

Lemma isHex_plain h :
  isHex h = true -> Byte.eqb h "034" = false /\ Byte.eqb h "\" = false.
Proof. destruct h; vm_compute; intros; first [discriminate | split; reflexivity]. Qed.

Lemma simple_escape_not_u e : Spec.simple_escape e = true -> Byte.eqb e "u" = false.
Proof. destruct e; vm_compute; intros; first [discriminate | reflexivity]. Qed.

(** A step of the validity loop through a state of a [\u] escape. *)
Lemma checkValid_hex s after h data :
  snd (let (s', op) := stateInStringEscHex after s h in
       if is_scanError op then (s', err s') else checkValid_loop data s')
  = None ->
  isHex h = true /\ snd (checkValid_loop data (set_step s after)) = None.
Proof.
  unfold stateInStringEscHex.
  destruct (isHex h); [intros Hvalid; split; [reflexivity|exact Hvalid]|].
  discriminate.
Qed.

Ltac scanner_step H :=
  unfold set_step in H;
  cbn [step endTop parseState err is_scanError checkValid_loop do_step] in H.

Lemma scan_string_body n : forall rest,
  (length rest <= n)%nat ->
  snd (checkValid_loop rest (inside StInString)) = None ->
  exists body,
    rescanString rest false = body ++ ["034"%byte] /\ Spec.string_body body.
Proof.
  induction n as [|n IH]; intros rest Hlen Hvalid.
  { destruct rest; [vm_compute in Hvalid; discriminate|simpl in Hlen; lia]. }
  destruct rest as [|c r1]; [vm_compute in Hvalid; discriminate|].
  scanner_step Hvalid. unfold stateInString in Hvalid.
  cbn [rescanString].
  destruct (Byte.eqb c "034") eqn:Hquote.
  { apply Byte.byte_dec_bl in Hquote. subst c.
    exists []. split; [reflexivity|constructor]. }
  destruct (Byte.eqb c "\") eqn:Hbackslash.
  - apply Byte.byte_dec_bl in Hbackslash. subst c.
    scanner_step Hvalid.
    destruct r1 as [|e r2]; [vm_compute in Hvalid; discriminate|].
    scanner_step Hvalid.
    rewrite stateInStringEsc_cases in Hvalid.
    cbn [rescanString].
    destruct (Spec.simple_escape e) eqn:Hsimple.
    + scanner_step Hvalid.
      destruct (IH r2) as (body & Hbody & Hwf);
        [simpl in Hlen; lia|exact Hvalid|].
      exists ("\"%byte :: e :: body). rewrite Hbody.
      split; [reflexivity|]. constructor; assumption.
    + destruct (Byte.eqb e "u") eqn:Hu; [|discriminate Hvalid].
      apply Byte.byte_dec_bl in Hu. subst e.
      scanner_step Hvalid.
      destruct r2 as [|h1 r3]; [vm_compute in Hvalid; discriminate|].
      scanner_step Hvalid.
      apply checkValid_hex in Hvalid as [Hh1 Hvalid].
      destruct r3 as [|h2 r4]; [vm_compute in Hvalid; discriminate|].
      scanner_step Hvalid.
      apply checkValid_hex in Hvalid as [Hh2 Hvalid].
      destruct r4 as [|h3 r5]; [vm_compute in Hvalid; discriminate|].
      scanner_step Hvalid.
      apply checkValid_hex in Hvalid as [Hh3 Hvalid].
      destruct r5 as [|h4 r6]; [vm_compute in Hvalid; discriminate|].
      scanner_step Hvalid.
      apply checkValid_hex in Hvalid as [Hh4 Hvalid].
      scanner_step Hvalid.
      destruct (IH r6) as (body & Hbody & Hwf);
        [simpl in Hlen; lia|exact Hvalid|].
      exists ("\"%byte :: "u"%byte :: h1 :: h2 :: h3 :: h4 :: body).
      cbn [rescanString].
      destruct (isHex_plain h1 Hh1) as [-> ->].
      destruct (isHex_plain h2 Hh2) as [-> ->].
      destruct (isHex_plain h3 Hh3) as [-> ->].
      destruct (isHex_plain h4 Hh4) as [-> ->].
      rewrite Hbody. split; [reflexivity|]. constructor; assumption.
  - destruct (Byte.to_N c <? 32)%N eqn:Hctl; [discriminate Hvalid|].
    scanner_step Hvalid.
    destruct (IH r1) as (body & Hbody & Hwf);
      [simpl in Hlen; lia|exact Hvalid|].
    exists (c :: body). rewrite Hbody.
    split; [reflexivity|]. constructor; assumption.
Qed.

Lemma b2z_to_N c : b2z c = Z.of_N (Byte.to_N c).
Proof. reflexivity. Qed.

Lemma first_lead c sz lo hi :
  first c = first_lead sz lo hi ->
  128 <= lo /\ (sz = 2 \/ sz = 3 \/ sz = 4)%nat.
Proof.
  unfold first.
  repeat match goal with
         | |- context [if ?b then _ else _] => destruct b
         end;
    (intros [= <- <- <-] || discriminate); split; (lia || auto).
Qed.

(** The bytes [utf8.DecodeRune] takes after the first one are
    continuation bytes, none of them ASCII. *)
Lemma DecodeRune_width c l rr size :
  DecodeRune (c :: l) = (rr, size) ->
  size = 1%nat
  \/ (size = 2%nat /\ exists b1 l', l = b1 :: l' /\ 128 <= b2z b1)
  \/ (size = 3%nat
      /\ exists b1 b2 l',
           l = b1 :: b2 :: l' /\ 128 <= b2z b1 /\ 128 <= b2z b2)
  \/ (size = 4%nat
      /\ exists b1 b2 b3 l',
           l = b1 :: b2 :: b3 :: l'
           /\ 128 <= b2z b1 /\ 128 <= b2z b2 /\ 128 <= b2z b3).
Proof.
  unfold DecodeRune.
  destruct (first c) as [| |sz lo hi] eqn:Hfirst; try (intros [= _ <-]; auto).
  apply first_lead in Hfirst as [Hlo Hsz].
  destruct (Nat.ltb_spec (length (c :: l)) sz) as [|Hlen];
    [intros [= _ <-]; auto|].
  destruct (Z.ltb_spec (b2z (nth 1 (c :: l) x00)) lo);
    [intros [= _ <-]; auto|].
  destruct (Z.ltb_spec hi (b2z (nth 1 (c :: l) x00)));
    [intros [= _ <-]; auto|].
  cbn [orb].
  destruct l as [|b1 l]; [simpl in Hlen; lia|]. cbn [nth] in *.
  destruct (Nat.leb_spec sz 2).
  { intros [= _ <-]. right; left. split; [reflexivity|].
    exists b1, l. split; [reflexivity|lia]. }
  unfold continuation.
  destruct l as [|b2 l]; [simpl in Hlen; lia|]. cbn [nth] in *.
  destruct (Z.leb_spec 128 (b2z b2)); [|intros [= _ <-]; auto].
  destruct (Z.leb_spec (b2z b2) 191); [|intros [= _ <-]; auto].
  cbn [andb negb].
  destruct (Nat.leb_spec sz 3).
  { intros [= _ <-]. right; right; left. split; [reflexivity|].
    exists b1, b2, l. split; [reflexivity|lia]. }
  destruct l as [|b3 l]; [simpl in Hlen; lia|]. cbn [nth] in *.
  destruct (Z.leb_spec 128 (b2z b3)); [|intros [= _ <-]; auto].
  destruct (Z.leb_spec (b2z b3) 191); [|intros [= _ <-]; auto].
  cbn [andb negb].
  intros [= _ <-]. right; right; right. split; [reflexivity|].
  exists b1, b2, b3, l. split; [reflexivity|lia].
Qed.

Lemma string_body_high_tail b l :
  Spec.string_body (b :: l) -> 128 <= b2z b -> Spec.string_body l.
Proof.
  inversion 1; subst; [intros _; assumption| |];
    vm_compute; intros Hb; exfalso; apply Hb; reflexivity.
Qed.

Lemma simple_escape_unquote e :
  Spec.simple_escape e = true ->
  exists x, forall l,
    unquote_loop ("\"%byte :: e :: l) 0 = cons x <$> unquote_loop l 0.
Proof.
  destruct e; try discriminate; intros _; eexists; intros l; reflexivity.
Qed.

Lemma isHex_hexval h : isHex h = true -> exists v, hexval h = Some v /\ 0 <= v.
Proof.
  destruct h; vm_compute; try discriminate; intros _; eexists;
    (split; [reflexivity|discriminate]).
Qed.

Lemma getu4_hex h1 h2 h3 h4 l :
  isHex h1 = true -> isHex h2 = true -> isHex h3 = true -> isHex h4 = true ->
  0 <= getu4 ("\"%byte :: "u"%byte :: h1 :: h2 :: h3 :: h4 :: l).
Proof.
  intros H1 H2 H3 H4. cbn [getu4].
  destruct (isHex_hexval h1 H1) as (v1 & -> & ?).
  destruct (isHex_hexval h2 H2) as (v2 & -> & ?).
  destruct (isHex_hexval h3 H3) as (v3 & -> & ?).
  destruct (isHex_hexval h4 H4) as (v4 & -> & ?).
  lia.
Qed.

Lemma getu4_shape l :
  0 <= getu4 l ->
  exists g1 g2 g3 g4 l',
    l = "\"%byte :: "u"%byte :: g1 :: g2 :: g3 :: g4 :: l'.
Proof.
  destruct l as [|a l]; [cbn; lia|].
  destruct a; try (cbn; lia).
  destruct l as [|b l]; [cbn; lia|].
  destruct b; try (cbn; lia).
  destruct l as [|g1 [|g2 [|g3 [|g4 l]]]]; try (cbn; lia).
  intros _. eauto 6.
Qed.

Lemma utf16_pair_second r1 r2 :
  utf16_DecodeRune r1 r2 <> RuneError -> 0 <= r2.
Proof.
  unfold utf16_DecodeRune.
  destruct (Z.leb_spec 56320 r2); [lia|].
  rewrite andb_false_r. cbn [andb]. congruence.
Qed.

Lemma string_body_unicode_tail g1 g2 g3 g4 l :
  Spec.string_body ("\"%byte :: "u"%byte :: g1 :: g2 :: g3 :: g4 :: l) ->
  Spec.string_body l.
Proof.
  inversion 1; subst; [discriminate|discriminate|assumption].
Qed.

(** The body of a string literal can be unquoted. *)
Lemma unquote_string_body n : forall body,
  (length body <= n)%nat -> Spec.string_body body ->
  exists t, unquote_loop body 0 = Some t.
Proof.
  induction n as [|n IH]; intros body Hlen Hbody.
  { destruct body; [exists []; reflexivity|simpl in Hlen; lia]. }
  destruct Hbody as [|c l Hquote Hbackslash Hctl Hl|e l He Hl
                    |h1 h2 h3 h4 l H1 H2 H3 H4 Hl].
  - exists []. reflexivity.
  - cbn [unquote_loop]. rewrite Hbackslash, Hquote. cbn [orb].
    assert (Hc : (b2z c <? 32) = false).
    { rewrite b2z_to_N. apply N.ltb_ge in Hctl. apply Z.ltb_ge. lia. }
    rewrite Hc.
    destruct (Z.ltb_spec (b2z c) 128) as [Hascii|Hhigh].
    + destruct (IH l) as (t & ->); [simpl in Hlen; lia|exact Hl|].
      eexists; reflexivity.
    + destruct (DecodeRune (c :: l)) as [rr size] eqn:Hdec.
      apply DecodeRune_width in Hdec
        as [->|[(-> & b1 & l' & -> & Hb1)
               |[(-> & b1 & b2 & l' & -> & Hb1 & Hb2)
                |(-> & b1 & b2 & b3 & l' & -> & Hb1 & Hb2 & Hb3)]]];
        cbn [Nat.sub unquote_loop].
      * destruct (IH l) as (t & ->); [simpl in Hlen; lia|exact Hl|].
        eexists; reflexivity.
      * destruct (IH l') as (t & ->);
          [simpl in Hlen; lia|eauto using string_body_high_tail|].
        eexists; reflexivity.
      * destruct (IH l') as (t & ->);
          [simpl in Hlen; lia|eauto using string_body_high_tail|].
        eexists; reflexivity.
      * destruct (IH l') as (t & ->);
          [simpl in Hlen; lia|eauto using string_body_high_tail|].
        eexists; reflexivity.
  - destruct (simple_escape_unquote e He) as (x & ->).
    destruct (IH l) as (t & ->); [simpl in Hlen; lia|exact Hl|].
    eexists; reflexivity.
  - pose proof (getu4_hex h1 h2 h3 h4 l H1 H2 H3 H4) as Hrr.
    cbn [unquote_loop Byte.eqb]. change (Byte.eqb "\" "\") with true.
    cbn iota.
    set (rr := getu4 _) in *.
    destruct (Z.ltb_spec rr 0) as [|_]; [lia|].
    destruct (IsSurrogate rr).
    + cbn [drop]. rewrite drop_0.
      destruct (Z.eqb_spec (utf16_DecodeRune rr (getu4 l)) RuneError)
        as [_|Hpair]; cbn [negb].
      * destruct (IH l) as (t & ->); [simpl in Hlen; lia|exact Hl|].
        eexists; reflexivity.
      * apply utf16_pair_second, getu4_shape in Hpair
          as (g1 & g2 & g3 & g4 & l' & ->).
        cbn [unquote_loop].
        destruct (IH l') as (t & ->);
          [simpl in Hlen; lia|eauto using string_body_unicode_tail|].
        eexists; reflexivity.
    + destruct (IH l) as (t & ->); [simpl in Hlen; lia|exact Hl|].
      eexists; reflexivity.
Qed.

Lemma unquoteBytes_quoted body :
  unquoteBytes ("034"%byte :: body ++ ["034"%byte]) = unquote_loop body 0.
Proof.
  assert (Hshape : exists x l, body ++ ["034"%byte] = x :: l).
  { destruct body; eexists _, _; reflexivity. }
  destruct Hshape as (x & l & Hshape).
  unfold unquoteBytes. rewrite Hshape, <- Hshape.
  rewrite (app_comm_cons body), List.last_last.
  change (Byte.eqb "034" "034") with true. cbn iota.
  rewrite <- (app_comm_cons body). cbn [drop length].
  rewrite drop_0, length_app. cbn [length].
  replace (S (length body + 1) - 2)%nat with (length body) by lia.
  apply f_equal2; [|reflexivity]. apply take_app_length.
Qed.

(** Decoding a JSON string into a string variable succeeds. *)
Lemma Unmarshal_string_of_string data s :
  Spec.is_JSON_string data ->
  exists t, Unmarshal_string data s = Some (t, None).
Proof.
  intros [Hvalid Hfirst].
  destruct (Unmarshal_string_valid data s Hvalid)
    as (c & rest & Hc & [(-> & Hrest & ->)|[(-> & _)|(Hne & _)]]);
    rewrite Hfirst in Hc; try congruence.
  destruct (scan_string_body (length rest) rest (le_n _) Hrest)
    as (body & -> & Hbody).
  rewrite unquoteBytes_quoted.
  destruct (unquote_string_body (length body) body (le_n _) Hbody)
    as (t & ->).
  eexists; reflexivity.
Qed.

Lemma Unmarshal_string_of_null data s :
  Spec.is_JSON_null data -> Unmarshal_string data s = Some (s, None).
Proof.
  intros [Hvalid Hfirst].
  destruct (Unmarshal_string_valid data s Hvalid)
    as (c & rest & Hc & [(-> & _)|[(-> & Hres)|(_ & Hne & _)]]);
    rewrite Hfirst in Hc; congruence.
Qed.

(** Any other input is an error of the decoder. *)
Lemma Unmarshal_string_of_other data s :
  ~ Spec.is_JSON_string data -> ~ Spec.is_JSON_null data ->
  exists e, Unmarshal_string data s = Some (s, Some e).
Proof.
  intros Hstring Hnull.
  destruct (Valid data) eqn:Hvalid.
  - destruct (Unmarshal_string_valid data s Hvalid)
      as (c & rest & Hc & [(-> & _)|[(-> & _)|(_ & _ & v & ->)]]).
    + exfalso. apply Hstring. split; assumption.
    + exfalso. apply Hnull. split; assumption.
    + eexists; reflexivity.
  - destruct (Unmarshal_string_invalid data s Hvalid) as (msg & ->).
    eexists; reflexivity.
Qed.

(** A text is not both a string and [null]. *)
Lemma string_or_null data :
  Spec.is_JSON_string data -> Spec.is_JSON_null data -> False.
Proof. intros [_ H1] [_ H2]. congruence. Qed.

End JsonFacts.

(** ** Lowering and the names of the states *)

Section StateNames.

Variable unicode_lower : string → string.

Lemma ToLower_empty : Strings.ToLower unicode_lower EmptyString = EmptyString.
Proof. reflexivity. Qed.

Lemma RequestContextStateFromString_empty :
  RequestContextStateFromString unicode_lower EmptyString
  = (xff, Some (fmt_Errorf "'' is not a valid request context state")).
Proof. reflexivity. Qed.

Lemma RequestContextBatchStateFromString_empty :
  RequestContextBatchStateFromString unicode_lower EmptyString
  = (xff, Some (fmt_Errorf "'' is not a valid request context batch state")).
Proof. reflexivity. Qed.

End StateNames.

(** ** The models at work on small inputs *)

Section Samples.

Example MatchString_samples :
  Regexp.MatchString reServiceName "oracle-price_2" = true
  /\ Regexp.MatchString reServiceName "2oracle" = false
  /\ Regexp.MatchString reServiceName "oracle price" = false
  /\ Regexp.MatchString reServiceName EmptyString = false.
Proof. repeat split; vm_compute; reflexivity. Qed.

Example Valid_samples :
  Json.Valid (list_byte_of_string Spec.output_x1) = true
  /\ Json.Valid (list_byte_of_string " [1, -2.5e3, null, true] ") = true
  /\ Json.Valid (list_byte_of_string "01") = false
  /\ Json.Valid (list_byte_of_string "[1,]") = false
  /\ Json.Valid (list_byte_of_string "1 2") = false
  /\ Json.Valid [] = false.
Proof. repeat split; vm_compute; reflexivity. Qed.

Example Unmarshal_string_samples :
  Json.Unmarshal_string
    (list_byte_of_string (Spec.quote ++ "Pau\u0053ed\n" ++ Spec.quote)) "x"
  = Some (String.append "PauSed" (String "010" EmptyString), None)
  /\ Json.Unmarshal_string (list_byte_of_string "null") "x" = Some ("x", None)
  /\ Json.Unmarshal_string (list_byte_of_string "12") "x"
     = Some ("x", Some (Json.UnmarshalTypeError "number"))
  /\ Json.Unmarshal_string (list_byte_of_string "{}") "x"
     = Some ("x", Some (Json.UnmarshalTypeError "object")).
Proof. repeat split; vm_compute; reflexivity. Qed.

Example UnmarshalJSON_samples :
  RequestContextState_UnmarshalJSON (λ s, s) RUNNING
    (list_byte_of_string (Spec.quote ++ "PAUSED" ++ Spec.quote))
  = Some (PAUSED, None)
  /\ RequestContextState_UnmarshalJSON (λ s, s) RUNNING
       (list_byte_of_string "17") = Some (RUNNING, None)
  /\ RequestContextBatchState_UnmarshalJSON (λ s, s) BATCHRUNNING
       (list_byte_of_string (Spec.quote ++ "paused" ++ Spec.quote))
     = Some (BATCHRUNNING,
             Some (fmt_Errorf
                     "'paused' is not a valid request context batch state")).
Proof. repeat split; vm_compute; reflexivity. Qed.

Example GenerateRequestID_sample :
  GenerateRequestID (replicate 40 x11) 1 258 (-2)
  = Some (replicate 40 x11
          ++ [x00; x00; x00; x00; x00; x00; x00; x01;
              x00; x00; x00; x00; x00; x00; x01; x02; xff; xfe]).
Proof. vm_compute; reflexivity. Qed.

End Samples.

(** ** Decoding and encoding again: the other direction *)

Section CodecInverse.

Import BigEndian.

Lemma int64_range x : is_int64 (int64 x).
Proof.
  unfold is_int64, int64.
  pose proof (Z.mod_pos_bound (x + 2 ^ 63) (2 ^ 64)). lia.
Qed.

Lemma int16_range x : is_int16 (int16 x).
Proof.
  unfold is_int16, int16.
  pose proof (Z.mod_pos_bound (x + 2 ^ 15) (2 ^ 16)). lia.
Qed.

Lemma uint64_int64 x : is_uint64 x -> uint64 (int64 x) = x.
Proof.
  unfold is_uint64, uint64, int64. intros Hx.
  rewrite Zminus_mod_idemp_l.
  replace (x + 2 ^ 63 - 2 ^ 63) with x by lia.
  apply Z.mod_small. lia.
Qed.

Lemma uint16_int16 x : is_uint16 x -> uint16 (int16 x) = x.
Proof.
  unfold is_uint16, uint16, int16. intros Hx.
  rewrite Zminus_mod_idemp_l.
  replace (x + 2 ^ 15 - 2 ^ 15) with x by lia.
  apply Z.mod_small. lia.
Qed.

Lemma u_range b : 0 <= u b < 2 ^ 8.
Proof. apply byte.unsigned_range. Qed.

Lemma testbit_u_out b i : i < 0 \/ 8 <= i -> Z.testbit (u b) i = false.
Proof.
  intros [Hi|Hi]; [apply Z.testbit_neg_r, Hi|].
  apply (testbit_high (u b) 8 i); [apply u_range|lia].
Qed.

Ltac bits_of_value n :=
  rewrite !Z.lor_spec, !Z.shiftl_spec by lia;
  repeat match goal with
         | |- context [Z.testbit (u ?b) ?i] =>
             rewrite (testbit_u_out b i) by lia
         end;
  rewrite ?orb_false_r, ?orb_false_l.

Lemma value64_range b0 b1 b2 b3 b4 b5 b6 b7 :
  is_uint64 (value64 b0 b1 b2 b3 b4 b5 b6 b7).
Proof.
  unfold is_uint64.
  assert (Hnn : 0 <= value64 b0 b1 b2 b3 b4 b5 b6 b7).
  { unfold value64.
    repeat (apply Z.lor_nonneg; split); try apply Z.shiftl_nonneg;
      apply u_range. }
  split; [exact Hnn|].
  enough (Hmod : value64 b0 b1 b2 b3 b4 b5 b6 b7 mod 2 ^ 64
                 = value64 b0 b1 b2 b3 b4 b5 b6 b7).
  { pose proof (Z.mod_pos_bound (value64 b0 b1 b2 b3 b4 b5 b6 b7) (2 ^ 64)).
    lia. }
  apply Z.bits_inj'. intros n Hn.
  rewrite Z.testbit_mod_pow2 by lia.
  destruct (Z.ltb_spec n 64); [reflexivity|].
  unfold value64. bits_of_value n. reflexivity.
Qed.

Lemma value16_range b0 b1 : is_uint16 (value16 b0 b1).
Proof.
  unfold is_uint16.
  assert (Hnn : 0 <= value16 b0 b1).
  { unfold value16.
    repeat (apply Z.lor_nonneg; split); try apply Z.shiftl_nonneg;
      apply u_range. }
  split; [exact Hnn|].
  enough (Hmod : value16 b0 b1 mod 2 ^ 16 = value16 b0 b1).
  { pose proof (Z.mod_pos_bound (value16 b0 b1) (2 ^ 16)). lia. }
  apply Z.bits_inj'. intros n Hn.
  rewrite Z.testbit_mod_pow2 by lia.
  destruct (Z.ltb_spec n 16); [reflexivity|].
  unfold value16. bits_of_value n. reflexivity.
Qed.

(** The byte of a value at offset [k] is the byte it was read from. *)
Ltac byte_of_value :=
  unfold byte_of; apply byte.unsigned_inj; rewrite byte.unsigned_of_Z;
  unfold byte.wrap;
  apply Z.bits_inj'; intros n Hn;
  rewrite Z.testbit_mod_pow2 by lia;
  match goal with
  | |- _ = Z.testbit (byte.unsigned ?b) n =>
      change (byte.unsigned b) with (u b);
      destruct (Z.ltb_spec n 8);
      [|rewrite (testbit_u_out b n) by lia; reflexivity]
  end;
  cbn [andb]; rewrite ?Z.shiftr_spec by lia;
  unfold value64, value16; bits_of_value n;
  f_equal; lia.

Lemma bytes64_value64 b0 b1 b2 b3 b4 b5 b6 b7 :
  bytes64 (value64 b0 b1 b2 b3 b4 b5 b6 b7)
  = [b0; b1; b2; b3; b4; b5; b6; b7].
Proof.
  unfold bytes64.
  repeat (f_equal; [byte_of_value|]).
  f_equal. byte_of_value.
Qed.

Lemma bytes16_value16 b0 b1 : bytes16 (value16 b0 b1) = [b0; b1].
Proof.
  unfold bytes16.
  repeat (f_equal; [byte_of_value|]).
  f_equal. byte_of_value.
Qed.

End CodecInverse.

(** ** Identifiers of any length *)

Section IdentifierFacts.

Import BigEndian.

Lemma length_8 (b : list byte) :
  length b = 8%nat ->
  exists b0 b1 b2 b3 b4 b5 b6 b7, b = [b0; b1; b2; b3; b4; b5; b6; b7].
Proof.
  intros Hb.
  do 8 (destruct b as [|? b]; [discriminate Hb|]).
  destruct b; [|discriminate Hb]. eauto 10.
Qed.

Lemma length_2 (b : list byte) :
  length b = 2%nat -> exists b0 b1, b = [b0; b1].
Proof.
  intros Hb.
  do 2 (destruct b as [|? b]; [discriminate Hb|]).
  destruct b; [|discriminate Hb]. eauto.
Qed.

Lemma slice_in_range (s : list byte) lo hi :
  (lo <= hi <= length s)%nat ->
  Slice.slice s lo hi = Some (take (hi - lo) (drop lo s)).
Proof. intros H. unfold Slice.slice. rewrite decide_True by exact H. done. Qed.

Lemma bytes64_inj v1 v2 :
  is_uint64 v1 -> is_uint64 v2 -> bytes64 v1 = bytes64 v2 -> v1 = v2.
Proof.
  intros H1 H2 Heq.
  pose proof (Uint64_bytes64 v1 H1) as E1.
  rewrite Heq, (Uint64_bytes64 v2 H2) in E1. congruence.
Qed.

Lemma bytes16_inj v1 v2 :
  is_uint16 v1 -> is_uint16 v2 -> bytes16 v1 = bytes16 v2 -> v1 = v2.
Proof.
  intros H1 H2 Heq.
  pose proof (Uint16_bytes16 v1 H1) as E1.
  rewrite Heq, (Uint16_bytes16 v2 H2) in E1. congruence.
Qed.

Lemma uint64_inj_int64 i1 i2 :
  is_int64 i1 -> is_int64 i2 -> uint64 i1 = uint64 i2 -> i1 = i2.
Proof.
  intros H1 H2 Heq.
  rewrite <- (int64_uint64 i1 H1), <- (int64_uint64 i2 H2), Heq. reflexivity.
Qed.

Lemma uint16_inj_int16 i1 i2 :
  is_int16 i1 -> is_int16 i2 -> uint16 i1 = uint16 i2 -> i1 = i2.
Proof.
  intros H1 H2 Heq.
  rewrite <- (int16_uint16 i1 H1), <- (int16_uint16 i2 H2), Heq. reflexivity.
Qed.

Lemma request_id_fields (l : list byte) :
  length l = 58%nat ->
  take 40 l ++ take 8 (drop 40 l) ++ take 8 (drop 48 l) ++ take 2 (drop 56 l)
  = l.
Proof.
  intros Hlen.
  rewrite (take_ge (drop 56 l)) by (rewrite length_drop; lia).
  replace (drop 56 l) with (drop 8 (drop 48 l))
    by (rewrite drop_drop; reflexivity).
  rewrite take_drop.
  replace (drop 48 l) with (drop 8 (drop 40 l))
    by (rewrite drop_drop; reflexivity).
  rewrite take_drop. apply take_drop.
Qed.

End IdentifierFacts.

(** ** Big-endian bytes sort like the values *)

Section ByteOrder.

Import BigEndian.

Lemma bytes_lt_app (c x y : list byte) :
  bytes_lt x y -> bytes_lt (c ++ x) (c ++ y).
Proof.
  intros Hxy. induction c as [|a c IH]; [exact Hxy|].
  cbn [app bytes_lt]. right. split; [reflexivity|exact IH].
Qed.

Ltac first_difference :=
  repeat match goal with
         | |- ?a < ?b \/ (?a = ?b /\ _) =>
             let Hd := fresh "Hd" in
             destruct (Z.lt_trichotomy a b) as [Hd|[Hd|Hd]];
             [left; exact Hd|right; split; [exact Hd|]|exfalso; lia]
         end.

(** A digit of base 256 and the digits above it. *)
Lemma digit_step v k :
  0 <= k -> v / 2 ^ k = 2 ^ 8 * (v / 2 ^ (k + 8)) + (v / 2 ^ k) mod 2 ^ 8.
Proof.
  intros Hk. rewrite Z.pow_add_r, <- Z.div_div by lia.
  apply Z.div_mod. lia.
Qed.

Ltac name_digits :=
  repeat match goal with
         | |- context [?x mod 2 ^ 8] =>
             let d := fresh "d" in
             pose proof (Z.mod_pos_bound x (2 ^ 8) eq_refl);
             set (d := x mod 2 ^ 8) in *; clearbody d
         end;
  repeat match goal with
         | H : context [?v / 2 ^ ?k] |- _ =>
             let q := fresh "q" in set (q := v / 2 ^ k) in *; clearbody q
         end.

Lemma bytes64_lt v1 v2 r1 r2 :
  is_uint64 v1 -> is_uint64 v2 -> v1 < v2 ->
  bytes_lt (bytes64 v1 ++ r1) (bytes64 v2 ++ r2).
Proof.
  unfold is_uint64. intros H1 H2 Hlt.
  unfold bytes64. cbn [app bytes_lt]. unfold byte_of.
  rewrite !byte.unsigned_of_Z. unfold byte.wrap.
  rewrite !Z.shiftr_div_pow2 by lia.
  pose proof (Z.div_mod v1 (2 ^ 8) ltac:(lia)) as A0.
  pose proof (Z.div_mod v2 (2 ^ 8) ltac:(lia)) as B0.
  assert (A1 : v1 / 2 ^ 8 = 2 ^ 8 * (v1 / 2 ^ 16) + (v1 / 2 ^ 8) mod 2 ^ 8)
    by exact (digit_step v1 8 ltac:(lia)).
  assert (B1 : v2 / 2 ^ 8 = 2 ^ 8 * (v2 / 2 ^ 16) + (v2 / 2 ^ 8) mod 2 ^ 8)
    by exact (digit_step v2 8 ltac:(lia)).
  assert (A2 : v1 / 2 ^ 16 = 2 ^ 8 * (v1 / 2 ^ 24) + (v1 / 2 ^ 16) mod 2 ^ 8)
    by exact (digit_step v1 16 ltac:(lia)).
  assert (B2 : v2 / 2 ^ 16 = 2 ^ 8 * (v2 / 2 ^ 24) + (v2 / 2 ^ 16) mod 2 ^ 8)
    by exact (digit_step v2 16 ltac:(lia)).
  assert (A3 : v1 / 2 ^ 24 = 2 ^ 8 * (v1 / 2 ^ 32) + (v1 / 2 ^ 24) mod 2 ^ 8)
    by exact (digit_step v1 24 ltac:(lia)).
  assert (B3 : v2 / 2 ^ 24 = 2 ^ 8 * (v2 / 2 ^ 32) + (v2 / 2 ^ 24) mod 2 ^ 8)
    by exact (digit_step v2 24 ltac:(lia)).
  assert (A4 : v1 / 2 ^ 32 = 2 ^ 8 * (v1 / 2 ^ 40) + (v1 / 2 ^ 32) mod 2 ^ 8)
    by exact (digit_step v1 32 ltac:(lia)).
  assert (B4 : v2 / 2 ^ 32 = 2 ^ 8 * (v2 / 2 ^ 40) + (v2 / 2 ^ 32) mod 2 ^ 8)
    by exact (digit_step v2 32 ltac:(lia)).
  assert (A5 : v1 / 2 ^ 40 = 2 ^ 8 * (v1 / 2 ^ 48) + (v1 / 2 ^ 40) mod 2 ^ 8)
    by exact (digit_step v1 40 ltac:(lia)).
  assert (B5 : v2 / 2 ^ 40 = 2 ^ 8 * (v2 / 2 ^ 48) + (v2 / 2 ^ 40) mod 2 ^ 8)
    by exact (digit_step v2 40 ltac:(lia)).
  assert (A6 : v1 / 2 ^ 48 = 2 ^ 8 * (v1 / 2 ^ 56) + (v1 / 2 ^ 48) mod 2 ^ 8)
    by exact (digit_step v1 48 ltac:(lia)).
  assert (B6 : v2 / 2 ^ 48 = 2 ^ 8 * (v2 / 2 ^ 56) + (v2 / 2 ^ 48) mod 2 ^ 8)
    by exact (digit_step v2 48 ltac:(lia)).
  assert (A7 : v1 / 2 ^ 56 = 2 ^ 8 * (v1 / 2 ^ 64) + (v1 / 2 ^ 56) mod 2 ^ 8)
    by exact (digit_step v1 56 ltac:(lia)).
  assert (B7 : v2 / 2 ^ 56 = 2 ^ 8 * (v2 / 2 ^ 64) + (v2 / 2 ^ 56) mod 2 ^ 8)
    by exact (digit_step v2 56 ltac:(lia)).
  rewrite (Z.div_small v1 (2 ^ 64)) in A7 by lia.
  rewrite (Z.div_small v2 (2 ^ 64)) in B7 by lia.
  name_digits.
  first_difference. exfalso. lia.
Qed.

Lemma bytes64_eq_lt v r1 r2 :
  bytes_lt r1 r2 -> bytes_lt (bytes64 v ++ r1) (bytes64 v ++ r2).
Proof. apply bytes_lt_app. Qed.

Lemma bytes16_lt v1 v2 :
  is_uint16 v1 -> is_uint16 v2 -> v1 < v2 ->
  bytes_lt (bytes16 v1) (bytes16 v2).
Proof.
  unfold is_uint16. intros H1 H2 Hlt.
  unfold bytes16. cbn [bytes_lt]. unfold byte_of.
  rewrite !byte.unsigned_of_Z. unfold byte.wrap.
  rewrite !Z.shiftr_div_pow2 by lia.
  pose proof (Z.div_mod v1 (2 ^ 8) ltac:(lia)) as A0.
  pose proof (Z.div_mod v2 (2 ^ 8) ltac:(lia)) as B0.
  assert (A1 : v1 / 2 ^ 8 = 2 ^ 8 * (v1 / 2 ^ 16) + (v1 / 2 ^ 8) mod 2 ^ 8)
    by exact (digit_step v1 8 ltac:(lia)).
  assert (B1 : v2 / 2 ^ 8 = 2 ^ 8 * (v2 / 2 ^ 16) + (v2 / 2 ^ 8) mod 2 ^ 8)
    by exact (digit_step v2 8 ltac:(lia)).
  rewrite (Z.div_small v1 (2 ^ 16)) in A1 by lia.
  rewrite (Z.div_small v2 (2 ^ 16)) in B1 by lia.
  name_digits.
  first_difference. lia.
Qed.

End ByteOrder.

(** ** Hexadecimal text *)

Section HexFacts.

Lemma pair_ind (P : list byte → Prop) :
  P [] -> (forall x, P [x]) -> (forall x y l, P l -> P (x :: y :: l)) ->
  forall l, P l.
Proof.
  intros Hnil Hone Hstep l.
  enough (H : P l /\ forall x, P (x :: l)) by apply H.
  induction l as [|y l [IH1 IH2]]; [auto|].
  split; [apply IH2|]. intros x. apply Hstep, IH1.
Qed.

Lemma Decode_pair v rest :
  Hex.Decode
    (Hex.hexdigit (byte.unsigned v ≫ 4)
     :: Hex.hexdigit (Z.land (byte.unsigned v) 15) :: rest)
  = (v :: fst (Hex.Decode rest), snd (Hex.Decode rest)).
Proof.
  cbn [Hex.Decode]. destruct (Hex.Decode rest) as [d e].
  destruct v; reflexivity.
Qed.

Lemma Decode_Encode l : Hex.Decode (Hex.Encode l) = (l, None).
Proof.
  induction l as [|v l IH]; [reflexivity|].
  cbn [Hex.Encode]. rewrite Decode_pair, IH. reflexivity.
Qed.

Lemma Decode_pair_upper v rest :
  Hex.Decode
    (upper_byte (Hex.hexdigit (byte.unsigned v ≫ 4))
     :: upper_byte (Hex.hexdigit (Z.land (byte.unsigned v) 15)) :: rest)
  = (v :: fst (Hex.Decode rest), snd (Hex.Decode rest)).
Proof.
  cbn [Hex.Decode]. destruct (Hex.Decode rest) as [d e].
  destruct v; reflexivity.
Qed.

Lemma Decode_Encode_upper l :
  Hex.Decode (List.map upper_byte (Hex.Encode l)) = (l, None).
Proof.
  induction l as [|v l IH]; [reflexivity|].
  cbn [Hex.Encode List.map]. rewrite Decode_pair_upper, IH. reflexivity.
Qed.

Lemma list_byte_of_string_map f s :
  list_byte_of_string (Strings.map f s)
  = List.map (λ b, byte_of_ascii (f (ascii_of_byte b))) (list_byte_of_string s).
Proof.
  unfold list_byte_of_string.
  induction s as [|c s IH]; [reflexivity|].
  cbn [Strings.map list_ascii_of_string List.map].
  rewrite IH, ascii_of_byte_of_ascii. reflexivity.
Qed.

Lemma length_string_of_list_byte l :
  String.length (string_of_list_byte l) = length l.
Proof.
  unfold string_of_list_byte.
  induction l as [|b l IH]; [reflexivity|].
  cbn [List.map string_of_list_ascii String.length length].
  rewrite IH. reflexivity.
Qed.

Lemma length_list_byte_of_string s :
  length (list_byte_of_string s) = String.length s.
Proof.
  unfold list_byte_of_string.
  induction s as [|c s IH]; [reflexivity|].
  cbn [list_ascii_of_string List.map String.length length].
  rewrite IH. reflexivity.
Qed.

Lemma length_map_string f s :
  String.length (Strings.map f s) = String.length s.
Proof.
  induction s as [|c s IH]; [reflexivity|].
  cbn [Strings.map String.length]. rewrite IH. reflexivity.
Qed.

Lemma length_Encode l : length (Hex.Encode l) = (2 * length l)%nat.
Proof.
  induction l as [|v l IH]; [reflexivity|].
  cbn [Hex.Encode length]. rewrite IH. lia.
Qed.

(** Decoding succeeds exactly on an even number of hexadecimal digits,
    and gives one byte for two digits. *)
Lemma Decode_ok src :
  (snd (Hex.Decode src) = None
   <-> Nat.Even (length src)
       /\ Forall (λ c, is_Some (Hex.fromHexChar c)) src)
  /\ (snd (Hex.Decode src) = None -> length src = (2 * length (fst (Hex.Decode src)))%nat).
Proof.
  induction src as [|x|x y l [IH1 IH2]] using pair_ind.
  - split; [|reflexivity]. split; [intros _; split; [exists 0%nat; reflexivity|constructor]|reflexivity].
  - cbn [Hex.Decode]. split.
    + split.
      * destruct (Hex.fromHexChar x); discriminate.
      * intros [[k Hk] _]. simpl in Hk. lia.
    + destruct (Hex.fromHexChar x); discriminate.
  - cbn [Hex.Decode].
    destruct (Hex.fromHexChar x) as [a|] eqn:Hx.
    2: { split; [|discriminate]. split; [discriminate|].
         intros [_ Hall]. inversion Hall as [|? ? [? Hsome] _]; subst.
         congruence. }
    destruct (Hex.fromHexChar y) as [b|] eqn:Hy.
    2: { split; [|discriminate]. split; [discriminate|].
         intros [_ Hall]. inversion Hall as [|? ? _ Hall']; subst.
         inversion Hall' as [|? ? [? Hsome] _]; subst. congruence. }
    destruct (Hex.Decode l) as [d e]. cbn [fst snd] in *.
    split.
    + rewrite IH1. split.
      * intros [[k Hk] Hall]. split.
        -- exists (S k). cbn [length]. lia.
        -- repeat constructor; eauto.
      * intros [[k Hk] Hall]. split.
        -- exists (k - 1)%nat. cbn [length] in Hk. lia.
        -- inversion Hall as [|? ? _ Hall']; subst.
           inversion Hall'; subst. assumption.
    + intros He. cbn [length]. rewrite (IH2 He). lia.
Qed.

End HexFacts.

(** ** The names of the states *)

Section StateNameFacts.

Variable unicode_lower : string → string.

Lemma map_lower_no_upper s :
  Strings.all (λ c, negb (Strings.isUpper c)) s = true ->
  Strings.map Strings.lower s = s.
Proof.
  induction s as [|c s IH]; [reflexivity|].
  cbn [Strings.all Strings.map]. intros [Hc Hs]%andb_true_iff.
  rewrite (IH Hs). unfold Strings.lower.
  destruct (Strings.isUpper c); [discriminate Hc|reflexivity].
Qed.

(** On an ASCII-only string [strings.ToLower] lowers byte by byte. *)
Lemma ToLower_ascii s :
  Strings.all Strings.isASCII s = true ->
  Strings.ToLower unicode_lower s = Strings.map Strings.lower s.
Proof.
  intros Hascii. unfold Strings.ToLower. rewrite Hascii.
  destruct (Strings.all (λ c, negb (Strings.isUpper c)) s) eqn:Hupper;
    [|reflexivity].
  symmetry. apply map_lower_no_upper, Hupper.
Qed.

Lemma state_of_name (k : string) :
  StringToRequestContextStateMap !! k
  = if decide (k = "running") then Some RUNNING
    else if decide (k = "paused") then Some PAUSED
    else if decide (k = "completed") then Some COMPLETED
    else None.
Proof.
  unfold StringToRequestContextStateMap.
  destruct (decide (k = "running")) as [->|H1]; [reflexivity|].
  rewrite lookup_insert_ne by congruence.
  destruct (decide (k = "paused")) as [->|H2]; [reflexivity|].
  rewrite lookup_insert_ne by congruence.
  destruct (decide (k = "completed")) as [->|H3]; [reflexivity|].
  rewrite lookup_singleton_ne by congruence. reflexivity.
Qed.

Lemma batch_state_of_name (k : string) :
  StringToRequestContextBatchStateMap !! k
  = if decide (k = "running") then Some BATCHRUNNING
    else if decide (k = "completed") then Some BATCHCOMPLETED
    else None.
Proof.
  unfold StringToRequestContextBatchStateMap.
  destruct (decide (k = "running")) as [->|H1]; [reflexivity|].
  rewrite lookup_insert_ne by congruence.
  destruct (decide (k = "completed")) as [->|H3]; [reflexivity|].
  rewrite lookup_singleton_ne by congruence. reflexivity.
Qed.

End StateNameFacts.

(** ** More of the validators *)

Section MoreValidationFacts.

Lemma ValidateTags_each_nil (tags : list string) :
  ValidateTags_each tags = None
  <-> List.Forall (λ tag, (1 <= String.length tag <= 70)%nat) tags.
Proof.
  induction tags as [|tag tags IH]; cbn [ValidateTags_each].
  - split; [constructor|reflexivity].
  - unfold MaxTagLength.
    destruct (Nat.eqb_spec (String.length tag) 0) as [Hzero|Hpos].
    { split; [discriminate|]. inversion 1; subst. lia. }
    destruct (Nat.ltb_spec 70 (String.length tag)) as [Hlong|Hshort].
    { split; [discriminate|]. inversion 1; subst. lia. }
    rewrite IH. split.
    + intros Hall. constructor; [lia|exact Hall].
    + inversion 1; subst. assumption.
Qed.

Lemma ValidateTags_each_error (tags : list string) (e : error) :
  ValidateTags_each tags = Some e -> e = sdkerrors_Wrap ErrInvalidTags.
Proof.
  induction tags as [|tag tags IH]; cbn [ValidateTags_each];
    [discriminate|].
  destruct (String.length tag =? 0)%nat; [congruence|].
  destruct (MaxTagLength <? String.length tag)%nat; [congruence|exact IH].
Qed.

Lemma length_zero_empty (s : string) :
  String.length s = 0%nat <-> s = EmptyString.
Proof. destruct s; split; first [reflexivity | discriminate]. Qed.

Lemma Valid_empty : Json.Valid [] = false.
Proof. vm_compute; reflexivity. Qed.

Lemma ValidateInput_nil (input : string) :
  ValidateInput input = None
  <-> Json.Valid (list_byte_of_string input) = true.
Proof.
  unfold ValidateInput.
  destruct (Nat.eqb_spec (String.length input) 0) as [Hzero|Hpos].
  - apply length_zero_empty in Hzero. subst input.
    change (list_byte_of_string EmptyString) with (@nil byte).
    rewrite Valid_empty. split; discriminate.
  - destruct (Json.Valid _); cbn [negb]; split;
      first [reflexivity | discriminate].
Qed.

Variable AccAddress_String : AccAddress → string.

Lemma ValidateProvidersNoEmpty_nil providers :
  ValidateProvidersNoEmpty AccAddress_String providers = None
  <-> (1 <= length providers <= 10)%nat
      /\ List.NoDup (List.map AccAddress_String providers).
Proof.
  unfold ValidateProvidersNoEmpty, MaxProvidersNum, or_else.
  destruct (Nat.eqb_spec (length providers) 0) as [Hzero|Hpos].
  { split; [discriminate|]. intros [? _]. lia. }
  destruct (Nat.ltb_spec 10 (length providers)) as [Hlen|Hlen].
  { split; [discriminate|]. intros [? _]. lia. }
  pose proof (checkDuplicateProviders_nil AccAddress_String providers)
    as Hdup.
  destruct (checkDuplicateProviders _ _).
  - split; [discriminate|]. intros [_ Hnd]. apply Hdup in Hnd.
    discriminate.
  - split; [|reflexivity]. intros _. split; [lia|]. apply Hdup.
    reflexivity.
Qed.

Lemma ValidateConsumer_nil (consumer : AccAddress) :
  ValidateConsumer consumer = None <-> consumer <> [].
Proof.
  unfold ValidateConsumer.
  destruct consumer; cbn; split; first [congruence | reflexivity].
Qed.

Lemma ValidateProvider_nil (provider : AccAddress) :
  ValidateProvider provider = None <-> provider <> [].
Proof.
  unfold ValidateProvider.
  destruct provider; cbn; split; first [congruence | reflexivity].
Qed.

Lemma ValidateAuthor_nil (author : AccAddress) :
  ValidateAuthor author = None <-> author <> [].
Proof.
  unfold ValidateAuthor.
  destruct author; cbn; split; first [congruence | reflexivity].
Qed.

Lemma or_else_nil (e k : option error) :
  or_else e k = None <-> e = None /\ k = None.
Proof.
  destruct e; cbn; split;
    first [discriminate | intros [H _]; discriminate H | tauto].
Qed.

End MoreValidationFacts.

Section ProviderBridge.

Variable AccAddress_String : AccAddress → string.

(** A list that passes [ValidateProvidersNoEmpty] passes
    [ValidateProvidersCanEmpty]. *)
Lemma provider_lists_bridge providers :
  (ValidateProvidersNoEmpty AccAddress_String providers = None
   <-> providers <> []
       /\ ValidateProvidersCanEmpty AccAddress_String providers = None)
  /\ (ValidateProvidersNoEmpty AccAddress_String providers = None ->
      ValidateProvidersCanEmpty AccAddress_String providers = None).
Proof.
  assert (Hiff : ValidateProvidersNoEmpty AccAddress_String providers = None
                 <-> providers <> []
                     /\ ValidateProvidersCanEmpty AccAddress_String providers
                        = None).
  { rewrite ValidateProvidersNoEmpty_nil, ValidateProvidersCanEmpty_nil.
    destruct providers as [|p providers]; cbn [length].
    - split; [intros [? _]; lia|intros [Hne _]; contradiction].
    - split.
      + intros [Hlen Hnd]. split; [discriminate|]. split; [lia|exact Hnd].
      + intros (_ & Hlen & Hnd). split; [lia|exact Hnd]. }
  split; [exact Hiff|]. intros H. apply Hiff in H. apply H.
Qed.

End ProviderBridge.

Section Composition.

Variable Coins_IsValid : Coins → bool.
Variable AccAddress_String : AccAddress → string.

(** The checks of [ValidateRequest] on a repeated request cover those of
    [ValidateRequestContextUpdating]. *)
Lemma ValidateRequest_updating (serviceName : string) (serviceFeeCap : Coins)
    (providers : list AccAddress) (input : string)
    (timeout repeatedFrequency repeatedTotal : Z) :
  is_uint64 repeatedFrequency ->
  ValidateRequest Coins_IsValid AccAddress_String serviceName serviceFeeCap
    providers input timeout true repeatedFrequency repeatedTotal = None ->
  ValidateRequestContextUpdating Coins_IsValid AccAddress_String providers
    serviceFeeCap timeout repeatedFrequency repeatedTotal = None.
Proof.
  intros Hfreq. unfold ValidateRequest, ValidateRequestContextUpdating.
  rewrite !or_else_nil.
  intros (_ & Hcap & Hprov & _ & Hrest).
  apply (proj2 (provider_lists_bridge AccAddress_String providers)) in Hprov.
  split; [exact Hprov|]. split.
  { destruct (negb (Coins_Empty serviceFeeCap)); [exact Hcap|reflexivity]. }
  unfold is_uint64 in Hfreq.
  destruct (Z.leb_spec timeout 0) as [Hle|Hgt]; [discriminate Hrest|].
  destruct (Z.ltb_spec timeout 0) as [Hneg|_]; [lia|].
  destruct (Z.eqb_spec timeout 0) as [Hzero|_]; [lia|].
  destruct (Z.eqb_spec repeatedFrequency 0) as [Hf0|Hf0]; cbn [negb andb].
  - destruct (Z.ltb_spec 0 repeatedFrequency) as [Hpos|_]; [lia|].
    cbn [andb] in Hrest.
    destruct (Z.ltb_spec repeatedTotal (-1)); [discriminate Hrest|].
    reflexivity.
  - destruct (Z.ltb_spec 0 repeatedFrequency) as [_|Hle]; [|lia].
    cbn [andb] in Hrest.
    destruct (repeatedFrequency <? uint64 timeout); [discriminate Hrest|].
    destruct (Z.ltb_spec repeatedTotal (-1)); [discriminate Hrest|].
    reflexivity.
Qed.

(** The fields that [ValidateRequest] accepts pass the checks of
    [RequestContext.Validate] but for the consumer. *)
Lemma ValidateRequest_fields (serviceName : string) (serviceFeeCap : Coins)
    (providers : list AccAddress) (input : string)
    (timeout : Z) (repeated : bool) (repeatedFrequency repeatedTotal : Z) :
  ValidateRequest Coins_IsValid AccAddress_String serviceName serviceFeeCap
    providers input timeout repeated repeatedFrequency repeatedTotal = None ->
  ValidateServiceName serviceName = None
  /\ ValidateServiceFeeCap Coins_IsValid serviceFeeCap = None
  /\ ValidateProvidersNoEmpty AccAddress_String providers = None
  /\ ValidateInput input = None
  /\ 0 < timeout.
Proof.
  unfold ValidateRequest. rewrite !or_else_nil.
  intros (Hname & Hcap & Hprov & Hinput & Hrest).
  repeat (split; [assumption|]).
  destruct (Z.leb_spec timeout 0); [discriminate Hrest|lia].
Qed.

Lemma ValidateContextID_nil (contextID : list byte) :
  ValidateContextID contextID = None <-> length contextID = 40%nat.
Proof.
  unfold ValidateContextID, ContextIDLen.
  destruct (decide (length contextID ≠ 40%nat)) as [Hne|Heq].
  - split; [discriminate|contradiction].
  - split; [|reflexivity]. intros _.
    destruct (Nat.eq_dec (length contextID) 40%nat); [assumption|contradiction].
Qed.

Lemma ValidateRequestID_nil (reqID : list byte) :
  ValidateRequestID reqID = None <-> length reqID = 58%nat.
Proof.
  unfold ValidateRequestID, RequestIDLen.
  destruct (decide (length reqID ≠ 58%nat)) as [Hne|Heq].
  - split; [discriminate|contradiction].
  - split; [|reflexivity]. intros _.
    destruct (Nat.eq_dec (length reqID) 58%nat); [assumption|contradiction].
Qed.

End Composition.

(** * The specification's claims *)

(** ** Identifier codec *)

(** C2.  For every 32-byte transaction hash [h] and every int64 message
    index [i], splitting the context ID generated from [(h, i)] succeeds
    (no panic, [nil] error) and returns exactly [(h, i)]. *)
Theorem context_id_round_trip (h : list byte) (i : Z) :
  length h = 32%nat -> is_int64 i ->
  GenerateRequestContextID h i ≫= SplitRequestContextID = Some (h, i, None).
Proof.
  intros Hh Hi.
  rewrite GenerateRequestContextID_bytes. cbn [mbind option_bind].
  rewrite SplitRequestContextID_bytes by auto using uint64_range.
  rewrite int64_uint64 by done. reflexivity.
Qed.

Lemma context_id_round_trip_witness :
  length (replicate 32 Byte.xab) = 32%nat /\ is_int64 (-5) /\
  GenerateRequestContextID (replicate 32 Byte.xab) (-5)
    ≫= SplitRequestContextID
  = Some (replicate 32 Byte.xab, -5, None).
Proof.
  assert (Hi : is_int64 (-5)) by (unfold is_int64; lia).
  exact (conj eq_refl (conj Hi
    (context_id_round_trip (replicate 32 Byte.xab) (-5) eq_refl Hi))).
Defined.

(** C3.  For every 40-byte context ID [c], uint64 batch counter [b],
    int64 request height [ht] and int16 batch index [idx], splitting the
    request ID generated from them succeeds and returns exactly
    [(c, b, ht, idx)]. *)
Theorem request_id_round_trip (c : list byte) (b ht idx : Z) :
  length c = 40%nat -> is_uint64 b -> is_int64 ht -> is_int16 idx ->
  GenerateRequestID c b ht idx ≫= SplitRequestID
  = Some (c, b, ht, idx, None).
Proof.
  intros Hc Hb Hht Hidx.
  rewrite GenerateRequestID_bytes. cbn [mbind option_bind].
  rewrite SplitRequestID_bytes by auto using uint64_range, uint16_range.
  rewrite int64_uint64, int16_uint16 by done. reflexivity.
Qed.

Lemma request_id_round_trip_witness :
  length (replicate 40 Byte.x3c) = 40%nat /\ is_uint64 (2 ^ 64 - 1) /\
  is_int64 (- 2 ^ 63) /\ is_int16 (-1) /\
  GenerateRequestID (replicate 40 Byte.x3c) (2 ^ 64 - 1) (- 2 ^ 63) (-1)
    ≫= SplitRequestID
  = Some (replicate 40 Byte.x3c, 2 ^ 64 - 1, - 2 ^ 63, -1, None).
Proof.
  assert (Hb : is_uint64 (2 ^ 64 - 1)) by (unfold is_uint64; lia).
  assert (Hh : is_int64 (- 2 ^ 63)) by (unfold is_int64; lia).
  assert (Hi : is_int16 (-1)) by (unfold is_int16; lia).
  exact (conj eq_refl (conj Hb (conj Hh (conj Hi
    (request_id_round_trip (replicate 40 Byte.x3c) _ _ _ eq_refl Hb Hh Hi))))).
Defined.

(** C4.  [GenerateRequestContextID] is injective on 32-byte hashes paired
    with int64 message indices: distinct pairs give distinct context IDs.
    Likewise [GenerateRequestID], at one context ID, batch counter and
    request height, gives distinct request IDs for distinct int16
    batch-local indices. *)
Theorem generated_ids_distinct :
  (forall (h1 h2 : list byte) (i1 i2 : Z),
     length h1 = 32%nat -> length h2 = 32%nat ->
     is_int64 i1 -> is_int64 i2 ->
     (h1, i1) <> (h2, i2) ->
     exists id1 id2,
       GenerateRequestContextID h1 i1 = Some id1 /\
       GenerateRequestContextID h2 i2 = Some id2 /\ id1 <> id2) /\
  (forall (c : list byte) (b ht idx1 idx2 : Z),
     is_int16 idx1 -> is_int16 idx2 -> idx1 <> idx2 ->
     exists id1 id2,
       GenerateRequestID c b ht idx1 = Some id1 /\
       GenerateRequestID c b ht idx2 = Some id2 /\ id1 <> id2).
Proof.
  split.
  - intros h1 h2 i1 i2 Hh1 Hh2 Hi1 Hi2 Hne.
    eexists _, _. rewrite !GenerateRequestContextID_bytes.
    split; [reflexivity|]. split; [reflexivity|].
    intros Heq. apply Hne.
    pose proof (SplitRequestContextID_bytes h1 _ Hh1 (uint64_range i1)) as E1.
    pose proof (SplitRequestContextID_bytes h2 _ Hh2 (uint64_range i2)) as E2.
    rewrite Heq, E2 in E1.
    rewrite !int64_uint64 in E1 by done. congruence.
  - intros c b ht idx1 idx2 Hi1 Hi2 Hne.
    eexists _, _. rewrite !GenerateRequestID_bytes.
    split; [reflexivity|]. split; [reflexivity|].
    intros Heq. apply Hne.
    do 3 apply app_inv_head in Heq.
    pose proof (Uint16_bytes16 _ (uint16_range idx1)) as E1.
    rewrite Heq, (Uint16_bytes16 _ (uint16_range idx2)) in E1.
    rewrite <- (int16_uint16 idx1), <- (int16_uint16 idx2) by done.
    congruence.
Qed.

Lemma generated_ids_distinct_witness :
  (exists id1 id2,
     GenerateRequestContextID (replicate 32 Byte.x00) 1 = Some id1 /\
     GenerateRequestContextID (replicate 32 Byte.x00) 2 = Some id2 /\
     id1 <> id2) /\
  (exists id1 id2,
     GenerateRequestID (replicate 40 Byte.x00) 1 100 0 = Some id1 /\
     GenerateRequestID (replicate 40 Byte.x00) 1 100 1 = Some id2 /\
     id1 <> id2).
Proof.
  split.
  - apply (proj1 generated_ids_distinct
             (replicate 32 Byte.x00) (replicate 32 Byte.x00) 1 2).
    + reflexivity.
    + reflexivity.
    + unfold is_int64; lia.
    + unfold is_int64; lia.
    + intros H; discriminate H.
  - apply (proj2 generated_ids_distinct (replicate 40 Byte.x00) 1 100 0 1).
    + unfold is_int16; lia.
    + unfold is_int16; lia.
    + lia.
Defined.

(** ** Validation *)

(** C8.  [ValidateServiceName] accepts a name exactly when the name
    matches [^[A-Za-z][A-Za-z0-9_-]*$] and is at most 70 bytes long, and
    a rejection has the error kind [ErrInvalidServiceName]. *)
Theorem ValidateServiceName_accepts (name : string) :
  (ValidateServiceName name = None
   <-> Spec.matches_service_name_pattern name
       /\ (String.length name <= 70)%nat)
  /\ (ValidateServiceName name = None
      \/ ValidateServiceName name
         = Some (sdkerrors_Wrap ErrInvalidServiceName)).
Proof.
  unfold ValidateServiceName, MaxNameLength.
  pose proof (MatchString_reServiceName name) as Hre.
  destruct (Regexp.MatchString reServiceName name);
    destruct (Nat.ltb_spec 70 (String.length name)); simpl.
  - split; [|auto]. split; [discriminate|]. intros [_ ?]; lia.
  - split; [|auto]. split; [|reflexivity]. intros _.
    split; [apply Hre; reflexivity|assumption].
  - split; [|auto]. split; [discriminate|]. intros [_ ?]; lia.
  - split; [|auto]. split; [discriminate|]. intros [Hm _].
    apply Hre in Hm. discriminate.
Qed.

(** C5.  [ValidateOutput] accepts exactly when the code is 200 and the
    output is non-empty valid JSON, or the code is not 200 and the output
    is empty; a rejection has the error kind [ErrInvalidResponse].  Code
    200 with an empty output and code 400 with a non-empty output are
    rejected, and code 200 with the output [{"x":1}] is accepted. *)
Theorem ValidateOutput_accepts :
  (forall (code : Z) (output : string),
     (ValidateOutput code output = None
      <-> (code = 200 /\ output <> EmptyString
           /\ Json.Valid (list_byte_of_string output) = true)
          \/ (code <> 200 /\ output = EmptyString))
     /\ (ValidateOutput code output = None
         \/ ValidateOutput code output
            = Some (sdkerrors_Wrap ErrInvalidResponse)))
  /\ ValidateOutput 200 EmptyString
     = Some (sdkerrors_Wrap ErrInvalidResponse)
  /\ ValidateOutput 400 Spec.output_x1
     = Some (sdkerrors_Wrap ErrInvalidResponse)
  /\ ValidateOutput 200 Spec.output_x1 = None.
Proof.
  split; [|repeat split; vm_compute; reflexivity].
  intros code output. unfold ValidateOutput.
  destruct (Z.eqb_spec code 200) as [Hc|Hc];
    destruct output as [|c output]; cbn [String.length Nat.eqb Nat.ltb
      Nat.leb andb negb].
  - split; [|auto]. split; [discriminate|].
    intros [(_ & Hne & _)|[? _]]; congruence.
  - destruct (Json.Valid _) eqn:Hv; cbn [negb].
    + split; [|auto]. split; [|reflexivity]. intros _. left.
      repeat split; [assumption|discriminate].
    + split; [|auto]. split; [discriminate|].
      intros [(_ & _ & ?)|[? _]]; congruence.
  - split; [|auto]. split; [|reflexivity]. intros _. right. auto.
  - split; [|auto]. split; [discriminate|].
    intros [(? & _)|[_ ?]]; congruence.
Qed.

(** C10.  [rc.Empty()] is true exactly when [rc.Consumer] has length 0,
    whatever the other fields hold: a context with every parameter,
    counter and state populated and an empty consumer is empty, and a
    context with a non-empty consumer is not. *)
Theorem RequestContext_Empty_consumer :
  (forall rc : RequestContext,
     RequestContext_Empty rc = true <-> length (Consumer rc) = 0%nat)
  /\ (forall serviceName providers consumer input serviceFeeCap timeout
        superMode repeated repeatedFrequency repeatedTotal batchCounter
        batchRequestCount batchResponseCount batchResponseThreshold
        batchState state responseThreshold moduleName,
        RequestContext_Empty
          (NewRequestContext serviceName providers consumer input
             serviceFeeCap timeout superMode repeated repeatedFrequency
             repeatedTotal batchCounter batchRequestCount batchResponseCount
             batchResponseThreshold batchState state responseThreshold
             moduleName)
        = (length consumer =? 0)%nat)
  /\ RequestContext_Empty
       (NewRequestContext "oracle" [[x01]; [x02]] [] "[1,2]"
          [mkCoin "stake" 5] 100 true true 200 (-1) 7 2 1 1 BATCHRUNNING
          PAUSED 2 "oracle")
     = true.
Proof.
  split; [|split].
  - intros rc. unfold RequestContext_Empty. apply Nat.eqb_eq.
  - reflexivity.
  - reflexivity.
Qed.

(** C1.  For a request whose service name, fee cap, provider list and
    input are each valid, [ValidateRequest] accepts exactly when the
    timeout is positive and, if the request is repeated, the frequency is
    0 or at least the timeout and the total is -1 or positive. *)
Theorem ValidateRequest_accepts
    (Coins_IsValid : Coins → bool) (AccAddress_String : AccAddress → string)
    (serviceName : string) (serviceFeeCap : Coins)
    (providers : list AccAddress) (input : string) (timeout : Z)
    (repeated : bool) (repeatedFrequency repeatedTotal : Z) :
  ValidateServiceName serviceName = None ->
  ValidateServiceFeeCap Coins_IsValid serviceFeeCap = None ->
  ValidateProvidersNoEmpty AccAddress_String providers = None ->
  ValidateInput input = None ->
  is_int64 timeout -> is_uint64 repeatedFrequency ->
  (ValidateRequest Coins_IsValid AccAddress_String serviceName serviceFeeCap
     providers input timeout repeated repeatedFrequency repeatedTotal = None
   <-> timeout > 0
       /\ (repeated = true ->
           (repeatedFrequency = 0 \/ repeatedFrequency >= timeout)
           /\ (repeatedTotal = -1 \/ repeatedTotal > 0))).
Proof.
  intros Hname Hcap Hprov Hinput Htimeout Hfreq.
  unfold ValidateRequest. rewrite Hname, Hcap, Hprov, Hinput.
  cbn [or_else]. unfold is_int64, is_uint64 in *.
  destruct (Z.leb_spec timeout 0) as [Hle|Hgt].
  { split; [discriminate|]. intros [? _]. lia. }
  rewrite uint64_small by (unfold is_uint64; lia).
  destruct repeated.
  2: { split; [|reflexivity]. intros _. split; [lia|discriminate]. }
  destruct (Z.ltb_spec 0 repeatedFrequency),
    (Z.ltb_spec repeatedFrequency timeout),
    (Z.ltb_spec repeatedTotal (-1)), (Z.eqb_spec repeatedTotal 0);
    cbn [andb orb];
    (split;
     [first [discriminate|intros _; split; [lia|intros _; lia]]
     |first [reflexivity
            |intros [_ Hrep]; specialize (Hrep eq_refl); exfalso; lia]]).
Qed.

Lemma ValidateRequest_accepts_witness :
  ValidateRequest (λ coins, forallb (λ c, 0 <? Amount c) coins)
    string_of_list_byte "oracle-price_2" [mkCoin "stake" 10]
    [[x01; x02]; [x03]] "[1,2]" 100 true 100 (-1) = None
  <-> 100 > 0
      /\ (true = true ->
          (100 = 0 \/ 100 >= 100) /\ (-1 = -1 \/ -1 > 0)).
Proof.
  apply (ValidateRequest_accepts
           (λ coins, forallb (λ c, 0 <? Amount c) coins)
           string_of_list_byte "oracle-price_2" [mkCoin "stake" 10]
           [[x01; x02]; [x03]] "[1,2]" 100 true 100 (-1)).
  - vm_compute; reflexivity.
  - vm_compute; reflexivity.
  - vm_compute; reflexivity.
  - vm_compute; reflexivity.
  - unfold is_int64; lia.
  - unfold is_uint64; lia.
Defined.

(** C6.  [ValidateRequestContextUpdating] accepts exactly when the
    provider list has at most 10 entries and no duplicate address (the
    empty list is allowed), the fee cap is empty or a valid coin set, the
    timeout is not negative, the timeout is 0 or the frequency is 0 or at
    least the timeout, and the total is at least -1.  The code compares
    the addresses by their text; as that text determines the address,
    the provider list itself has no duplicate. *)
Theorem ValidateRequestContextUpdating_accepts
    (Coins_IsValid : Coins → bool) (AccAddress_String : AccAddress → string)
    (providers : list AccAddress) (serviceFeeCap : Coins)
    (timeout repeatedFrequency repeatedTotal : Z) :
  is_int64 timeout -> is_uint64 repeatedFrequency ->
  (ValidateRequestContextUpdating Coins_IsValid AccAddress_String providers
     serviceFeeCap timeout repeatedFrequency repeatedTotal = None
   <-> ((length providers <= 10)%nat
        /\ List.NoDup (List.map AccAddress_String providers))
       /\ (serviceFeeCap = [] \/ Coins_IsValid serviceFeeCap = true)
       /\ timeout >= 0
       /\ (timeout = 0 \/ repeatedFrequency = 0
           \/ repeatedFrequency >= timeout)
       /\ repeatedTotal >= -1)
  /\ ((forall a b, AccAddress_String a = AccAddress_String b -> a = b) ->
      (ValidateRequestContextUpdating Coins_IsValid AccAddress_String
         providers serviceFeeCap timeout repeatedFrequency repeatedTotal
       = None
       <-> ((length providers <= 10)%nat /\ List.NoDup providers)
           /\ (serviceFeeCap = [] \/ Coins_IsValid serviceFeeCap = true)
           /\ timeout >= 0
           /\ (timeout = 0 \/ repeatedFrequency = 0
               \/ repeatedFrequency >= timeout)
           /\ repeatedTotal >= -1)).
Proof.
  intros Htimeout Hfreq.
  assert (Hmain :
    ValidateRequestContextUpdating Coins_IsValid AccAddress_String providers
      serviceFeeCap timeout repeatedFrequency repeatedTotal = None
    <-> ((length providers <= 10)%nat
         /\ List.NoDup (List.map AccAddress_String providers))
        /\ (serviceFeeCap = [] \/ Coins_IsValid serviceFeeCap = true)
        /\ timeout >= 0
        /\ (timeout = 0 \/ repeatedFrequency = 0
            \/ repeatedFrequency >= timeout)
        /\ repeatedTotal >= -1).
  { unfold ValidateRequestContextUpdating.
    pose proof (ValidateProvidersCanEmpty_nil AccAddress_String providers)
      as Hprov.
    pose proof (fee_cap_check_nil Coins_IsValid serviceFeeCap) as Hcap.
    destruct (ValidateProvidersCanEmpty _ _); cbn [or_else].
    { split; [discriminate|]. intros [Hp _]. apply Hprov in Hp.
      discriminate. }
    destruct (if negb (Coins_Empty serviceFeeCap) then _ else _);
      cbn [or_else].
    { split; [discriminate|]. intros (_ & Hc & _). apply Hcap in Hc.
      discriminate. }
    assert (Hp : (length providers <= 10)%nat
                 /\ List.NoDup (List.map AccAddress_String providers))
      by (apply Hprov; reflexivity).
    assert (Hc : serviceFeeCap = [] \/ Coins_IsValid serviceFeeCap = true)
      by (apply Hcap; reflexivity).
    unfold is_int64, is_uint64 in *.
    destruct (Z.ltb_spec timeout 0) as [Hneg|Hnn].
    { split; [discriminate|]. intros (_ & _ & ? & _). lia. }
    rewrite uint64_small by (unfold is_uint64; lia).
    destruct (Z.eqb_spec timeout 0), (Z.eqb_spec repeatedFrequency 0),
      (Z.ltb_spec repeatedFrequency timeout),
      (Z.ltb_spec repeatedTotal (-1)); cbn [andb negb];
      (split;
       [first [discriminate
              |intros _; split; [exact Hp|split; [exact Hc|lia]]]
       |first [reflexivity|intros (_ & _ & ? & ? & ?); exfalso; lia]]). }
  split; [exact Hmain|].
  intros Hinj. rewrite Hmain.
  rewrite (NoDup_map_inj AccAddress_String providers Hinj). reflexivity.
Qed.

Lemma ValidateRequestContextUpdating_accepts_witness :
  ValidateRequestContextUpdating
    (λ coins, forallb (λ c, 0 <? Amount c) coins) string_of_list_byte
    [[x01; x02]; [x03]] [] 0 50 (-1) = None
  <-> ((length [[x01; x02]; [x03]] <= 10)%nat
       /\ List.NoDup (List.map string_of_list_byte [[x01; x02]; [x03]]))
      /\ (@nil Coin = []
          \/ (λ coins, forallb (λ c, 0 <? Amount c) coins) [] = true)
      /\ 0 >= 0
      /\ (0 = 0 \/ 50 = 0 \/ 50 >= 0)
      /\ -1 >= -1.
Proof.
  apply (ValidateRequestContextUpdating_accepts
           (λ coins, forallb (λ c, 0 <? Amount c) coins) string_of_list_byte
           [[x01; x02]; [x03]] [] 0 50 (-1)).
  - unfold is_int64; lia.
  - unfold is_uint64; lia.
Defined.

(** C7.  A rejected repeated total has the error kind
    [ErrInvalidRepeatedTotal].  [ValidateRequest] does so: a repeated
    request that is accepted with the total -1 is rejected with that kind
    for a total below -1 or equal to 0.  [ValidateRequestContextUpdating]
    does not: an update that is accepted with the total -1 is rejected
    for a total below -1 with [ErrInvalidRepeatedFreq], the kind of a
    wrong frequency. *)
Theorem repeated_total_error_kind
    (Coins_IsValid : Coins → bool) (AccAddress_String : AccAddress → string)
    (serviceName : string) (serviceFeeCap : Coins)
    (providers : list AccAddress) (input : string)
    (timeout repeatedFrequency repeatedTotal : Z) :
  (ValidateRequest Coins_IsValid AccAddress_String serviceName serviceFeeCap
     providers input timeout true repeatedFrequency (-1) = None ->
   repeatedTotal < -1 \/ repeatedTotal = 0 ->
   ValidateRequest Coins_IsValid AccAddress_String serviceName serviceFeeCap
     providers input timeout true repeatedFrequency repeatedTotal
   = Some (sdkerrors_Wrap ErrInvalidRepeatedTotal))
  /\ (ValidateRequestContextUpdating Coins_IsValid AccAddress_String
        providers serviceFeeCap timeout repeatedFrequency (-1) = None ->
      repeatedTotal < -1 ->
      ValidateRequestContextUpdating Coins_IsValid AccAddress_String
        providers serviceFeeCap timeout repeatedFrequency repeatedTotal
      = Some (sdkerrors_Wrap ErrInvalidRepeatedFreq)).
Proof.
  split.
  - unfold ValidateRequest. intros Hok Htotal.
    destruct (ValidateServiceName _); [discriminate|].
    destruct (ValidateServiceFeeCap _ _); [discriminate|].
    destruct (ValidateProvidersNoEmpty _ _); [discriminate|].
    destruct (ValidateInput _); [discriminate|].
    cbn [or_else] in *.
    destruct (timeout <=? 0); [discriminate|].
    destruct (_ && _); [discriminate|].
    destruct (Z.ltb_spec repeatedTotal (-1)), (Z.eqb_spec repeatedTotal 0);
      try reflexivity. lia.
  - unfold ValidateRequestContextUpdating. intros Hok Htotal.
    destruct (ValidateProvidersCanEmpty _ _); [discriminate|].
    destruct (if negb (Coins_Empty serviceFeeCap) then _ else _);
      [discriminate|].
    cbn [or_else] in *.
    destruct (timeout <? 0); [discriminate|].
    destruct (_ && _); [discriminate|].
    destruct (Z.ltb_spec repeatedTotal (-1)); [reflexivity|lia].
Qed.

Lemma repeated_total_error_kind_witness :
  ValidateRequest (λ coins, forallb (λ c, 0 <? Amount c) coins)
    string_of_list_byte "oracle" [] [[x01]] "{}" 100 true 0 0
  = Some (sdkerrors_Wrap ErrInvalidRepeatedTotal)
  /\ ValidateRequestContextUpdating
       (λ coins, forallb (λ c, 0 <? Amount c) coins) string_of_list_byte
       [] [] 0 0 (-2)
     = Some (sdkerrors_Wrap ErrInvalidRepeatedFreq).
Proof.
  split.
  - apply (proj1 (repeated_total_error_kind
                    (λ coins, forallb (λ c, 0 <? Amount c) coins)
                    string_of_list_byte "oracle" [] [[x01]] "{}" 100 0 0)).
    + vm_compute; reflexivity.
    + right; reflexivity.
  - apply (proj2 (repeated_total_error_kind
                    (λ coins, forallb (λ c, 0 <? Amount c) coins)
                    string_of_list_byte "oracle" [] [] "{}" 0 0 (-2))).
    + vm_compute; reflexivity.
    + lia.
Defined.

(** ** Unmarshalling the states *)

(** C9, at the input [null].  The text [null] is not a JSON string, and
    [UnmarshalJSON] of both state types returns an error on it: the
    decoder leaves the string variable empty and reports no error, and
    the empty string names no state.  (The text is ASCII, so the Unicode
    path of [strings.ToLower], here the identity, is not taken.) *)
Lemma UnmarshalJSON_null_is_an_error :
  ~ Spec.is_JSON_string (list_byte_of_string "null")
  /\ RequestContextState_UnmarshalJSON (λ s, s) RUNNING
       (list_byte_of_string "null")
     = Some (RUNNING,
             Some (fmt_Errorf "'' is not a valid request context state"))
  /\ RequestContextBatchState_UnmarshalJSON (λ s, s) BATCHRUNNING
       (list_byte_of_string "null")
     = Some (BATCHRUNNING,
             Some (fmt_Errorf
                     "'' is not a valid request context batch state")).
Proof.
  split; [|split; vm_compute; reflexivity].
  intros [_ Hfirst]. vm_compute in Hfirst. discriminate Hfirst.
Qed.

(** C9, amended.  For both state types, [UnmarshalJSON] applied to an
    input that is neither a JSON string nor the JSON value [null]
    (malformed text, a number, a boolean, an array, an object) returns a
    nil error and leaves the receiver unchanged.  Applied to [null] it
    returns the error of the empty name and leaves the receiver
    unchanged.  Applied to a JSON string it decodes the string, without
    panic, and sets the receiver to the state the lowered string names,
    or returns the error of the unknown name and leaves the receiver
    unchanged.  So an error comes from [null] or from a string only. *)
Theorem UnmarshalJSON_of_states
    (unicode_lower : string → string) (state : byte) (data : list byte) :
  (~ Spec.is_JSON_string data -> ~ Spec.is_JSON_null data ->
   RequestContextState_UnmarshalJSON unicode_lower state data
   = Some (state, None)
   /\ RequestContextBatchState_UnmarshalJSON unicode_lower state data
      = Some (state, None))
  /\ (Spec.is_JSON_null data ->
      RequestContextState_UnmarshalJSON unicode_lower state data
      = Some (state,
              Some (fmt_Errorf "'' is not a valid request context state"))
      /\ RequestContextBatchState_UnmarshalJSON unicode_lower state data
         = Some (state,
                 Some (fmt_Errorf
                         "'' is not a valid request context batch state")))
  /\ (Spec.is_JSON_string data ->
      exists s,
        Json.Unmarshal_string data EmptyString = Some (s, None)
        /\ RequestContextState_UnmarshalJSON unicode_lower state data
           = Some
               match
                 StringToRequestContextStateMap
                   !! Strings.ToLower unicode_lower s
               with
               | Some named => (named, None)
               | None =>
                   (state,
                    Some (fmt_Errorf
                            ("'" ++ s
                             ++ "' is not a valid request context state")))
               end
        /\ RequestContextBatchState_UnmarshalJSON unicode_lower state data
           = Some
               match
                 StringToRequestContextBatchStateMap
                   !! Strings.ToLower unicode_lower s
               with
               | Some named => (named, None)
               | None =>
                   (state,
                    Some (fmt_Errorf
                            ("'" ++ s
                             ++ "' is not a valid request context batch state")))
               end)
  /\ (forall state' e,
        RequestContextState_UnmarshalJSON unicode_lower state data
        = Some (state', Some e)
        \/ RequestContextBatchState_UnmarshalJSON unicode_lower state data
           = Some (state', Some e) ->
        state' = state
        /\ (Spec.is_JSON_null data \/ Spec.is_JSON_string data)).
Proof.
  unfold RequestContextState_UnmarshalJSON,
    RequestContextBatchState_UnmarshalJSON,
    RequestContextStateFromString, RequestContextBatchStateFromString.
  split; [|split; [|split]].
  - intros Hstring Hnull.
    destruct (Unmarshal_string_of_other data EmptyString Hstring Hnull)
      as (e & ->).
    split; reflexivity.
  - intros Hnull.
    rewrite (Unmarshal_string_of_null data EmptyString Hnull).
    split; reflexivity.
  - intros Hstring.
    destruct (Unmarshal_string_of_string data EmptyString Hstring)
      as (s & ->).
    exists s. split; [reflexivity|]. cbn [mbind option_bind].
    split.
    + destruct (StringToRequestContextStateMap !! _); reflexivity.
    + destruct (StringToRequestContextBatchStateMap !! _); reflexivity.
  - intros state' e Herr.
    destruct (Json.Unmarshal_string data EmptyString)
      as [[s [e'|]]|] eqn:Hdec; cbn [mbind option_bind] in Herr.
    + destruct Herr as [Herr|Herr]; discriminate Herr.
    + assert (Hkind : Spec.is_JSON_null data \/ Spec.is_JSON_string data).
      { destruct (Json.Valid data) eqn:Hvalid.
        - destruct (Unmarshal_string_valid data EmptyString Hvalid)
            as (c & rest & Hc & [(-> & _)|[(-> & _)|(_ & _ & v & Hv)]]).
          + right. split; assumption.
          + left. split; assumption.
          + congruence.
        - destruct (Unmarshal_string_invalid data EmptyString Hvalid)
            as (msg & Hmsg).
          congruence. }
      split; [|exact Hkind].
      destruct Herr as [Herr|Herr].
      * destruct (StringToRequestContextStateMap !! _);
          first [discriminate Herr|injection Herr as <- _; reflexivity].
      * destruct (StringToRequestContextBatchStateMap !! _);
          first [discriminate Herr|injection Herr as <- _; reflexivity].
    + destruct Herr as [Herr|Herr]; discriminate Herr.
Qed.

Lemma UnmarshalJSON_of_states_witness :
  (RequestContextState_UnmarshalJSON (λ s, s) PAUSED
     (list_byte_of_string "{}") = Some (PAUSED, None)
   /\ RequestContextBatchState_UnmarshalJSON (λ s, s) PAUSED
        (list_byte_of_string "{}") = Some (PAUSED, None))
  /\ (RequestContextState_UnmarshalJSON (λ s, s) PAUSED
        (list_byte_of_string " null ")
      = Some (PAUSED,
              Some (fmt_Errorf "'' is not a valid request context state"))
      /\ RequestContextBatchState_UnmarshalJSON (λ s, s) PAUSED
           (list_byte_of_string " null ")
         = Some (PAUSED,
                 Some (fmt_Errorf
                         "'' is not a valid request context batch state"))).
Proof.
  split.
  - apply (proj1 (UnmarshalJSON_of_states (λ s, s) PAUSED
                    (list_byte_of_string "{}"))).
    + intros [_ Hfirst]. vm_compute in Hfirst. discriminate Hfirst.
    + intros [_ Hfirst]. vm_compute in Hfirst. discriminate Hfirst.
  - apply (proj1 (proj2 (UnmarshalJSON_of_states (λ s, s) PAUSED
                           (list_byte_of_string " null ")))).
    split; vm_compute; reflexivity.
Defined.

(** * Further properties of the code *)

(** ** Identifiers *)

(** X1.  [SplitRequestContextID] never panics.  On an ID that is not 40
    bytes long it returns the error with a nil hash and index 0, and
    these are the IDs [ValidateContextID] rejects.  On a 40-byte ID it
    returns no error, a 32-byte hash and an index, and generating the ID
    of that hash and index gives the ID back. *)
Theorem SplitRequestContextID_inverse (contextID : list byte) :
  (length contextID <> 40%nat ->
   SplitRequestContextID contextID
   = Some ([], 0, Some (errors_New "invalid request context ID"))
   /\ ValidateContextID contextID
      = Some (sdkerrors_Wrap ErrInvalidRequestContextID))
  /\ (length contextID = 40%nat ->
      ValidateContextID contextID = None
      /\ exists txHash msgIndex,
           SplitRequestContextID contextID = Some (txHash, msgIndex, None)
           /\ length txHash = 32%nat /\ is_int64 msgIndex
           /\ GenerateRequestContextID txHash msgIndex = Some contextID).
Proof.
  unfold SplitRequestContextID, ValidateContextID, ContextIDLen. split.
  - intros Hlen. rewrite !decide_True by exact Hlen. split; reflexivity.
  - intros Hlen. rewrite !decide_False by (rewrite Hlen; auto).
    split; [reflexivity|].
    rewrite !slice_in_range by lia. cbn [mbind option_bind].
    destruct (length_8 (take (40 - 32) (drop 32 contextID)))
      as (b0 & b1 & b2 & b3 & b4 & b5 & b6 & b7 & Hb).
    { rewrite length_take, length_drop. lia. }
    rewrite Hb.
    change (BigEndian.Uint64 [b0; b1; b2; b3; b4; b5; b6; b7])
      with (Some (value64 b0 b1 b2 b3 b4 b5 b6 b7)).
    cbn [mbind option_bind].
    eexists _, _. split; [reflexivity|].
    split; [rewrite length_take, length_drop; lia|].
    split; [apply int64_range|].
    rewrite GenerateRequestContextID_bytes.
    rewrite uint64_int64 by apply value64_range.
    rewrite bytes64_value64, <- Hb, drop_0.
    rewrite (take_ge (drop 32 contextID)) by (rewrite length_drop; lia).
    change (32 - 0)%nat with 32%nat.
    rewrite take_drop. reflexivity.
Qed.

Lemma SplitRequestContextID_inverse_witness :
  ValidateContextID (replicate 40 x7f) = None
  /\ exists txHash msgIndex,
       SplitRequestContextID (replicate 40 x7f)
       = Some (txHash, msgIndex, None)
       /\ length txHash = 32%nat /\ is_int64 msgIndex
       /\ GenerateRequestContextID txHash msgIndex
          = Some (replicate 40 x7f).
Proof.
  apply (proj2 (SplitRequestContextID_inverse (replicate 40 x7f))).
  reflexivity.
Defined.

(** X2.  [SplitRequestID] never panics.  On an ID that is not 58 bytes
    long it returns the error with nil and zero values, and these are
    the IDs [ValidateRequestID] rejects.  On a 58-byte ID it returns no
    error, a 40-byte context ID, a uint64 counter, an int64 height and
    an int16 index, and generating the request ID of these gives the ID
    back. *)
Theorem SplitRequestID_inverse (requestID : list byte) :
  (length requestID <> 58%nat ->
   SplitRequestID requestID
   = Some ([], 0, 0, 0, Some (errors_New "invalid request ID"))
   /\ ValidateRequestID requestID
      = Some (sdkerrors_Wrap ErrInvalidRequestID))
  /\ (length requestID = 58%nat ->
      ValidateRequestID requestID = None
      /\ exists contextID batchCounter requestHeight batchRequestIndex,
           SplitRequestID requestID
           = Some (contextID, batchCounter, requestHeight,
                   batchRequestIndex, None)
           /\ length contextID = 40%nat /\ is_uint64 batchCounter
           /\ is_int64 requestHeight /\ is_int16 batchRequestIndex
           /\ GenerateRequestID contextID batchCounter requestHeight
                batchRequestIndex = Some requestID).
Proof.
  unfold SplitRequestID, ValidateRequestID, RequestIDLen, Slice.slice_from.
  split.
  - intros Hlen. rewrite !decide_True by exact Hlen. split; reflexivity.
  - intros Hlen. rewrite !decide_False by (rewrite Hlen; auto).
    split; [reflexivity|].
    rewrite !slice_in_range by lia. cbn [mbind option_bind].
    destruct (length_8 (take (48 - 40) (drop 40 requestID)))
      as (b0 & b1 & b2 & b3 & b4 & b5 & b6 & b7 & Hb).
    { rewrite length_take, length_drop. lia. }
    destruct (length_8 (take (56 - 48) (drop 48 requestID)))
      as (h0 & h1 & h2 & h3 & h4 & h5 & h6 & h7 & Hh).
    { rewrite length_take, length_drop. lia. }
    destruct (length_2 (take (length requestID - 56) (drop 56 requestID)))
      as (i0 & i1 & Hi).
    { rewrite length_take, length_drop. lia. }
    rewrite Hb, Hh, Hi.
    change (BigEndian.Uint64 [b0; b1; b2; b3; b4; b5; b6; b7])
      with (Some (value64 b0 b1 b2 b3 b4 b5 b6 b7)).
    change (BigEndian.Uint64 [h0; h1; h2; h3; h4; h5; h6; h7])
      with (Some (value64 h0 h1 h2 h3 h4 h5 h6 h7)).
    change (BigEndian.Uint16 [i0; i1]) with (Some (value16 i0 i1)).
    cbn [mbind option_bind].
    eexists _, _, _, _. split; [reflexivity|].
    split; [rewrite length_take, length_drop; lia|].
    split; [apply value64_range|].
    split; [apply int64_range|]. split; [apply int16_range|].
    rewrite GenerateRequestID_bytes.
    rewrite uint64_int64 by apply value64_range.
    rewrite uint16_int16 by apply value16_range.
    rewrite !bytes64_value64, bytes16_value16, <- Hb, <- Hh, <- Hi.
    rewrite Hlen, drop_0. change (40 - 0)%nat with 40%nat.
    change (48 - 40)%nat with 8%nat. change (56 - 48)%nat with 8%nat.
    change (58 - 56)%nat with 2%nat.
    rewrite request_id_fields by exact Hlen. reflexivity.
Qed.

Lemma SplitRequestID_inverse_witness :
  ValidateRequestID (replicate 58 x80) = None
  /\ exists contextID batchCounter requestHeight batchRequestIndex,
       SplitRequestID (replicate 58 x80)
       = Some (contextID, batchCounter, requestHeight, batchRequestIndex,
               None)
       /\ length contextID = 40%nat /\ is_uint64 batchCounter
       /\ is_int64 requestHeight /\ is_int16 batchRequestIndex
       /\ GenerateRequestID contextID batchCounter requestHeight
            batchRequestIndex = Some (replicate 58 x80).
Proof.
  apply (proj2 (SplitRequestID_inverse (replicate 58 x80))).
  reflexivity.
Defined.

(** X3.  Both generators are injective whatever the length of the hash
    or of the context ID: equal context IDs come from equal hashes and
    equal int64 indices, and equal request IDs come from equal context
    IDs, uint64 counters, int64 heights and int16 indices. *)
Theorem generators_injective :
  (forall (h1 h2 : list byte) (i1 i2 : Z),
     is_int64 i1 -> is_int64 i2 ->
     GenerateRequestContextID h1 i1 = GenerateRequestContextID h2 i2 ->
     h1 = h2 /\ i1 = i2)
  /\ (forall (c1 c2 : list byte) (b1 b2 ht1 ht2 idx1 idx2 : Z),
        is_uint64 b1 -> is_uint64 b2 -> is_int64 ht1 -> is_int64 ht2 ->
        is_int16 idx1 -> is_int16 idx2 ->
        GenerateRequestID c1 b1 ht1 idx1 = GenerateRequestID c2 b2 ht2 idx2 ->
        c1 = c2 /\ b1 = b2 /\ ht1 = ht2 /\ idx1 = idx2).
Proof.
  split.
  - intros h1 h2 i1 i2 Hi1 Hi2. rewrite !GenerateRequestContextID_bytes.
    intros [= Heq]. apply app_inj_2 in Heq as [-> Hi]; [|reflexivity].
    split; [reflexivity|].
    apply bytes64_inj in Hi; auto using uint64_range, uint64_inj_int64.
  - intros c1 c2 b1 b2 ht1 ht2 idx1 idx2 Hb1 Hb2 Hh1 Hh2 Hi1 Hi2.
    rewrite !GenerateRequestID_bytes. intros [= Heq].
    apply app_inj_2 in Heq as [-> Heq]; [|reflexivity].
    split; [reflexivity|].
    destruct (app_inj_1 (BigEndian.bytes64 b1) (BigEndian.bytes64 b2)
                (BigEndian.bytes64 (uint64 ht1)
                 ++ BigEndian.bytes16 (uint16 idx1))
                (BigEndian.bytes64 (uint64 ht2)
                 ++ BigEndian.bytes16 (uint16 idx2)) eq_refl Heq)
      as [Hb Heq'].
    destruct (app_inj_1 (BigEndian.bytes64 (uint64 ht1))
                (BigEndian.bytes64 (uint64 ht2)) _ _ eq_refl Heq')
      as [Hh Hi].
    apply bytes64_inj in Hb; auto.
    apply bytes64_inj in Hh; auto using uint64_range.
    apply bytes16_inj in Hi; auto using uint16_range.
    auto using uint64_inj_int64, uint16_inj_int16.
Qed.

Lemma generators_injective_witness :
  ([x01; x02] = [x01; x02] /\ 7 = 7)
  /\ ([x09] = [x09] /\ 1 = 1 /\ -3 = -3 /\ 2 = 2).
Proof.
  split.
  - apply (proj1 generators_injective [x01; x02] [x01; x02] 7 7).
    + unfold is_int64; lia.
    + unfold is_int64; lia.
    + reflexivity.
  - apply (proj2 generators_injective [x09] [x09] 1 1 (-3) (-3) 2 2).
    + unfold is_uint64; lia.
    + unfold is_uint64; lia.
    + unfold is_int64; lia.
    + unfold is_int64; lia.
    + unfold is_int16; lia.
    + unfold is_int16; lia.
    + reflexivity.
Defined.

(** X4.  The request IDs of one context sort, byte by byte, as their
    batch counter, then their request height, then their batch index
    (heights and indices not negative): the big-endian fields keep the
    order of the numbers. *)
Theorem request_ids_sorted
    (c : list byte) (b1 b2 ht1 ht2 idx1 idx2 : Z) :
  is_uint64 b1 -> is_uint64 b2 ->
  0 <= ht1 < 2 ^ 63 -> 0 <= ht2 < 2 ^ 63 ->
  0 <= idx1 < 2 ^ 15 -> 0 <= idx2 < 2 ^ 15 ->
  b1 < b2 \/ (b1 = b2 /\ (ht1 < ht2 \/ (ht1 = ht2 /\ idx1 < idx2))) ->
  exists id1 id2,
    GenerateRequestID c b1 ht1 idx1 = Some id1
    /\ GenerateRequestID c b2 ht2 idx2 = Some id2
    /\ bytes_lt id1 id2.
Proof.
  intros Hb1 Hb2 Hh1 Hh2 Hi1 Hi2 Hlt.
  eexists _, _. rewrite !GenerateRequestID_bytes.
  split; [reflexivity|]. split; [reflexivity|].
  apply bytes_lt_app.
  assert (Hu1 : uint64 ht1 = ht1) by (apply uint64_small; unfold is_uint64; lia).
  assert (Hu2 : uint64 ht2 = ht2) by (apply uint64_small; unfold is_uint64; lia).
  assert (Hv1 : uint16 idx1 = idx1) by (unfold uint16; apply Z.mod_small; lia).
  assert (Hv2 : uint16 idx2 = idx2) by (unfold uint16; apply Z.mod_small; lia).
  rewrite Hu1, Hu2, Hv1, Hv2.
  destruct Hlt as [Hlt|[-> Hlt]].
  { apply bytes64_lt; assumption. }
  apply bytes_lt_app.
  destruct Hlt as [Hlt|[-> Hlt]].
  { apply bytes64_lt; unfold is_uint64; (lia || assumption). }
  apply bytes_lt_app.
  apply bytes16_lt; unfold is_uint16; lia.
Qed.

Lemma request_ids_sorted_witness :
  exists id1 id2,
    GenerateRequestID (replicate 40 x05) 3 900 4 = Some id1
    /\ GenerateRequestID (replicate 40 x05) 3 1000 0 = Some id2
    /\ bytes_lt id1 id2.
Proof.
  apply (request_ids_sorted (replicate 40 x05) 3 3 900 1000 4 0).
  - unfold is_uint64; lia.
  - unfold is_uint64; lia.
  - lia.
  - lia.
  - lia.
  - lia.
  - right. split; [reflexivity|]. left. lia.
Defined.

(** X5.  [ConvertRequestID] accepts exactly the strings of 116
    hexadecimal digits, in either case.  What it accepts it decodes to
    58 bytes, which [ValidateRequestID] accepts; what it rejects gets a
    nil ID and the error "invalid request id". *)
Theorem ConvertRequestID_accepts (requestIDStr : string) :
  (snd (ConvertRequestID requestIDStr) = None
   <-> String.length requestIDStr = 116%nat
       /\ Forall (λ c, is_Some (Hex.fromHexChar c))
            (list_byte_of_string requestIDStr))
  /\ (snd (ConvertRequestID requestIDStr) = None ->
      length (fst (ConvertRequestID requestIDStr)) = 58%nat
      /\ ValidateRequestID (fst (ConvertRequestID requestIDStr)) = None)
  /\ (snd (ConvertRequestID requestIDStr) <> None ->
      ConvertRequestID requestIDStr
      = ([], Some (errors_New "invalid request id"))).
Proof.
  unfold ConvertRequestID, ValidateRequestID, RequestIDLen, Hex.DecodeString.
  destruct (decide (String.length requestIDStr ≠ (2 * 58)%nat))
    as [Hlen|Hlen].
  { cbn [fst snd]. split; [|split].
    - split; [discriminate|]. intros [? _]. lia.
    - discriminate.
    - reflexivity. }
  assert (Hlen' : String.length requestIDStr = 116%nat) by lia.
  destruct (Decode_ok (list_byte_of_string requestIDStr)) as [Hok Hhalf].
  rewrite length_list_byte_of_string, Hlen' in *.
  destruct (Hex.Decode (list_byte_of_string requestIDStr)) as [d [e|]];
    cbn [fst snd] in *.
  - split; [|split].
    + split; [discriminate|]. intros [_ Hall].
      assert (Hnone : Some e = None)
        by (apply Hok; split; [exists 58%nat; reflexivity|exact Hall]).
      discriminate Hnone.
    + discriminate.
    + reflexivity.
  - split; [|split].
    + split; [|reflexivity]. intros _. split; [reflexivity|].
      apply Hok. reflexivity.
    + intros _. specialize (Hhalf eq_refl).
      assert (Hd : length d = 58%nat) by lia.
      split; [exact Hd|]. rewrite decide_False by (rewrite Hd; auto).
      reflexivity.
    + intros Hne. exfalso. apply Hne. reflexivity.
Qed.

Lemma ConvertRequestID_accepts_witness :
  length (fst (ConvertRequestID
                 (string_of_list_byte (replicate 116 "A"%byte)))) = 58%nat
  /\ ValidateRequestID
       (fst (ConvertRequestID
               (string_of_list_byte (replicate 116 "A"%byte)))) = None.
Proof.
  apply (proj1 (proj2 (ConvertRequestID_accepts
                         (string_of_list_byte (replicate 116 "A"%byte))))).
  vm_compute; reflexivity.
Defined.

(** X6.  [ConvertRequestID] reads back the hexadecimal text of a request
    ID: for every 58-byte ID, converting its lower-case text, or its
    upper-case text, gives the ID. *)
Theorem ConvertRequestID_of_text (requestID : list byte) :
  length requestID = 58%nat ->
  ConvertRequestID (Hex.EncodeToString requestID) = (requestID, None)
  /\ ConvertRequestID (Strings.map upper (Hex.EncodeToString requestID))
     = (requestID, None).
Proof.
  intros Hlen.
  unfold ConvertRequestID, RequestIDLen, Hex.DecodeString, Hex.EncodeToString.
  rewrite length_map_string, length_string_of_list_byte, length_Encode, Hlen.
  rewrite decide_False by (intros H; apply H; reflexivity).
  rewrite list_byte_of_string_map, list_byte_of_string_of_list_byte.
  fold upper_byte.
  change (List.map (λ b, byte_of_ascii (upper (ascii_of_byte b))))
    with (List.map upper_byte).
  rewrite Decode_Encode, Decode_Encode_upper. split; reflexivity.
Qed.

Lemma ConvertRequestID_of_text_witness :
  ConvertRequestID (Hex.EncodeToString (replicate 58 xc4))
  = (replicate 58 xc4, None)
  /\ ConvertRequestID
       (Strings.map upper (Hex.EncodeToString (replicate 58 xc4)))
     = (replicate 58 xc4, None).
Proof.
  apply (ConvertRequestID_of_text (replicate 58 xc4)). reflexivity.
Defined.

(** ** The states and their names *)

(** X7.  Reading a state from its name ignores the case of ASCII letters:
    on ASCII text [RequestContextStateFromString] gives [RUNNING],
    [PAUSED] or [COMPLETED] exactly for the spellings of [running],
    [paused] and [completed], and [RequestContextBatchStateFromString]
    gives [BATCHRUNNING] or [BATCHCOMPLETED] exactly for the spellings of
    [running] and [completed] ([paused] is no batch state).  On any text
    a failure gives the state [0xff] and an error that quotes the text as
    it was given. *)
Theorem state_names_read (unicode_lower : string → string) (str : string) :
  let name := Strings.map Strings.lower str in
  (Strings.all Strings.isASCII str = true ->
   (RequestContextStateFromString unicode_lower str = (RUNNING, None)
    <-> name = "running")
   /\ (RequestContextStateFromString unicode_lower str = (PAUSED, None)
       <-> name = "paused")
   /\ (RequestContextStateFromString unicode_lower str = (COMPLETED, None)
       <-> name = "completed")
   /\ (snd (RequestContextStateFromString unicode_lower str) = None
       <-> name = "running" \/ name = "paused" \/ name = "completed")
   /\ (RequestContextBatchStateFromString unicode_lower str
       = (BATCHRUNNING, None) <-> name = "running")
   /\ (RequestContextBatchStateFromString unicode_lower str
       = (BATCHCOMPLETED, None) <-> name = "completed")
   /\ (snd (RequestContextBatchStateFromString unicode_lower str) = None
       <-> name = "running" \/ name = "completed"))
  /\ (snd (RequestContextStateFromString unicode_lower str) <> None ->
      RequestContextStateFromString unicode_lower str
      = (xff, Some (fmt_Errorf
                      ("'" ++ str ++ "' is not a valid request context state"))))
  /\ (snd (RequestContextBatchStateFromString unicode_lower str) <> None ->
      RequestContextBatchStateFromString unicode_lower str
      = (xff,
         Some (fmt_Errorf
                 ("'" ++ str
                  ++ "' is not a valid request context batch state")))).
Proof.
  intros name. split; [intros Hascii|split].
  - unfold RequestContextStateFromString, RequestContextBatchStateFromString.
    rewrite (ToLower_ascii unicode_lower str Hascii).
    rewrite state_of_name, batch_state_of_name. fold name.
    destruct (decide (name = "running")) as [H1|H1].
    { rewrite H1. cbn [snd].
      repeat split; intros; try discriminate; auto. }
    destruct (decide (name = "paused")) as [H2|H2].
    { rewrite H2.
      destruct (decide ("paused" = "completed")) as [Hd|_];
        [discriminate Hd|].
      cbn [snd].
      repeat split; intros; try discriminate; auto;
        repeat match goal with H : _ \/ _ |- _ => destruct H end;
        discriminate. }
    destruct (decide (name = "completed")) as [H3|H3].
    { rewrite H3. cbn [snd].
      repeat split; intros; try discriminate; auto. }
    cbn [snd].
    repeat split; intros; try discriminate; try contradiction;
      repeat match goal with H : _ \/ _ |- _ => destruct H end;
      contradiction.
  - unfold RequestContextStateFromString.
    destruct (StringToRequestContextStateMap !! _); cbn [snd];
      [intros H; exfalso; apply H; reflexivity|reflexivity].
  - unfold RequestContextBatchStateFromString.
    destruct (StringToRequestContextBatchStateMap !! _); cbn [snd];
      [intros H; exfalso; apply H; reflexivity|reflexivity].
Qed.

Lemma state_names_read_witness :
  RequestContextStateFromString (λ s, s) "PauSed" = (PAUSED, None)
  /\ RequestContextBatchStateFromString (λ s, s) "PauSed"
     = (xff,
        Some (fmt_Errorf
                "'PauSed' is not a valid request context batch state")).
Proof.
  pose proof (state_names_read (λ s, s) "PauSed") as (Hascii & _ & Hbatch).
  specialize (Hascii ltac:(vm_compute; reflexivity)).
  destruct Hascii as (_ & [_ Hpaused] & _).
  split; [apply Hpaused; vm_compute; reflexivity|].
  apply Hbatch. vm_compute. discriminate.
Defined.

(** X8.  The name of a state reads back as the state: [String] followed
    by [RequestContextStateFromString] gives back [RUNNING], [PAUSED] and
    [COMPLETED] (for batches [BATCHRUNNING] and [BATCHCOMPLETED]); every
    other byte has the empty name, which is refused.  In the other
    direction, the name of a state read from ASCII text is that text in
    lower case. *)
Theorem state_name_round_trip (unicode_lower : string → string) :
  (forall state : RequestContextState,
     (state = RUNNING \/ state = PAUSED \/ state = COMPLETED ->
      RequestContextStateFromString unicode_lower
        (RequestContextState_String state) = (state, None))
     /\ (~ (state = RUNNING \/ state = PAUSED \/ state = COMPLETED) ->
         RequestContextState_String state = EmptyString
         /\ snd (RequestContextStateFromString unicode_lower
                   (RequestContextState_String state)) <> None))
  /\ (forall state : RequestContextBatchState,
        (state = BATCHRUNNING \/ state = BATCHCOMPLETED ->
         RequestContextBatchStateFromString unicode_lower
           (RequestContextBatchState_String state) = (state, None))
        /\ (~ (state = BATCHRUNNING \/ state = BATCHCOMPLETED) ->
            RequestContextBatchState_String state = EmptyString
            /\ snd (RequestContextBatchStateFromString unicode_lower
                      (RequestContextBatchState_String state)) <> None))
  /\ (forall str state,
        Strings.all Strings.isASCII str = true ->
        RequestContextStateFromString unicode_lower str = (state, None) ->
        RequestContextState_String state = Strings.map Strings.lower str)
  /\ (forall str state,
        Strings.all Strings.isASCII str = true ->
        RequestContextBatchStateFromString unicode_lower str = (state, None) ->
        RequestContextBatchState_String state
        = Strings.map Strings.lower str).
Proof.
  split; [|split; [|split]].
  - intros state. split.
    + intros [-> | [-> | ->]]; reflexivity.
    + intros Hnot.
      destruct state;
        first [ exfalso; apply Hnot; auto; fail
              | split; [vm_compute; reflexivity|vm_compute; discriminate] ].
  - intros state. split.
    + intros [-> | ->]; reflexivity.
    + intros Hnot.
      destruct state;
        first [ exfalso; apply Hnot; auto; fail
              | split; [vm_compute; reflexivity|vm_compute; discriminate] ].
  - intros str state Hascii. unfold RequestContextStateFromString.
    rewrite (ToLower_ascii unicode_lower str Hascii), state_of_name.
    repeat (destruct (decide _) as [-> | ?]);
      intros [= <-]; reflexivity.
  - intros str state Hascii. unfold RequestContextBatchStateFromString.
    rewrite (ToLower_ascii unicode_lower str Hascii), batch_state_of_name.
    repeat (destruct (decide _) as [-> | ?]);
      intros [= <-]; reflexivity.
Qed.

Lemma state_name_round_trip_witness :
  RequestContextStateFromString (λ s, s) (RequestContextState_String PAUSED)
  = (PAUSED, None)
  /\ RequestContextState_String x07 = EmptyString
  /\ RequestContextBatchStateFromString (λ s, s)
       (RequestContextBatchState_String BATCHCOMPLETED)
     = (BATCHCOMPLETED, None)
  /\ RequestContextBatchState_String x02 = EmptyString
  /\ RequestContextState_String COMPLETED
     = Strings.map Strings.lower "COMPLETED"
  /\ RequestContextBatchState_String BATCHRUNNING
     = Strings.map Strings.lower "Running".
Proof.
  pose proof (state_name_round_trip (λ s, s)) as (Hs & Hb & Hrs & Hrb).
  split; [apply (proj1 (Hs PAUSED)); right; left; reflexivity|].
  split; [apply (proj2 (Hs x07)); intros [H|[H|H]]; discriminate H|].
  split; [apply (proj1 (Hb BATCHCOMPLETED)); right; reflexivity|].
  split; [apply (proj2 (Hb x02)); intros [H|H]; discriminate H|].
  split; [apply Hrs; vm_compute; reflexivity|].
  apply Hrb; vm_compute; reflexivity.
Defined.

(** X9.  The JSON form of a state reads back as the state: for [RUNNING],
    [PAUSED] and [COMPLETED] (for batches [BATCHRUNNING] and
    [BATCHCOMPLETED]) [UnmarshalJSON] of the bytes of [MarshalJSON] sets
    the receiver to the state, whatever it held.  Every other byte is
    marshalled, without an error, to the empty JSON string, which
    [UnmarshalJSON] refuses, leaving the receiver as it was. *)
Theorem state_json_round_trip (unicode_lower : string → string) :
  (forall receiver state : RequestContextState,
     snd (RequestContextState_MarshalJSON state) = None
     /\ (state = RUNNING \/ state = PAUSED \/ state = COMPLETED ->
         RequestContextState_UnmarshalJSON unicode_lower receiver
           (fst (RequestContextState_MarshalJSON state))
         = Some (state, None))
     /\ (~ (state = RUNNING \/ state = PAUSED \/ state = COMPLETED) ->
         fst (RequestContextState_MarshalJSON state)
         = ["034"%byte; "034"%byte]
         /\ RequestContextState_UnmarshalJSON unicode_lower receiver
              (fst (RequestContextState_MarshalJSON state))
            = Some (receiver,
                    Some (fmt_Errorf
                            "'' is not a valid request context state"))))
  /\ (forall receiver state : RequestContextBatchState,
        snd (RequestContextBatchState_MarshalJSON state) = None
        /\ (state = BATCHRUNNING \/ state = BATCHCOMPLETED ->
            RequestContextBatchState_UnmarshalJSON unicode_lower receiver
              (fst (RequestContextBatchState_MarshalJSON state))
            = Some (state, None))
        /\ (~ (state = BATCHRUNNING \/ state = BATCHCOMPLETED) ->
            fst (RequestContextBatchState_MarshalJSON state)
            = ["034"%byte; "034"%byte]
            /\ RequestContextBatchState_UnmarshalJSON unicode_lower receiver
                 (fst (RequestContextBatchState_MarshalJSON state))
               = Some (receiver,
                       Some (fmt_Errorf
                               "'' is not a valid request context batch state")))).
Proof.
  split.
  - intros receiver state. split; [reflexivity|]. split.
    + intros [-> | [-> | ->]]; vm_compute; reflexivity.
    + intros Hnot.
      destruct state;
        first [ exfalso; apply Hnot; auto; fail
              | split; vm_compute; reflexivity ].
  - intros receiver state. split; [reflexivity|]. split.
    + intros [-> | ->]; vm_compute; reflexivity.
    + intros Hnot.
      destruct state;
        first [ exfalso; apply Hnot; auto; fail
              | split; vm_compute; reflexivity ].
Qed.

Lemma state_json_round_trip_witness :
  RequestContextState_UnmarshalJSON (λ s, s) RUNNING
    (fst (RequestContextState_MarshalJSON COMPLETED))
  = Some (COMPLETED, None)
  /\ RequestContextState_UnmarshalJSON (λ s, s) RUNNING
       (fst (RequestContextState_MarshalJSON x03))
     = Some (RUNNING,
             Some (fmt_Errorf "'' is not a valid request context state"))
  /\ RequestContextBatchState_UnmarshalJSON (λ s, s) BATCHRUNNING
       (fst (RequestContextBatchState_MarshalJSON BATCHCOMPLETED))
     = Some (BATCHCOMPLETED, None)
  /\ RequestContextBatchState_UnmarshalJSON (λ s, s) BATCHRUNNING
       (fst (RequestContextBatchState_MarshalJSON x02))
     = Some (BATCHRUNNING,
             Some (fmt_Errorf
                     "'' is not a valid request context batch state")).
Proof.
  pose proof (state_json_round_trip (λ s, s)) as [Hs Hb].
  split.
  { apply (proj1 (proj2 (Hs RUNNING COMPLETED))). right; right; reflexivity. }
  split.
  { apply (proj2 (proj2 (Hs RUNNING x03))).
    intros [H | [H | H]]; discriminate H. }
  split.
  { apply (proj1 (proj2 (Hb BATCHRUNNING BATCHCOMPLETED))).
    right; reflexivity. }
  apply (proj2 (proj2 (Hb BATCHRUNNING x02))).
  intros [H | H]; discriminate H.
Defined.

(** X10.  The binary form of a state is its one byte: [Unmarshal] of the
    bytes of [Marshal] gives the state back for every byte, known state
    or not, and neither returns an error.  [Unmarshal] reads the first
    byte of any non-empty data, ignoring the rest, and panics on empty
    data. *)
Theorem state_binary_round_trip :
  (forall receiver state : RequestContextState,
     snd (RequestContextState_Marshal state) = None
     /\ RequestContextState_Unmarshal receiver
          (fst (RequestContextState_Marshal state)) = Some (state, None))
  /\ (forall receiver state : RequestContextBatchState,
        snd (RequestContextBatchState_Marshal state) = None
        /\ RequestContextBatchState_Unmarshal receiver
             (fst (RequestContextBatchState_Marshal state))
           = Some (state, None))
  /\ (forall receiver data,
        (RequestContextState_Unmarshal receiver data = None <-> data = [])
        /\ (RequestContextBatchState_Unmarshal receiver data = None
            <-> data = [])
        /\ forall first rest,
             RequestContextState_Unmarshal receiver (first :: data ++ rest)
             = RequestContextState_Unmarshal receiver [first]
             /\ RequestContextBatchState_Unmarshal receiver
                  (first :: data ++ rest)
                = RequestContextBatchState_Unmarshal receiver [first]).
Proof.
  split; [|split].
  - intros receiver state. split; reflexivity.
  - intros receiver state. split; reflexivity.
  - intros receiver data. split; [|split].
    + destruct data; split; intros H; first [reflexivity | discriminate H].
    + destruct data; split; intros H; first [reflexivity | discriminate H].
    + intros first rest. split; reflexivity.
Qed.

(** ** The validators *)

(** X11.  [ValidateTags] accepts exactly the lists of at most 10 tags
    with no tag twice and every tag of 1 to 70 bytes; the empty list is
    accepted.  Whatever the reason, a refusal is [ErrInvalidTags]. *)
Theorem ValidateTags_accepts (tags : list string) :
  (ValidateTags tags = None
   <-> (length tags <= 10)%nat
       /\ List.NoDup tags
       /\ List.Forall (λ tag, (1 <= String.length tag <= 70)%nat) tags)
  /\ (ValidateTags tags <> None ->
      ValidateTags tags = Some (sdkerrors_Wrap ErrInvalidTags)).
Proof.
  unfold ValidateTags, MaxTagsNum.
  destruct (Nat.ltb_spec 10 (length tags)) as [Hlong|Hshort].
  { split; [|reflexivity]. split; [discriminate|]. intros [? _]. lia. }
  pose proof (HasDuplicate_false tags) as Hdup.
  destruct (HasDuplicate tags).
  { split; [|reflexivity]. split; [discriminate|].
    intros (_ & Hnd & _). apply Hdup in Hnd. discriminate Hnd. }
  split.
  - rewrite ValidateTags_each_nil. split.
    + intros Hall. split; [exact Hshort|]. split; [|exact Hall].
      apply Hdup. reflexivity.
    + intros (_ & _ & Hall). exact Hall.
  - destruct (ValidateTags_each tags) as [e|] eqn:Heach.
    + intros _. rewrite (ValidateTags_each_error tags e Heach). reflexivity.
    + intros Hne. exfalso. apply Hne. reflexivity.
Qed.

Lemma ValidateTags_accepts_witness :
  ValidateTags ["price"; "price"] = Some (sdkerrors_Wrap ErrInvalidTags).
Proof.
  apply (proj2 (ValidateTags_accepts ["price"; "price"])).
  vm_compute. discriminate.
Defined.

(** X12.  [ValidateInput] accepts exactly the texts that [json.Valid]
    accepts: the test for an empty input changes nothing, as the empty
    text is not valid JSON.  A refusal is [ErrInvalidRequestInput].  An
    accepted input is an accepted output of a response with code 200, and
    the other way round, and is refused as the output of a response with
    any other code. *)
Theorem ValidateInput_accepts (input : string) :
  (ValidateInput input = None
   <-> Json.Valid (list_byte_of_string input) = true)
  /\ (ValidateInput input <> None ->
      ValidateInput input = Some (sdkerrors_Wrap ErrInvalidRequestInput))
  /\ (ValidateInput input = None <-> ValidateOutput 200 input = None)
  /\ (forall code, code <> 200 -> ValidateInput input = None ->
      ValidateOutput code input = Some (sdkerrors_Wrap ErrInvalidResponse)).
Proof.
  split; [apply ValidateInput_nil|]. split; [|split].
  - unfold ValidateInput.
    destruct (String.length input =? 0)%nat; [reflexivity|].
    destruct (Json.Valid _); cbn [negb]; [|reflexivity].
    intros Hne. exfalso. apply Hne. reflexivity.
  - rewrite ValidateInput_nil. unfold ValidateOutput.
    change (200 =? 200) with true. cbn [andb negb].
    destruct (Nat.eqb_spec (String.length input) 0) as [Hzero|Hpos].
    + apply length_zero_empty in Hzero. subst input.
      change (list_byte_of_string EmptyString) with (@nil byte).
      rewrite Valid_empty. split; discriminate.
    + destruct (Nat.ltb_spec 0 (String.length input)) as [_|Hle]; [|lia].
      destruct (Json.Valid _); cbn [andb negb]; split;
        first [reflexivity | discriminate].
  - intros code Hcode Hvalid. unfold ValidateOutput.
    destruct (Z.eqb_spec code 200) as [Heq|_]; [contradiction|].
    cbn [andb negb].
    destruct (Nat.eqb_spec (String.length input) 0) as [Hzero|Hpos];
      [|reflexivity].
    apply length_zero_empty in Hzero. subst input.
    vm_compute in Hvalid. discriminate Hvalid.
Qed.

Lemma ValidateInput_accepts_witness :
  ValidateInput "[1,]" = Some (sdkerrors_Wrap ErrInvalidRequestInput)
  /\ ValidateOutput 404 "[1,2]" = Some (sdkerrors_Wrap ErrInvalidResponse).
Proof.
  split.
  - apply (proj1 (proj2 (ValidateInput_accepts "[1,]"))).
    vm_compute. discriminate.
  - apply (proj2 (proj2 (proj2 (ValidateInput_accepts "[1,2]"))) 404);
      [lia|vm_compute; reflexivity].
Defined.

(** X13.  The two validators of a provider list agree on what a good
    list is, apart from the empty list: [ValidateProvidersNoEmpty]
    accepts exactly the lists of 1 to 10 providers whose texts are all
    different, which are the non-empty lists that
    [ValidateProvidersCanEmpty] accepts.  They differ in the error: a
    missing or too long list is [sdkerrors.ErrInvalidRequest] for
    [ValidateProvidersNoEmpty], whose other refusals are
    [ErrInvalidProviders], and every refusal of
    [ValidateProvidersCanEmpty] is [ErrInvalidProviders]. *)
Theorem provider_lists_accepted (AccAddress_String : AccAddress → string)
    (providers : list AccAddress) :
  (ValidateProvidersNoEmpty AccAddress_String providers = None
   <-> (1 <= length providers <= 10)%nat
       /\ List.NoDup (List.map AccAddress_String providers))
  /\ (ValidateProvidersNoEmpty AccAddress_String providers = None
      <-> providers <> []
          /\ ValidateProvidersCanEmpty AccAddress_String providers = None)
  /\ (ValidateProvidersCanEmpty AccAddress_String providers <> None ->
      ValidateProvidersCanEmpty AccAddress_String providers
      = Some (sdkerrors_Wrap ErrInvalidProviders))
  /\ (ValidateProvidersNoEmpty AccAddress_String providers <> None ->
      ValidateProvidersNoEmpty AccAddress_String providers
      = Some (sdkerrors_Wrap
                (if decide (1 <= length providers <= 10)%nat
                 then ErrInvalidProviders
                 else sdkerrors_ErrInvalidRequest))).
Proof.
  split; [apply ValidateProvidersNoEmpty_nil|]. split; [|split].
  - rewrite ValidateProvidersNoEmpty_nil, ValidateProvidersCanEmpty_nil.
    destruct providers as [|p providers]; cbn [length].
    + split; [intros [? _]; lia|intros [Hne _]; contradiction].
    + split.
      * intros [Hlen Hnd]. split; [discriminate|]. split; [lia|exact Hnd].
      * intros (_ & Hlen & Hnd). split; [lia|exact Hnd].
  - unfold ValidateProvidersCanEmpty, checkDuplicateProviders, or_else.
    destruct (MaxProvidersNum <? length providers)%nat; [reflexivity|].
    destruct (0 <? length providers)%nat;
      [destruct (HasDuplicate _); [reflexivity|]|];
      intros Hne; exfalso; apply Hne; reflexivity.
  - unfold ValidateProvidersNoEmpty, checkDuplicateProviders, or_else,
      MaxProvidersNum.
    destruct (Nat.eqb_spec (length providers) 0) as [Hzero|Hpos].
    { rewrite decide_False by lia. reflexivity. }
    destruct (Nat.ltb_spec 10 (length providers)) as [Hlong|Hshort].
    { rewrite decide_False by lia. reflexivity. }
    rewrite decide_True by lia.
    destruct (HasDuplicate _); [reflexivity|].
    intros Hne. exfalso. apply Hne. reflexivity.
Qed.

Lemma provider_lists_accepted_witness :
  ValidateProvidersCanEmpty string_of_list_byte (replicate 11 [x01])
  = Some (sdkerrors_Wrap ErrInvalidProviders)
  /\ ValidateProvidersNoEmpty string_of_list_byte (replicate 11 [x01])
     = Some (sdkerrors_Wrap sdkerrors_ErrInvalidRequest)
  /\ ValidateProvidersNoEmpty string_of_list_byte [[x01]; [x01]]
     = Some (sdkerrors_Wrap ErrInvalidProviders).
Proof.
  split; [|split].
  - apply (proj1 (proj2 (proj2 (provider_lists_accepted string_of_list_byte
                                  (replicate 11 [x01]))))).
    vm_compute. discriminate.
  - apply (proj2 (proj2 (proj2 (provider_lists_accepted string_of_list_byte
                                  (replicate 11 [x01]))))).
    vm_compute. discriminate.
  - apply (proj2 (proj2 (proj2 (provider_lists_accepted string_of_list_byte
                                  [[x01]; [x01]])))).
    vm_compute. discriminate.
Defined.

(** X14.  What is accepted when a repeated request is created is accepted
    when it is updated: if [ValidateRequest] accepts a repeated request,
    [ValidateRequestContextUpdating] accepts its providers, fee cap,
    timeout, frequency and total.  For a request that is not repeated
    [ValidateRequest] does not look at the frequency and the total. *)
Theorem created_then_updated
    (Coins_IsValid : Coins → bool) (AccAddress_String : AccAddress → string)
    (serviceName : string) (serviceFeeCap : Coins)
    (providers : list AccAddress) (input : string)
    (timeout repeatedFrequency repeatedTotal : Z) :
  (is_uint64 repeatedFrequency ->
   ValidateRequest Coins_IsValid AccAddress_String serviceName serviceFeeCap
     providers input timeout true repeatedFrequency repeatedTotal = None ->
   ValidateRequestContextUpdating Coins_IsValid AccAddress_String providers
     serviceFeeCap timeout repeatedFrequency repeatedTotal = None)
  /\ (forall frequency total,
        ValidateRequest Coins_IsValid AccAddress_String serviceName
          serviceFeeCap providers input timeout false frequency total
        = ValidateRequest Coins_IsValid AccAddress_String serviceName
            serviceFeeCap providers input timeout false repeatedFrequency
            repeatedTotal).
Proof.
  split; [|reflexivity]. apply ValidateRequest_updating.
Qed.

Lemma created_then_updated_witness :
  ValidateRequestContextUpdating
    (λ coins, forallb (λ c, 0 <? Amount c) coins) string_of_list_byte
    [[x01; x02]; [x03]] [mkCoin "stake" 10] 100 100 (-1) = None.
Proof.
  apply (proj1 (created_then_updated
                  (λ coins, forallb (λ c, 0 <? Amount c) coins)
                  string_of_list_byte "oracle-price_2" [mkCoin "stake" 10]
                  [[x01; x02]; [x03]] "[1,2]" 100 100 (-1))).
  - unfold is_uint64; lia.
  - vm_compute; reflexivity.
Defined.

(** ** The messages *)

(** X15.  Every message that [ValidateBasic] accepts has exactly one
    signer, and this signer is not the empty address: the author of a
    service definition, the provider of the binding, withdrawal and
    response messages, the consumer of the request messages. *)
Theorem accepted_messages_have_one_signer
    (Coins_IsValid Coins_IsAllPositive : Coins → bool)
    (AccAddress_String : AccAddress → string)
    (ValidateServiceSchemas ValidateBindingPricing ValidateResponseResult
       : string → option error)
    (json_Unmarshal_Result
       : list byte → Result → Result * option Json.UnmarshalError) :
  let one_signer (signers : list AccAddress) (who : AccAddress) :=
    signers = [who] /\ who <> [] in
  (forall msg,
     MsgDefineService.ValidateBasic ValidateServiceSchemas msg = None ->
     one_signer (MsgDefineService.GetSigners msg)
       (MsgDefineService.Author msg))
  /\ (forall msg,
        MsgBindService.ValidateBasic Coins_IsAllPositive
          ValidateBindingPricing msg = None ->
        one_signer (MsgBindService.GetSigners msg)
          (MsgBindService.Provider msg))
  /\ (forall msg,
        MsgUpdateServiceBinding.ValidateBasic Coins_IsAllPositive
          ValidateBindingPricing msg = None ->
        one_signer (MsgUpdateServiceBinding.GetSigners msg)
          (MsgUpdateServiceBinding.Provider msg))
  /\ (forall msg,
        MsgSetWithdrawAddress.ValidateBasic msg = None ->
        one_signer (MsgSetWithdrawAddress.GetSigners msg)
          (MsgSetWithdrawAddress.Provider msg))
  /\ (forall msg,
        MsgDisableServiceBinding.ValidateBasic msg = None ->
        one_signer (MsgDisableServiceBinding.GetSigners msg)
          (MsgDisableServiceBinding.Provider msg))
  /\ (forall msg,
        MsgEnableServiceBinding.ValidateBasic Coins_IsAllPositive msg = None ->
        one_signer (MsgEnableServiceBinding.GetSigners msg)
          (MsgEnableServiceBinding.Provider msg))
  /\ (forall msg,
        MsgRefundServiceDeposit.ValidateBasic msg = None ->
        one_signer (MsgRefundServiceDeposit.GetSigners msg)
          (MsgRefundServiceDeposit.Provider msg))
  /\ (forall msg,
        MsgCallService.ValidateBasic Coins_IsValid AccAddress_String msg
        = None ->
        one_signer (MsgCallService.GetSigners msg)
          (MsgCallService.Consumer msg))
  /\ (forall msg,
        MsgRespondService.ValidateBasic ValidateResponseResult
          json_Unmarshal_Result msg = None ->
        one_signer (MsgRespondService.GetSigners msg)
          (MsgRespondService.Provider msg))
  /\ (forall msg,
        MsgPauseRequestContext.ValidateBasic msg = None ->
        one_signer (MsgPauseRequestContext.GetSigners msg)
          (MsgPauseRequestContext.Consumer msg))
  /\ (forall msg,
        MsgStartRequestContext.ValidateBasic msg = None ->
        one_signer (MsgStartRequestContext.GetSigners msg)
          (MsgStartRequestContext.Consumer msg))
  /\ (forall msg,
        MsgKillRequestContext.ValidateBasic msg = None ->
        one_signer (MsgKillRequestContext.GetSigners msg)
          (MsgKillRequestContext.Consumer msg))
  /\ (forall msg,
        MsgUpdateRequestContext.ValidateBasic Coins_IsValid
          AccAddress_String msg = None ->
        one_signer (MsgUpdateRequestContext.GetSigners msg)
          (MsgUpdateRequestContext.Consumer msg))
  /\ (forall msg,
        MsgWithdrawEarnedFees.ValidateBasic msg = None ->
        one_signer (MsgWithdrawEarnedFees.GetSigners msg)
          (MsgWithdrawEarnedFees.Provider msg)).
Proof.
  intros one_signer. unfold one_signer.
  repeat match goal with |- _ /\ _ => split end;
    intros msg Hok; (split; [reflexivity|]).
  - apply or_else_nil in Hok as [Hok _]. apply ValidateAuthor_nil, Hok.
  - apply or_else_nil in Hok as [Hok _]. apply ValidateProvider_nil, Hok.
  - apply or_else_nil in Hok as [Hok _]. apply ValidateProvider_nil, Hok.
  - apply or_else_nil in Hok as [Hok _]. apply ValidateProvider_nil, Hok.
  - apply or_else_nil in Hok as [Hok _]. apply ValidateProvider_nil, Hok.
  - apply or_else_nil in Hok as [Hok _]. apply ValidateProvider_nil, Hok.
  - apply or_else_nil in Hok as [Hok _]. apply ValidateProvider_nil, Hok.
  - apply or_else_nil in Hok as [Hok _]. apply ValidateConsumer_nil, Hok.
  - apply or_else_nil in Hok as [Hok _]. apply ValidateProvider_nil, Hok.
  - apply or_else_nil in Hok as [Hok _]. apply ValidateConsumer_nil, Hok.
  - apply or_else_nil in Hok as [Hok _]. apply ValidateConsumer_nil, Hok.
  - apply or_else_nil in Hok as [Hok _]. apply ValidateConsumer_nil, Hok.
  - apply or_else_nil in Hok as [Hok _]. apply ValidateConsumer_nil, Hok.
  - apply ValidateProvider_nil, Hok.
Qed.

Lemma accepted_messages_have_one_signer_witness :
  (MsgPauseRequestContext.GetSigners
     (MsgPauseRequestContext.mk (replicate 40 x00) [x01; x02])
   = [[x01; x02]] /\ [x01; x02] <> [])
  /\ (MsgWithdrawEarnedFees.GetSigners (MsgWithdrawEarnedFees.mk [x03])
      = [[x03]] /\ [x03] <> []).
Proof.
  pose proof (accepted_messages_have_one_signer
                (λ _, true) (λ _, true) string_of_list_byte
                (λ _, None) (λ _, None) (λ _, None) (λ _ r, (r, None)))
    as Hall.
  cbv zeta in Hall.
  destruct Hall as (_ & _ & _ & _ & _ & _ & _ & _ & _ & Hpause & _ & _ & _
                    & Hfees).
  split.
  - apply (Hpause (MsgPauseRequestContext.mk (replicate 40 x00) [x01; x02])).
    vm_compute; reflexivity.
  - apply (Hfees (MsgWithdrawEarnedFees.mk [x03])). vm_compute; reflexivity.
Defined.

(** X16.  What [MsgBindService] accepts, the later messages of the
    provider about this binding accept: with the service name, provider,
    deposit and pricing of an accepted [MsgBindService],
    [MsgUpdateServiceBinding] is accepted whatever its minimum response
    time (which its [ValidateBasic] does not look at, 0 included), and so
    are [MsgEnableServiceBinding], [MsgDisableServiceBinding] and
    [MsgRefundServiceDeposit]. *)
Theorem bound_then_accepted (Coins_IsAllPositive : Coins → bool)
    (ValidateBindingPricing : string → option error)
    (msg : MsgBindService.t) :
  MsgBindService.ValidateBasic Coins_IsAllPositive ValidateBindingPricing msg
  = None ->
  let name := MsgBindService.ServiceName msg in
  let provider := MsgBindService.Provider msg in
  let deposit := MsgBindService.Deposit msg in
  let pricing := MsgBindService.Pricing msg in
  MsgBindService.MinRespTime msg <> 0
  /\ (forall minRespTime,
        MsgUpdateServiceBinding.ValidateBasic Coins_IsAllPositive
          ValidateBindingPricing
          (MsgUpdateServiceBinding.mk name provider deposit pricing
             minRespTime) = None)
  /\ MsgEnableServiceBinding.ValidateBasic Coins_IsAllPositive
       (MsgEnableServiceBinding.mk name provider deposit) = None
  /\ MsgDisableServiceBinding.ValidateBasic
       (MsgDisableServiceBinding.mk name provider) = None
  /\ MsgRefundServiceDeposit.ValidateBasic
       (MsgRefundServiceDeposit.mk name provider) = None.
Proof.
  intros Hok name provider deposit pricing.
  unfold MsgBindService.ValidateBasic in Hok.
  rewrite !or_else_nil in Hok.
  destruct Hok as (Hprovider & Hname & Hdeposit & Hmin & Hpricing).
  fold name in Hname. fold provider in Hprovider. fold deposit in Hdeposit.
  fold pricing in Hpricing.
  split; [|split; [|split; [|split]]].
  - unfold ValidateMinRespTime in Hmin.
    destruct (Z.eqb_spec (MsgBindService.MinRespTime msg) 0);
      [discriminate Hmin|assumption].
  - intros minRespTime.
    unfold MsgUpdateServiceBinding.ValidateBasic.
    cbn [MsgUpdateServiceBinding.Provider MsgUpdateServiceBinding.ServiceName
         MsgUpdateServiceBinding.Deposit MsgUpdateServiceBinding.Pricing].
    rewrite Hprovider, Hname, Hdeposit, Hpricing. cbn [or_else].
    destruct (negb (Coins_Empty deposit)),
      (negb (String.length pricing =? 0)%nat); reflexivity.
  - unfold MsgEnableServiceBinding.ValidateBasic.
    cbn [MsgEnableServiceBinding.Provider MsgEnableServiceBinding.ServiceName
         MsgEnableServiceBinding.Deposit].
    rewrite Hprovider, Hname, Hdeposit. cbn [or_else].
    destruct (negb (Coins_Empty deposit)); reflexivity.
  - unfold MsgDisableServiceBinding.ValidateBasic.
    cbn [MsgDisableServiceBinding.Provider
         MsgDisableServiceBinding.ServiceName].
    rewrite Hprovider, Hname. reflexivity.
  - unfold MsgRefundServiceDeposit.ValidateBasic.
    cbn [MsgRefundServiceDeposit.Provider
         MsgRefundServiceDeposit.ServiceName].
    rewrite Hprovider, Hname. reflexivity.
Qed.

Lemma bound_then_accepted_witness :
  MsgUpdateServiceBinding.ValidateBasic
    (λ coins, forallb (λ c, 0 <? Amount c) coins) (λ _, None)
    (MsgUpdateServiceBinding.mk "oracle" [x01] [mkCoin "stake" 10] "{}" 0)
  = None.
Proof.
  apply (proj1 (proj2 (bound_then_accepted
                         (λ coins, forallb (λ c, 0 <? Amount c) coins)
                         (λ _, None)
                         (MsgBindService.mk "oracle" [x01]
                            [mkCoin "stake" 10] "{}" 5)
                         ltac:(vm_compute; reflexivity))) 0).
Defined.

(** X17.  The request context built from an accepted [MsgCallService] is
    valid: whatever the batch fields, states, threshold and module name
    given to [NewRequestContext], [Validate] accepts the context and
    [Empty] is false for it.  In general a context that [Validate]
    accepts is not [Empty]. *)
Theorem called_then_valid
    (Coins_IsValid : Coins → bool) (AccAddress_String : AccAddress → string)
    (msg : MsgCallService.t) :
  (MsgCallService.ValidateBasic Coins_IsValid AccAddress_String msg = None ->
   forall batchCounter batchRequestCount batchResponseCount
          batchResponseThreshold batchState state responseThreshold
          moduleName,
     let rc :=
       NewRequestContext (MsgCallService.ServiceName msg)
         (MsgCallService.Providers msg) (MsgCallService.Consumer msg)
         (MsgCallService.Input msg) (MsgCallService.ServiceFeeCap msg)
         (MsgCallService.Timeout msg) (MsgCallService.SuperMode msg)
         (MsgCallService.Repeated msg) (MsgCallService.RepeatedFrequency msg)
         (MsgCallService.RepeatedTotal msg) batchCounter batchRequestCount
         batchResponseCount batchResponseThreshold batchState state
         responseThreshold moduleName in
     RequestContext_Validate Coins_IsValid AccAddress_String rc = None
     /\ RequestContext_Empty rc = false
     /\ 0 < Timeout rc)
  /\ (forall rc,
        RequestContext_Validate Coins_IsValid AccAddress_String rc = None ->
        RequestContext_Empty rc = false).
Proof.
  split.
  - intros Hok. unfold MsgCallService.ValidateBasic in Hok.
    apply or_else_nil in Hok as [Hconsumer Hrequest].
    apply ValidateRequest_fields in Hrequest
      as (Hname & Hcap & Hprov & Hinput & Htimeout).
    intros. subst rc.
    unfold RequestContext_Validate, RequestContext_Empty, NewRequestContext.
    cbn [ServiceName Providers Consumer Input ServiceFeeCap Timeout].
    rewrite Hname, Hprov, Hconsumer, Hinput, Hcap. cbn [or_else].
    split; [reflexivity|]. split; [|exact Htimeout].
    apply ValidateConsumer_nil in Hconsumer.
    destruct (MsgCallService.Consumer msg); [contradiction|reflexivity].
  - intros rc Hok. unfold RequestContext_Validate in Hok.
    rewrite !or_else_nil in Hok. destruct Hok as (_ & _ & Hconsumer & _).
    apply ValidateConsumer_nil in Hconsumer. unfold RequestContext_Empty.
    destruct (Consumer rc); [contradiction|reflexivity].
Qed.

Lemma called_then_valid_witness :
  let rc :=
    NewRequestContext "oracle" [[x01]; [x02]] [x09] "[1,2]"
      [mkCoin "stake" 10] 100 false true 100 (-1) 0 0 0 0 BATCHRUNNING
      RUNNING 1 "oracle" in
  RequestContext_Validate (λ coins, forallb (λ c, 0 <? Amount c) coins)
    string_of_list_byte rc = None
  /\ RequestContext_Empty rc = false
  /\ 0 < Timeout rc.
Proof.
  apply (proj1 (called_then_valid
                  (λ coins, forallb (λ c, 0 <? Amount c) coins)
                  string_of_list_byte
                  (MsgCallService.mk "oracle" [[x01]; [x02]] [x09] "[1,2]"
                     [mkCoin "stake" 10] 100 false true 100 (-1)))).
  vm_compute; reflexivity.
Defined.

(** X18.  The messages about a request context: [MsgPauseRequestContext],
    [MsgStartRequestContext] and [MsgKillRequestContext] accept exactly
    the same pairs, a 40-byte context ID with a consumer that is not
    empty.  An accepted [MsgUpdateRequestContext] has such a pair.  And
    the consumer, providers, fee cap, timeout, frequency and total of an
    accepted [MsgCallService] for a repeated request make, with any
    40-byte context ID, an accepted [MsgUpdateRequestContext]. *)
Theorem context_messages_accepted
    (Coins_IsValid : Coins → bool) (AccAddress_String : AccAddress → string) :
  (forall contextID consumer,
     (MsgPauseRequestContext.ValidateBasic
        (MsgPauseRequestContext.mk contextID consumer) = None
      <-> length contextID = 40%nat /\ consumer <> [])
     /\ (MsgStartRequestContext.ValidateBasic
           (MsgStartRequestContext.mk contextID consumer) = None
         <-> length contextID = 40%nat /\ consumer <> [])
     /\ (MsgKillRequestContext.ValidateBasic
           (MsgKillRequestContext.mk contextID consumer) = None
         <-> length contextID = 40%nat /\ consumer <> []))
  /\ (forall msg,
        MsgUpdateRequestContext.ValidateBasic Coins_IsValid AccAddress_String
          msg = None ->
        length (MsgUpdateRequestContext.RequestContextID msg) = 40%nat
        /\ MsgUpdateRequestContext.Consumer msg <> [])
  /\ (forall msg contextID,
        MsgCallService.ValidateBasic Coins_IsValid AccAddress_String msg
        = None ->
        MsgCallService.Repeated msg = true ->
        is_uint64 (MsgCallService.RepeatedFrequency msg) ->
        length contextID = 40%nat ->
        MsgUpdateRequestContext.ValidateBasic Coins_IsValid AccAddress_String
          (MsgUpdateRequestContext.mk contextID
             (MsgCallService.Providers msg) (MsgCallService.ServiceFeeCap msg)
             (MsgCallService.Timeout msg)
             (MsgCallService.RepeatedFrequency msg)
             (MsgCallService.RepeatedTotal msg)
             (MsgCallService.Consumer msg)) = None).
Proof.
  split; [|split].
  - intros contextID consumer.
    unfold MsgPauseRequestContext.ValidateBasic,
      MsgStartRequestContext.ValidateBasic,
      MsgKillRequestContext.ValidateBasic.
    cbn [MsgPauseRequestContext.Consumer
         MsgPauseRequestContext.RequestContextID
         MsgStartRequestContext.Consumer
         MsgStartRequestContext.RequestContextID
         MsgKillRequestContext.Consumer
         MsgKillRequestContext.RequestContextID].
    rewrite or_else_nil, ValidateConsumer_nil, ValidateContextID_nil.
    tauto.
  - intros msg Hok. unfold MsgUpdateRequestContext.ValidateBasic in Hok.
    rewrite !or_else_nil in Hok. destruct Hok as (Hconsumer & Hid & _).
    split; [apply ValidateContextID_nil, Hid
           |apply ValidateConsumer_nil, Hconsumer].
  - intros msg contextID Hok Hrepeated Hfreq Hlen.
    unfold MsgCallService.ValidateBasic in Hok.
    apply or_else_nil in Hok as [Hconsumer Hrequest].
    rewrite Hrepeated in Hrequest.
    apply ValidateRequest_updating in Hrequest; [|exact Hfreq].
    unfold MsgUpdateRequestContext.ValidateBasic.
    cbn [MsgUpdateRequestContext.Consumer
         MsgUpdateRequestContext.RequestContextID
         MsgUpdateRequestContext.Providers
         MsgUpdateRequestContext.ServiceFeeCap
         MsgUpdateRequestContext.Timeout
         MsgUpdateRequestContext.RepeatedFrequency
         MsgUpdateRequestContext.RepeatedTotal].
    rewrite Hconsumer, (proj2 (ValidateContextID_nil contextID) Hlen).
    exact Hrequest.
Qed.

Lemma context_messages_accepted_witness :
  (length (replicate 40 x05) = 40%nat /\ [x09] <> [])
  /\ MsgUpdateRequestContext.ValidateBasic
       (λ coins, forallb (λ c, 0 <? Amount c) coins) string_of_list_byte
       (MsgUpdateRequestContext.mk (replicate 40 x05) [[x01]; [x02]]
          [mkCoin "stake" 10] 100 100 (-1) [x09]) = None.
Proof.
  pose proof (context_messages_accepted
                (λ coins, forallb (λ c, 0 <? Amount c) coins)
                string_of_list_byte) as (_ & Hupdate & Hcall).
  pose proof (Hcall (MsgCallService.mk "oracle" [[x01]; [x02]] [x09] "[1,2]"
                       [mkCoin "stake" 10] 100 false true 100 (-1))
                (replicate 40 x05)
                ltac:(vm_compute; reflexivity) ltac:(reflexivity)
                ltac:(unfold is_uint64; cbn; lia) ltac:(reflexivity))
    as Hok.
  split; [exact (Hupdate _ Hok)|exact Hok].
Defined.

(** X19.  An accepted [MsgRespondService] has a provider that is not
    empty and a 58-byte request ID, its result passes
    [ValidateResponseResult] and parses without an error, and its output
    fits the code of the parsed result: with code 200 the output is valid
    JSON, with any other code there is no output. *)
Theorem responded_output_fits_code
    (ValidateResponseResult : string → option error)
    (json_Unmarshal_Result
       : list byte → Result → Result * option Json.UnmarshalError)
    (msg : MsgRespondService.t) :
  MsgRespondService.ValidateBasic ValidateResponseResult
    json_Unmarshal_Result msg = None ->
  MsgRespondService.Provider msg <> []
  /\ length (MsgRespondService.RequestID msg) = 58%nat
  /\ ValidateResponseResult (MsgRespondService.Result msg) = None
  /\ exists result,
       ParseResult json_Unmarshal_Result (MsgRespondService.Result msg)
       = (result, None)
       /\ (if Code result =? 200 then
             Json.Valid (list_byte_of_string (MsgRespondService.Output msg))
             = true
           else MsgRespondService.Output msg = EmptyString).
Proof.
  unfold MsgRespondService.ValidateBasic. rewrite !or_else_nil.
  intros (Hprovider & Hid & Hresult & Hrest).
  split; [apply ValidateProvider_nil, Hprovider|].
  split; [apply ValidateRequestID_nil, Hid|].
  split; [exact Hresult|].
  destruct (ParseResult json_Unmarshal_Result (MsgRespondService.Result msg))
    as [result err].
  apply or_else_nil in Hrest as [-> Houtput].
  exists result. split; [reflexivity|].
  unfold ValidateOutput in Houtput.
  destruct (Code result =? 200); cbn [andb negb] in Houtput.
  - destruct (Nat.eqb_spec (String.length (MsgRespondService.Output msg)) 0)
      as [Hzero|Hpos]; [discriminate Houtput|].
    destruct (Nat.ltb_spec 0 (String.length (MsgRespondService.Output msg)))
      as [_|Hle]; [|lia].
    destruct (Json.Valid _); [reflexivity|discriminate Houtput].
  - destruct (Nat.eqb_spec (String.length (MsgRespondService.Output msg)) 0)
      as [Hzero|Hpos]; [|discriminate Houtput].
    apply length_zero_empty, Hzero.
Qed.

Lemma responded_output_fits_code_witness :
  [x01] <> []
  /\ length (replicate 58 x02) = 58%nat
  /\ @None error = None
  /\ exists result,
       ParseResult (λ _ _, (mkResult 200 "ok", None)) "{}" = (result, None)
       /\ (if Code result =? 200 then
             Json.Valid (list_byte_of_string "[1,2]") = true
           else "[1,2]" = EmptyString).
Proof.
  apply (responded_output_fits_code (λ _, None)
           (λ _ _, (mkResult 200 "ok", None))
           (MsgRespondService.mk (replicate 58 x02) [x01] "{}" "[1,2]")).
  vm_compute; reflexivity.
Defined.

(** ** The identifiers and their validators *)

(** X20.  The generators never panic and add 8 and 18 bytes:
    [ValidateContextID] accepts a generated context ID exactly when the
    hash has 32 bytes, and [ValidateRequestID] a generated request ID
    exactly when the context ID has 40 bytes.  So a request ID generated
    from a context ID generated from a 32-byte hash is accepted, and
    splitting it twice gives back the counter, height, index, hash and
    message index. *)
Theorem generated_ids_validated
    (h c : list byte) (i b ht idx : Z) :
  (exists contextID,
     GenerateRequestContextID h i = Some contextID
     /\ length contextID = (length h + 8)%nat
     /\ (ValidateContextID contextID = None <-> length h = 32%nat))
  /\ (exists requestID,
        GenerateRequestID c b ht idx = Some requestID
        /\ length requestID = (length c + 18)%nat
        /\ (ValidateRequestID requestID = None <-> length c = 40%nat))
  /\ (length h = 32%nat -> is_int64 i -> is_uint64 b -> is_int64 ht ->
      is_int16 idx ->
      exists contextID requestID,
        GenerateRequestContextID h i = Some contextID
        /\ GenerateRequestID contextID b ht idx = Some requestID
        /\ ValidateRequestID requestID = None
        /\ SplitRequestID requestID = Some (contextID, b, ht, idx, None)
        /\ SplitRequestContextID contextID = Some (h, i, None)).
Proof.
  split; [|split].
  - eexists. split; [apply GenerateRequestContextID_bytes|].
    assert (Hlen : length (h ++ BigEndian.bytes64 (uint64 i))
                   = (length h + 8)%nat)
      by (rewrite length_app; reflexivity).
    split; [exact Hlen|].
    rewrite ValidateContextID_nil, Hlen. lia.
  - eexists. split; [apply GenerateRequestID_bytes|].
    assert (Hlen : length (c ++ BigEndian.bytes64 b
                           ++ BigEndian.bytes64 (uint64 ht)
                           ++ BigEndian.bytes16 (uint16 idx))
                   = (length c + 18)%nat)
      by (rewrite length_app; reflexivity).
    split; [exact Hlen|].
    rewrite ValidateRequestID_nil, Hlen. lia.
  - intros Hh Hi Hb Hht Hidx.
    assert (Hctx : length (h ++ BigEndian.bytes64 (uint64 i)) = 40%nat)
      by (rewrite length_app, Hh; reflexivity).
    eexists _, _.
    split; [apply GenerateRequestContextID_bytes|].
    split; [apply GenerateRequestID_bytes|].
    split.
    { apply ValidateRequestID_nil. rewrite length_app, Hctx. reflexivity. }
    split.
    + rewrite SplitRequestID_bytes
        by auto using uint64_range, uint16_range.
      rewrite int64_uint64, int16_uint16 by assumption. reflexivity.
    + rewrite SplitRequestContextID_bytes by auto using uint64_range.
      rewrite int64_uint64 by assumption. reflexivity.
Qed.

Lemma generated_ids_validated_witness :
  exists contextID requestID,
    GenerateRequestContextID (replicate 32 xab) 3 = Some contextID
    /\ GenerateRequestID contextID 7 1000 (-1) = Some requestID
    /\ ValidateRequestID requestID = None
    /\ SplitRequestID requestID = Some (contextID, 7, 1000, -1, None)
    /\ SplitRequestContextID contextID = Some (replicate 32 xab, 3, None).
Proof.
  apply (proj2 (proj2 (generated_ids_validated (replicate 32 xab) [] 3 7
                         1000 (-1)))).
  - reflexivity.
  - unfold is_int64; lia.
  - unfold is_uint64; lia.
  - unfold is_int64; lia.
  - unfold is_int16; lia.
Defined.
